(** * Git-Automation: a shallow embedding of [main.py]

    The program is sequential glue around two external systems: the
    [git] command line tool and the GitHub API.  The embedding keeps the
    code's own structure (one definition per Python function, written in
    a small state-and-exception monad) and makes the outside world
    explicit:

    - the file system is a finite map from paths to entry kinds;
    - the hosting account is a finite map from repository names to
      repositories;
    - every external effect (a subprocess run, an API call, a file
      write, an emitted log record) is appended to an event list;
    - what [git] answers is an oracle of the current state, so every
      theorem holds for every possible behaviour of the tool. *)

From Stdlib Require Import String Ascii ZArith List.
From stdpp Require Import base decidable option list sorting gmap strings pretty.

Local Open Scope string_scope.
Local Open Scope list_scope.

(** ** Python strings *)

Module Py.

(** [str.startswith]. *)
Definition startswith (s pre : string) : bool := String.prefix pre s.

(** Truth value of a [str]: the empty string is false. *)
Definition truthy (s : string) : bool :=
  match s with EmptyString => false | String _ _ => true end.

(** Truth value of an [Optional[str]]: [None] and [""] are false. *)
Definition otruthy (o : option string) : bool :=
  match o with None => false | Some s => truthy s end.

Definition upper_ascii (c : ascii) : ascii :=
  let n := nat_of_ascii c in
  if (Nat.leb 97 n && Nat.leb n 122)%bool then ascii_of_nat (n - 32) else c.

Definition lower_ascii (c : ascii) : ascii :=
  let n := nat_of_ascii c in
  if (Nat.leb 65 n && Nat.leb n 90)%bool then ascii_of_nat (n + 32) else c.

Fixpoint smap (f : ascii -> ascii) (s : string) : string :=
  match s with
  | EmptyString => EmptyString
  | String c s' => String (f c) (smap f s')
  end.

(** [str.upper] and [str.lower], with a string read as its bytes: the
    ASCII letters change case and every other byte stays.  No
    character beyond ASCII has "y", "e" or "s" as its lower case, so
    the comparison of the lowered reply with "y" and "yes" is Python's.
    Python's [upper] also maps the long s and the dotless i to "S" and
    "I"; the protocol it is applied to is one of the command line's
    choices "HTTPS" and "SSH". *)
Definition upper : string -> string := smap upper_ascii.
Definition lower : string -> string := smap lower_ascii.

(** [s.replace(old, new)] for a non-empty [old]: a left-to-right scan
    replacing every non-overlapping occurrence.  [skip] counts the
    characters of a matched occurrence still to be dropped. *)
Fixpoint replace_go (old new s : string) (skip : nat) : string :=
  match s with
  | EmptyString => EmptyString
  | String c s' =>
      match skip with
      | S k => replace_go old new s' k
      | O =>
          if String.prefix old s
          then new +:+ replace_go old new s' (Nat.pred (String.length old))
          else String c (replace_go old new s' O)
      end
  end.

Definition replace (s old new : string) : string := replace_go old new s O.

(** [old in s]. *)
Fixpoint occurs (old s : string) : bool :=
  match s with
  | EmptyString => String.prefix old EmptyString
  | String _ s' => (String.prefix old s || occurs old s')%bool
  end.

(** [", ".join(l)] and friends. *)
Fixpoint join (sep : string) (l : list string) : string :=
  match l with
  | [] => ""
  | [x] => x
  | x :: l' => x +:+ sep +:+ join sep l'
  end.

Definition str_bool (b : bool) : string := if b then "True" else "False".

End Py.

(** ** Paths

    A [pathlib.PurePosixPath] is its list of components.  [name] is the
    last component and [p / c] appends one. *)

Definition Path : Type := list string.

Definition path_name (p : Path) : string := List.last p "".

Definition path_join (p : Path) (c : string) : Path := p ++ [c].
Infix "//" := path_join (at level 40, left associativity).

Definition path_str (p : Path) : string := "/" +:+ Py.join "/" p.

(** [child_name p q] is [Some n] exactly when [q = p / n]. *)
Fixpoint child_name (p q : Path) : option string :=
  match p, q with
  | [], [n] => Some n
  | a :: p', b :: q' => if decide (a = b) then child_name p' q' else None
  | _, _ => None
  end.

(** Comparison of paths, as [PurePath.__lt__] does it: the component
    lists are compared lexicographically, components as strings. *)
Fixpoint parts_leb (p q : list string) : bool :=
  match p, q with
  | [], _ => true
  | _ :: _, [] => false
  | a :: p', b :: q' => if decide (a = b) then parts_leb p' q' else String.leb a b
  end.

Definition path_lt (p q : Path) : bool := negb (parts_leb q p).
Definition path_le (p q : Path) : Prop := parts_leb p q = true.

Global Instance path_le_dec : RelDecision path_le.
Proof. intros p q. unfold path_le. apply _. Defined.

(** [sorted(paths)]: a stable merge sort that takes the left element
    unless the right one is strictly smaller. *)
Definition sorted (l : list Path) : list Path := merge_sort path_le l.

(** ** The outside world *)

Inductive Kind := File | Dir.

Global Instance Kind_eq_dec : EqDecision Kind.
Proof. solve_decision. Defined.

(** What the hosting service stores for a repository; the last two
    fields are the clone URLs its handle exposes. *)
Record Repo := mkRepo {
  repo_name : string;
  repo_private : bool;
  repo_description : string;
  repo_auto_init : bool;
  repo_default_branch : string;
  ssh_url : string;
  clone_url : string
}.

Inductive Level := INFO | WARNING | ERROR.

(** How a subprocess ends: with an exit status, or not at all because
    it could not be started ([OSError] and its subclasses). *)
Inductive GitOutcome :=
| Exited (rc : Z)
| NotStarted (msg : string).

Inductive ApiCall :=
| GetUser
| GetRepo (name : string)
| CreateRepo (name : string) (private : bool) (description : string) (auto_init : bool)
| EditRepo (name : string) (default_branch : string).

Inductive Event :=
| ERun (args : list string) (cwd : Path) (check capture_output : bool)
       (overlay : list (string * string)) (out : GitOutcome)
| EWrite (p : Path) (text : string)
| EApi (c : ApiCall)
| ELog (lvl : Level) (msg : string).

(** One entry of [ProjectProcessor.summary]. *)
Definition Outcome : Type := string * bool * string.

Record State := mkState {
  st_fs : gmap Path Kind;
  st_account : gmap string Repo;
  st_events : list Event;
  st_summary : list Outcome
}.

(** Python exceptions the program can meet.  All but [SystemExit] derive
    from [Exception]. *)
Inductive Exn :=
| CalledProcessError (rc : Z) (cmd : list string)
| OSError (msg : string)
| NotADirectoryError (msg : string)
| RuntimeError (msg : string)
| GithubException (status : Z) (text : string)
| EOFError (msg : string)
| SystemExit (code : Z).

Definition is_Exception (e : Exn) : bool :=
  match e with SystemExit _ => false | _ => true end.

Definition is_CalledProcessError (e : Exn) : bool :=
  match e with CalledProcessError _ _ => true | _ => false end.

Definition is_GithubException (e : Exn) : bool :=
  match e with GithubException _ _ => true | _ => false end.

(** A refusal of the hosting service: an API error or a transport error. *)
Inductive Fault :=
| ApiError (status : Z) (text : string)
| Transport (msg : string).

Definition fault_exn (f : Fault) : Exn :=
  match f with
  | ApiError st t => GithubException st t
  | Transport m => OSError m
  end.

(** The choices of [--protocol]. *)
Inductive Protocol := HTTPS | SSH.

Definition protocol_str (p : Protocol) : string :=
  match p with HTTPS => "HTTPS" | SSH => "SSH" end.

(** The namespace [parse_args] returns. *)
Record Args := mkArgs {
  a_parent : string;
  a_token : option string;
  a_token_from_env : option string;
  a_name : option string;
  a_email : option string;
  a_protocol : Protocol;
  a_private : bool;
  a_default_branch : string;
  a_https_token : bool;
  a_create_branch : option string;
  a_rename_branch : option (string * string);
  a_switch_branch : option string;
  a_yes : bool
}.

(** The parts of the run that the source leaves to its libraries and to
    the machine it runs on. *)
Record Env := mkEnv {
  (** what [argparse] makes of the command line: the namespace, or the
      status it exits with (2 on a usage error, 0 after [--help]) *)
  argparse : list string -> Z + Args;
  (** what a subprocess run answers in a given state *)
  git : State -> list string -> Path -> list (string * string) -> GitOutcome;
  (** authentication of a token: the account's login, or a refusal *)
  authenticate : string -> Fault + string;
  (** whether the service refuses a repository creation or edit *)
  api_refuses : State -> ApiCall -> option Fault;
  (** the default branch the service gives a new repository *)
  service_default_branch : string;
  (** [str(e)] of a [subprocess.CalledProcessError] *)
  str_CalledProcessError : Z -> list string -> string;
  (** whether PyGithub could be imported *)
  pygithub_installed : bool;
  (** [os.environ] *)
  environ : gmap string string;
  (** [Path(s).expanduser().resolve()] *)
  resolve : string -> Path;
  (** what the user types at the hidden token prompt and at "Proceed?";
      [None] when the input is at its end, where [getpass] and [input]
      raise [EOFError] *)
  getpass_reply : option string;
  input_reply : option string;
  (** whether a successful [git init] leaves the repository in the
      [.git] of its working directory: it does unless the inherited
      environment redirects it (as [GIT_DIR] does) *)
  git_init_in_place : bool;
  (** the elapsed time as formatted by [:.1f] *)
  elapsed : string
}.

(** ** The monad: state, exceptions *)

Definition M (A : Type) : Type := State -> (Exn + A) * State.

Definition ret {A} (a : A) : M A := fun s => (inr a, s).

Definition bind {A B} (m : M A) (k : A -> M B) : M B :=
  fun s => match m s with
           | (inl e, s') => (inl e, s')
           | (inr a, s') => k a s'
           end.

Definition raise {A} (e : Exn) : M A := fun s => (inl e, s).

(** [try: body / except C as e: handler e], where [catches] tells
    which exceptions the clause [C] matches. *)
Definition try_except {A} (body : M A) (catches : Exn -> bool)
    (handler : Exn -> M A) : M A :=
  fun s => match body s with
           | (inl e, s') => if catches e then handler e s' else (inl e, s')
           | (inr a, s') => (inr a, s')
           end.

Declare Scope prog_scope.
Delimit Scope prog_scope with prog.
Notation "x <- m ;; k" := (bind m (fun x => k))
  (at level 100, m at next level, right associativity) : prog_scope.
Notation "m ;; k" := (bind m (fun _ => k))
  (at level 100, right associativity) : prog_scope.
Local Open Scope prog_scope.

Definition when (b : bool) (m : M unit) : M unit := if b then m else ret tt.

(** [for x in l: body x] *)
Fixpoint for_each {A} (l : list A) (body : A -> M unit) : M unit :=
  match l with
  | [] => ret tt
  | x :: l' => body x ;; for_each l' body
  end.

(** ** Primitives of the environment *)

Definition emit (e : Event) : M unit :=
  fun s => (inr tt, mkState (st_fs s) (st_account s) (st_events s ++ [e]) (st_summary s)).

(** [logger.info] / [warning] / [error].  The root logger is configured
    at level INFO, so [logger.debug] emits nothing and is left out.
    Colour prefixes are rendered as the empty string, as the fallback
    [Dummy] class does. *)
Definition log (lvl : Level) (msg : string) : M unit := emit (ELog lvl msg).

Definition set_fs (fs : gmap Path Kind) : M unit :=
  fun s => (inr tt, mkState fs (st_account s) (st_events s) (st_summary s)).

Definition set_account (a : gmap string Repo) : M unit :=
  fun s => (inr tt, mkState (st_fs s) a (st_events s) (st_summary s)).

Definition get_state : M State := fun s => (inr s, s).

(** [p.is_dir()] and [p.exists()]. *)
Definition fs_is_dir (fs : gmap Path Kind) (p : Path) : bool :=
  bool_decide (fs !! p = Some Dir).
Definition fs_exists (fs : gmap Path Kind) (p : Path) : bool :=
  bool_decide (is_Some (fs !! p)).

Definition is_dir (p : Path) : M bool := fun s => (inr (fs_is_dir (st_fs s) p), s).
Definition path_exists (p : Path) : M bool := fun s => (inr (fs_exists (st_fs s) p), s).

(** The entries of a directory, in the arbitrary order of the map. *)
Definition fs_children (fs : gmap Path Kind) (p : Path) : list Path :=
  filter (fun q => is_Some (child_name p q)) (map_to_list fs).*1.

(** [p.iterdir()], consumed at once; fails unless [p] is a directory. *)
Definition iterdir (p : Path) : M (list Path) :=
  fun s => if fs_is_dir (st_fs s) p then (inr (fs_children (st_fs s) p), s)
           else (inl (NotADirectoryError (path_str p)), s).

(** [p.write_text(text)]. *)
Definition write_text (p : Path) (text : string) : M unit :=
  fun s => (inr tt, mkState (<[p := File]> (st_fs s)) (st_account s)
                            (st_events s ++ [EWrite p text]) (st_summary s)).

(** What a finished [git] run leaves in the file system: a successful
    [git init] creates the [.git] directory of its working directory,
    unless the environment has the repository elsewhere. *)
Definition git_fs_effect (E : Env) (args : list string) (cwd : Path) (out : GitOutcome)
    (fs : gmap Path Kind) : gmap Path Kind :=
  match out with
  | Exited 0%Z =>
      if decide (args = ["git"; "init"])
      then (if fs_exists fs (cwd // ".git") || negb (git_init_in_place E) then fs
            else <[cwd // ".git" := Dir]> fs)
      else fs
  | _ => fs
  end.

Section Program.

Context (E : Env).

(** [subprocess.run(args, cwd=..., check=..., env=...)], where the
    environment is the inherited one with [overlay] on top: the oracle
    answers, the run is recorded, and with [check] a non-zero exit
    status raises [CalledProcessError]. *)
Definition subprocess_run (args : list string) (cwd : Path) (check capture_output : bool)
    (overlay : list (string * string)) : M Z :=
  fun s =>
    let out := git E s args cwd overlay in
    let s' := mkState (git_fs_effect E args cwd out (st_fs s)) (st_account s)
                      (st_events s ++ [ERun args cwd check capture_output overlay out])
                      (st_summary s) in
    match out with
    | NotStarted msg => (inl (OSError msg), s')
    | Exited rc =>
        if (check && negb (rc =? 0)%Z)%bool
        then (inl (CalledProcessError rc args), s')
        else (inr rc, s')
    end.

(** [str(e)] *)
Definition str_exn (e : Exn) : string :=
  match e with
  | CalledProcessError rc cmd => str_CalledProcessError E rc cmd
  | OSError m => m
  | NotADirectoryError m => m
  | RuntimeError m => m
  | GithubException _ t => t
  | EOFError m => m
  | SystemExit c => pretty c
  end.

(** *** Helpers *)

(** [env] is merged onto the inherited environment only when it is a
    non-empty dict; the [except CalledProcessError] clause re-raises
    (its [logger.debug] emits nothing). *)
Definition run_git_cmd (args : list string) (cwd : Path) (check capture_output : bool)
    (env : option (list (string * string))) : M Z :=
  let full_env := match env with Some (kv :: l) => kv :: l | _ => [] end in
  try_except (subprocess_run args cwd check capture_output full_env)
    is_CalledProcessError (fun e => raise e).

Definition get_subdirectories (parent : Path) : M (list Path) :=
  d <- is_dir parent ;;
  if negb d then
    raise (NotADirectoryError ("Parent path is not a directory: " +:+ path_str parent))
  else
    entries <- iterdir parent ;;
    s <- get_state ;;
    ret (List.filter
           (fun p => fs_is_dir (st_fs s) p && negb (Py.startswith (path_name p) "."))
           (sorted entries)).


Definition default_initial_branch_name (repo_name : string) : string := "main".

(** *** Hosting service *)

(** [user.get_repo(name)]: unless the request fails, it is answered
    from the account; a name the account does not hold is a 404. *)
Definition api_get_repo (name : string) : M Repo :=
  s <- get_state ;;
  emit (EApi (GetRepo name)) ;;
  match api_refuses E s (GetRepo name) with
  | Some f => raise (fault_exn f)
  | None =>
      match st_account s !! name with
      | Some r => ret r
      | None => raise (GithubException 404 "404 Not Found")
      end
  end.

(** [user.create_repo(name=..., private=..., description=...,
    auto_init=...)]: unless the service refuses, a repository with the
    requested settings is added to the account. *)
Definition api_create_repo (login name : string) (private : bool) (description : string)
    (auto_init : bool) : M Repo :=
  s <- get_state ;;
  emit (EApi (CreateRepo name private description auto_init)) ;;
  match api_refuses E s (CreateRepo name private description auto_init) with
  | Some f => raise (fault_exn f)
  | None =>
      match st_account s !! name with
      | Some _ => raise (GithubException 422 "422 name already exists on this account")
      | None =>
          let r := {| repo_name := name; repo_private := private;
                      repo_description := description; repo_auto_init := auto_init;
                      repo_default_branch := service_default_branch E;
                      ssh_url := "git@github.com:" +:+ login +:+ "/" +:+ name +:+ ".git";
                      clone_url := "https://github.com/" +:+ login +:+ "/" +:+ name +:+ ".git" |} in
          set_account (<[name := r]> (st_account s)) ;;
          ret r
      end
  end.

(** [repo.edit(name=name, default_branch=b)]: on success the stored
    repository and the handle both carry the new default branch. *)
Definition api_edit (repo : Repo) (name default_branch : string) : M Repo :=
  s <- get_state ;;
  emit (EApi (EditRepo name default_branch)) ;;
  match api_refuses E s (EditRepo name default_branch) with
  | Some f => raise (fault_exn f)
  | None =>
      let r := {| repo_name := name; repo_private := repo_private repo;
                  repo_description := repo_description repo;
                  repo_auto_init := repo_auto_init repo;
                  repo_default_branch := default_branch;
                  ssh_url := ssh_url repo; clone_url := clone_url repo |} in
      set_account (<[name := r]> (delete (repo_name repo) (st_account s))) ;;
      ret r
  end.

(** *** GitHub operations *)

Record GitHubManager := mkManager { username : string }.

Definition GitHubManager_init (token : string) : M GitHubManager :=
  if negb (pygithub_installed E) then
    raise (RuntimeError "PyGithub is required. Install with: pip install PyGithub")
  else
    try_except
      (emit (EApi GetUser) ;;
       match authenticate E token with
       | inl f => raise (fault_exn f)
       | inr login => ret (mkManager login)
       end)
      is_GithubException
      (fun e => raise (RuntimeError ("Failed to authenticate to GitHub: " +:+ str_exn e))).

Definition create_repo (self : GitHubManager) (name : string) (private : bool)
    (description : string) (auto_init : bool) (default_branch : option string) : M Repo :=
  try_except
    (found <- try_except
                (repo <- api_get_repo name ;;
                 log INFO ("Repo already exists on GitHub: " +:+ name) ;;
                 ret (Some repo))
                is_Exception (fun _ => ret None) ;;
     match found with
     | Some repo => ret repo
     | None =>
         repo <- match default_branch with
                 | Some b =>
                     if Py.truthy b then
                       repo <- api_create_repo (username self) name private description auto_init ;;
                       if negb (String.eqb b (repo_default_branch repo)) then
                         try_except (api_edit repo name b) is_Exception (fun _ => ret repo)
                       else ret repo
                     else api_create_repo (username self) name private description auto_init
                 | None => api_create_repo (username self) name private description auto_init
                 end ;;
         log INFO ("Created GitHub repo: " +:+ name) ;;
         ret repo
     end)
    is_GithubException
    (fun e => raise (RuntimeError ("GitHub create repo failed: " +:+ str_exn e))).


(** *** Core processing *)

(** The [do_branch_ops] dict: a key is absent ([None]) or maps to its
    value; the empty dict has no key. *)
Record BranchOps := mkBranchOps {
  bo_create : option string;
  bo_rename : option (string * string);
  bo_switch : option string
}.

Definition no_branch_ops : BranchOps := mkBranchOps None None None.

(** [not d] for the dict [d]. *)
Definition branch_ops_empty (d : BranchOps) : bool :=
  match bo_create d, bo_rename d, bo_switch d with
  | None, None, None => true
  | _, _, _ => false
  end.

Record ProjectProcessor := mkProcessor {
  parent_dir : Path;
  github_manager : option GitHubManager;
  token : option string;
  git_name : option string;
  git_email : option string;
  protocol : string;
  private : bool;
  default_branch : string;
  push_via_token_in_https : bool;
  do_branch_ops : BranchOps
}.

Definition summary_append (o : Outcome) : M unit :=
  fun s => (inr tt, mkState (st_fs s) (st_account s) (st_events s) (st_summary s ++ [o])).

Definition ProjectProcessor_init (parent_dir : Path) (github_manager : option GitHubManager)
    (token git_name git_email : option string) (protocol : string) (private : bool)
    (default_branch : string) (push_via_token_in_https : bool)
    (do_branch_ops : option BranchOps) : M ProjectProcessor :=
  (fun s => (inr tt, mkState (st_fs s) (st_account s) (st_events s) [])) ;;
  ret {| parent_dir := parent_dir; github_manager := github_manager; token := token;
         git_name := git_name; git_email := git_email; protocol := Py.upper protocol;
         private := private; default_branch := default_branch;
         push_via_token_in_https := push_via_token_in_https;
         do_branch_ops := default no_branch_ops do_branch_ops |}.

Definition nl : string := String (ascii_of_nat 10) EmptyString.

Definition _has_commits (cwd : Path) : M bool :=
  try_except
    (run_git_cmd ["git"; "rev-parse"; "--is-inside-work-tree"] cwd true true None ;;
     run_git_cmd ["git"; "rev-parse"; "HEAD"] cwd true true None ;;
     ret true)
    is_CalledProcessError (fun _ => ret false).

Definition _do_branch_operations (self : ProjectProcessor) (cwd : Path) : M unit :=
  if branch_ops_empty (do_branch_ops self) then ret tt else
  (* create branch *)
  match bo_create (do_branch_ops self) with
  | Some name =>
      when (Py.truthy name)
        (try_except
           (run_git_cmd ["git"; "checkout"; "-b"; name] cwd true false None ;;
            run_git_cmd ["git"; "push"; "-u"; "origin"; name] cwd true false None ;;
            log INFO ("Created and pushed branch " +:+ name))
           is_CalledProcessError
           (fun _ => log WARNING ("Could not create branch " +:+ name)))
  | None => ret tt
  end ;;
  (* rename branch *)
  match bo_rename (do_branch_ops self) with
  | Some (old, new) =>
      try_except
        (run_git_cmd ["git"; "branch"; "-m"; old; new] cwd true false None ;;
         run_git_cmd ["git"; "push"; "origin"; ":" +:+ old] cwd true false None ;;
         run_git_cmd ["git"; "push"; "-u"; "origin"; new] cwd true false None ;;
         log INFO ("Renamed branch " +:+ old +:+ " -> " +:+ new))
        is_CalledProcessError
        (fun _ => log WARNING ("Could not rename branch " +:+ old +:+ " -> " +:+ new))
  | None => ret tt
  end ;;
  (* switch branch *)
  match bo_switch (do_branch_ops self) with
  | Some name =>
      when (Py.truthy name)
        (try_except
           (run_git_cmd ["git"; "checkout"; name] cwd true false None ;;
            log INFO ("Switched to branch " +:+ name))
           is_CalledProcessError
           (fun _ => log WARNING ("Could not switch to branch " +:+ name)))
  | None => ret tt
  end.

Definition process_project (self : ProjectProcessor) (project_path : Path) : M unit :=
  log INFO (nl +:+ "=== Processing: " +:+ path_name project_path +:+ " ===") ;;
  let cwd := project_path in
  (* 1) check if .git exists *)
  let git_dir := cwd // ".git" in
  (git_dir_exists <- path_exists git_dir ;;
   if negb git_dir_exists then
     log INFO ".git not found -> initializing git repository" ;;
     run_git_cmd ["git"; "init"] cwd true false None ;;
     ret tt
   else
     log INFO ".git found -> skipping git init") ;;
  (* 2) set git config for this repo *)
  match git_name self with
  | Some n => if Py.truthy n
              then run_git_cmd ["git"; "config"; "user.name"; n] cwd true false None ;; ret tt
              else ret tt
  | None => ret tt
  end ;;
  match git_email self with
  | Some m => if Py.truthy m
              then run_git_cmd ["git"; "config"; "user.email"; m] cwd true false None ;; ret tt
              else ret tt
  | None => ret tt
  end ;;
  (* 3) prepare default branch name *)
  let branch_name := if Py.truthy (default_branch self) then default_branch self
                     else default_initial_branch_name (path_name project_path) in
  has_commits <- _has_commits cwd ;;
  (if negb has_commits then
     (* ensure there's something to commit; if directory empty, create a README *)
     (entries <- iterdir cwd ;;
      when (negb (existsb (fun _ => true) entries))
        (write_text (cwd // "README.md")
           ("# " +:+ path_name project_path +:+ nl +:+ nl +:+
            "Initial commit by git-automation CLI" +:+ nl))) ;;
     (* add all files *)
     try_except
       (run_git_cmd ["git"; "add"; "-A"] cwd true false None ;;
        run_git_cmd ["git"; "checkout"; "-b"; branch_name] cwd true false None ;;
        run_git_cmd ["git"; "commit"; "-m"; "Initial commit"] cwd true false None ;;
        ret tt)
       is_CalledProcessError
       (fun _ => log WARNING "Initial commit failed or nothing to commit; continuing")
   else
     try_except
       (run_git_cmd ["git"; "checkout"; branch_name] cwd true false None ;; ret tt)
       is_CalledProcessError
       (fun _ => run_git_cmd ["git"; "checkout"; "-b"; branch_name] cwd true false None ;;
                 ret tt)) ;;
  (* 4) create GitHub repo (if manager passed) *)
  match github_manager self with
  | Some gm =>
      repo <- create_repo gm (path_name project_path) (private self) "" false
                (Some branch_name) ;;
      let remote_url := if String.eqb (protocol self) "SSH" then ssh_url repo
                        else clone_url repo in
      let remote_url :=
        match token self with
        | Some tok =>
            if (String.eqb (protocol self) "HTTPS" && push_via_token_in_https self
                && Py.truthy tok)%bool
            then Py.replace remote_url "https://" ("https://" +:+ tok +:+ "@")
            else remote_url
        | None => remote_url
        end in
      try_except
        (run_git_cmd ["git"; "remote"; "remove"; "origin"] cwd false false None ;; ret tt)
        is_Exception (fun _ => ret tt) ;;
      run_git_cmd ["git"; "remote"; "add"; "origin"; remote_url] cwd true false None ;;
      log INFO ("Remote origin set to: " +:+ remote_url)
  | None => ret tt
  end ;;
  (* 5) push *)
  try_except
    (let env := if (String.eqb (protocol self) "HTTPS"
                    && negb (push_via_token_in_https self))%bool
                then Some [("GIT_TERMINAL_PROMPT", "0")] else None in
     run_git_cmd ["git"; "push"; "-u"; "origin"; branch_name] cwd true false env ;;
     log INFO ("Pushed " +:+ path_name project_path +:+ " to origin/" +:+ branch_name))
    is_CalledProcessError
    (fun e => raise (RuntimeError
                       ("Failed to push " +:+ path_name project_path +:+ ": " +:+ str_exn e))) ;;
  (* 6) optional branch operations *)
  _do_branch_operations self cwd ;;
  (* append success *)
  summary_append (path_name project_path, true, "OK") ;;
  log INFO ("=== Finished: " +:+ path_name project_path +:+ " ===" +:+ nl).

Definition report_summary (self : ProjectProcessor) : M unit :=
  s <- get_state ;;
  let ok := List.filter (fun o : Outcome => o.1.2) (st_summary s) in
  let fail := List.filter (fun o : Outcome => negb o.1.2) (st_summary s) in
  log INFO (nl +:+ "=== Summary ===") ;;
  log INFO ("Succeeded: " +:+ pretty (length ok)) ;;
  for_each ok (fun o : Outcome => log INFO ("  - " +:+ o.1.1 +:+ ": " +:+ o.2)) ;;
  log INFO ("Failed: " +:+ pretty (length fail)) ;;
  for_each fail (fun o : Outcome => log INFO ("  - " +:+ o.1.1 +:+ ": " +:+ o.2)).

(** The body of the [for project in projects] loop. *)
Definition process_guarded (self : ProjectProcessor) (project : Path) : M unit :=
  try_except (process_project self project) is_Exception
    (fun e =>
       log ERROR ("Failed processing " +:+ path_name project +:+ ": " +:+ str_exn e) ;;
       summary_append (path_name project, false, str_exn e)).

Definition process_all (self : ProjectProcessor) : M unit :=
  projects <- get_subdirectories (parent_dir self) ;;
  match projects with
  | [] => log INFO "No subdirectories found under the parent path."
  | _ :: _ =>
      log INFO ("Found " +:+ pretty (length projects) +:+
                " projects. Beginning processing in order.") ;;
      for_each projects (process_guarded self) ;;
      (* final report *)
      report_summary self
  end.


(** *** CLI *)

Definition sys_exit {A} (code : Z) : M A := raise (SystemExit code).

(** [getpass.getpass(prompt=...)]: what is typed, or [EOFError] when
    the input is at its end. *)
Definition getpass : M (option string) :=
  match getpass_reply E with
  | Some t => ret (Some t)
  | None => raise (EOFError "EOF when reading a line")
  end.

(** [input(prompt)], likewise. *)
Definition input : M string :=
  match input_reply E with
  | Some t => ret t
  | None => raise (EOFError "EOF when reading a line")
  end.

(** [parse_args()]: [argparse] returns the namespace or exits. *)
Definition parse_args (argv : list string) : M Args :=
  match argparse E argv with
  | inr args => ret args
  | inl code => sys_exit code
  end.

(** The "Obtain token" block of [main]: the value of [token] after it. *)
Definition obtain_token (args : Args) : M (option string) :=
  if Py.otruthy (a_token args) then ret (a_token args)
  else
    match a_token_from_env args with
    | Some var =>
        if Py.truthy var then
          let token := environ E !! var in
          if negb (Py.otruthy token) then
            log ERROR ("Environment variable " +:+ var +:+ " not set or empty") ;;
            sys_exit 1
          else ret token
        else
          if negb (a_yes args) then getpass
          else
            log ERROR "No token supplied and --yes set; cannot safely prompt for token." ;;
            sys_exit 1
    | None =>
        if negb (a_yes args) then getpass
        else
          log ERROR "No token supplied and --yes set; cannot safely prompt for token." ;;
          sys_exit 1
    end.

(** The body of [main()] once [parse_args()] has returned [args]. *)
Definition main (args : Args) : M unit :=
  let parent := resolve E (a_parent args) in
  d <- is_dir parent ;;
  when (negb d)
    (log ERROR ("Parent path is not a directory: " +:+ path_str parent) ;;
     sys_exit 1) ;;
  (* Obtain token *)
  token <- obtain_token args ;;
  match token with
  | Some tok =>
      if negb (Py.truthy tok) then
        log ERROR "A GitHub token is required to create repositories via the API." ;;
        sys_exit 1
      else
        (* Make GitHub manager *)
        gh <- try_except
                (gh <- GitHubManager_init tok ;;
                 log INFO ("Authenticated to GitHub as: " +:+ username gh) ;;
                 ret gh)
                is_Exception
                (fun e =>
                   log ERROR ("GitHub authentication failed: " +:+ str_exn e) ;;
                   sys_exit 1) ;;
        (* Prepare branch ops *)
        let branch_ops :=
          {| bo_create := if Py.otruthy (a_create_branch args) then a_create_branch args
                          else None;
             bo_rename := a_rename_branch args;
             bo_switch := if Py.otruthy (a_switch_branch args) then a_switch_branch args
                          else None |} in
        processor <- ProjectProcessor_init parent (Some gh) (Some tok) (a_name args)
                       (a_email args) (protocol_str (a_protocol args)) (a_private args)
                       (a_default_branch args) (a_https_token args) (Some branch_ops) ;;
        (* Confirmation *)
        log INFO ("Parent directory: " +:+ path_str parent) ;;
        log INFO "Number of projects: will scan all immediate subdirectories" ;;
        log INFO ("GitHub account: " +:+ username gh) ;;
        log INFO ("Protocol: " +:+ protocol_str (a_protocol args)) ;;
        log INFO ("Default branch: " +:+ a_default_branch args) ;;
        log INFO ("Create repos as private: " +:+ Py.str_bool (a_private args)) ;;
        when (negb (a_yes args))
          (cont <- input ;;
           when (negb (bool_decide (Py.lower cont ∈ ["y"; "yes"])))
             (log INFO "Aborted by user" ;;
              sys_exit 0)) ;;
        (* Run *)
        process_all processor ;;
        log INFO ("All done in " +:+ elapsed E +:+ "s")
  | None =>
      log ERROR "A GitHub token is required to create repositories via the API." ;;
      sys_exit 1
  end.

(** [main()] as the interpreter calls it, on the command line [argv]:
    its first statement is [args = parse_args()], the rest is [main]
    above. *)
Definition run_main (argv : list string) : M unit :=
  args <- parse_args argv ;;
  main args.

(** The exit status of the process when [main] ends with [r]. *)
Definition exit_status (r : Exn + unit) : Z :=
  match r with
  | inr _ => 0
  | inl (SystemExit code) => code
  | inl _ => 1
  end.

End Program.

(** * A concrete world

    A parent directory with an empty folder [alpha], a folder [beta]
    that is already a repository with one commit, a hidden folder and
    a file.  [git] behaves as the real one does here: in [alpha] there
    is no commit to resolve, nothing to commit and so nothing to push. *)
Module Example.

Definition parent : Path := ["home"; "projects"].
Definition alpha : Path := parent // "alpha".
Definition beta : Path := parent // "beta".

Definition fs0 : gmap Path Kind :=
  list_to_map [ (parent, Dir); (beta, Dir); (alpha, Dir); (beta // "x.txt", File);
                (beta // ".git", Dir); (parent // ".hidden", Dir);
                (parent // "notes.txt", File) ].

Definition s0 : State := mkState fs0 ∅ [] [].

Definition git0 (s : State) (args : list string) (cwd : Path) (ov : list (string * string))
    : GitOutcome :=
  if decide (cwd = alpha) then
    if decide (args = ["git"; "rev-parse"; "HEAD"]) then Exited 128
    else if decide (args = ["git"; "commit"; "-m"; "Initial commit"]) then Exited 1
    else if decide (args = ["git"; "push"; "-u"; "origin"; "main"]) then Exited 1
    else Exited 0
  else Exited 0.

(** [--parent ~/projects --token tok --name Me --yes] *)
Definition args0 : Args :=
  {| a_parent := "~/projects"; a_token := Some "tok"; a_token_from_env := None;
     a_name := Some "Me"; a_email := None; a_protocol := HTTPS; a_private := false;
     a_default_branch := "main"; a_https_token := false; a_create_branch := None;
     a_rename_branch := None; a_switch_branch := None; a_yes := true |}.

(** The same without [--yes]: the user answers "n" at the prompt. *)
Definition args_declined : Args :=
  {| a_parent := "~/projects"; a_token := Some "tok"; a_token_from_env := None;
     a_name := Some "Me"; a_email := None; a_protocol := HTTPS; a_private := false;
     a_default_branch := "main"; a_https_token := false; a_create_branch := None;
     a_rename_branch := None; a_switch_branch := None; a_yes := false |}.

(** [--create-branch dev --switch-branch main] on top of [args0]. *)
Definition args_two_ops : Args :=
  {| a_parent := "~/projects"; a_token := Some "tok"; a_token_from_env := None;
     a_name := Some "Me"; a_email := None; a_protocol := HTTPS; a_private := false;
     a_default_branch := "main"; a_https_token := false; a_create_branch := Some "dev";
     a_rename_branch := None; a_switch_branch := Some "main"; a_yes := true |}.

(** The command lines of these namespaces, and what [argparse] makes
    of them; any other command line is a usage error. *)
Definition argv0 : list string :=
  ["--parent"; "~/projects"; "--token"; "tok"; "--name"; "Me"; "--yes"].
Definition argv_declined : list string :=
  ["--parent"; "~/projects"; "--token"; "tok"; "--name"; "Me"].
Definition argv_two_ops : list string :=
  argv0 ++ ["--create-branch"; "dev"; "--switch-branch"; "main"].

Definition argparse0 (argv : list string) : Z + Args :=
  if decide (argv = argv0) then inr args0
  else if decide (argv = argv_declined) then inr args_declined
  else if decide (argv = argv_two_ops) then inr args_two_ops
  else inl 2%Z.

Definition E0 : Env :=
  {| git := git0; authenticate := fun _ => inr "octo"; api_refuses := fun _ _ => None;
     service_default_branch := "main";
     str_CalledProcessError := fun _ _ => "Command returned non-zero exit status";
     pygithub_installed := true; environ := ∅; resolve := fun _ => parent;
     getpass_reply := Some ""; input_reply := Some "n"; git_init_in_place := true;
     argparse := argparse0; elapsed := "0.1" |}.

(** The same environment with the standard input at its end. *)
Definition E_eof : Env :=
  {| git := git0; authenticate := fun _ => inr "octo"; api_refuses := fun _ _ => None;
     service_default_branch := "main";
     str_CalledProcessError := fun _ _ => "Command returned non-zero exit status";
     pygithub_installed := true; environ := ∅; resolve := fun _ => parent;
     getpass_reply := None; input_reply := None; git_init_in_place := true;
     argparse := argparse0; elapsed := "0.1" |}.

(** [E0] with the repository redirected out of the folder it is
    initialised from, as an inherited [GIT_DIR] does: a successful
    [git init] leaves no [.git] there. *)
Definition E_redirect : Env :=
  {| git := git0; authenticate := fun _ => inr "octo"; api_refuses := fun _ _ => None;
     service_default_branch := "main";
     str_CalledProcessError := fun _ _ => "Command returned non-zero exit status";
     pygithub_installed := true; environ := ∅; resolve := fun _ => parent;
     getpass_reply := Some ""; input_reply := Some "n"; git_init_in_place := false;
     argparse := argparse0; elapsed := "0.1" |}.




(** Only [beta] under the parent. *)
Definition s_beta : State :=
  mkState (list_to_map [ (parent, Dir); (beta, Dir); (beta // "x.txt", File);
                         (beta // ".git", Dir) ]) ∅ [] [].

Definition manager0 : GitHubManager := mkManager "octo".

(** The processor [main] builds from [args0]. *)
Definition self0 : ProjectProcessor :=
  {| parent_dir := parent; github_manager := Some manager0; token := Some "tok";
     git_name := Some "Me"; git_email := None; protocol := "HTTPS"; private := false;
     default_branch := "main"; push_via_token_in_https := false;
     do_branch_ops := no_branch_ops |}.

Definition self_embed : ProjectProcessor :=
  {| parent_dir := parent; github_manager := Some manager0; token := Some "tok";
     git_name := Some "Me"; git_email := None; protocol := "HTTPS"; private := false;
     default_branch := "main"; push_via_token_in_https := true;
     do_branch_ops := no_branch_ops |}.

Definition self_ssh : ProjectProcessor :=
  {| parent_dir := parent; github_manager := Some manager0; token := Some "tok";
     git_name := Some "Me"; git_email := None; protocol := "SSH"; private := false;
     default_branch := "main"; push_via_token_in_https := true;
     do_branch_ops := no_branch_ops |}.

Definition self_two_ops : ProjectProcessor :=
  {| parent_dir := parent; github_manager := Some manager0; token := Some "tok";
     git_name := Some "Me"; git_email := None; protocol := "HTTPS"; private := false;
     default_branch := "main"; push_via_token_in_https := false;
     do_branch_ops := mkBranchOps (Some "dev") None (Some "main") |}.

(** An account that already holds [beta]. *)
Definition repo_beta : Repo :=
  {| repo_name := "beta"; repo_private := true; repo_description := "kept";
     repo_auto_init := true; repo_default_branch := "trunk";
     ssh_url := "git@github.com:octo/beta.git";
     clone_url := "https://github.com/octo/beta.git" |}.

Definition s_hosted : State := mkState fs0 {[ "beta" := repo_beta ]} [] [].

End Example.

(** * Properties

    ** Paths and their order *)
Lemma child_name_spec p q n : child_name p q = Some n <-> q = p // n.
Proof.
  unfold path_join. revert q. induction p as [|a p IH]; intros q; simpl.
  - destruct q as [|b [|c q]]; simpl; split; intros H; try discriminate; congruence.
  - destruct q as [|b q]; [split; intros H; discriminate|].
    destruct (decide (a = b)) as [->|Hne].
    + rewrite IH. split; intros H; congruence.
    + split; intros H; [discriminate | congruence].
Qed.

Lemma path_name_join p n : path_name (p // n) = n.
Proof. unfold path_name, path_join. apply last_last. Qed.

Lemma string_leb_refl a : String.leb a a = true.
Proof. destruct (String.leb_total a a); assumption. Qed.

Lemma string_leb_trans a b c :
  String.leb a b = true -> String.leb b c = true -> String.leb a c = true.
Proof.
  intros H1 H2. apply Is_true_true. 
  apply (transitivity (R := String.le) (y := b)); apply Is_true_true; assumption.
Qed.

Lemma parts_leb_siblings p a b : parts_leb (p // a) (p // b) = String.leb a b.
Proof.
  unfold path_join. induction p as [|c p IH]; simpl.
  - destruct (decide (a = b)) as [->|]; [by rewrite string_leb_refl | done].
  - by rewrite decide_True.
Qed.

Global Instance path_le_refl : Reflexive path_le.
Proof.
  intros p. unfold path_le. induction p as [|a p IH]; simpl; [done|]. by rewrite decide_True.
Qed.

Global Instance path_le_total : Total path_le.
Proof.
  intros p. unfold path_le. induction p as [|a p IH]; intros [|b q]; simpl; auto.
  destruct (decide (a = b)) as [->|Hne].
  - rewrite decide_True by done. apply IH.
  - rewrite decide_False by congruence. apply String.leb_total.
Qed.

Global Instance path_le_trans : Transitive path_le.
Proof.
  intros p. unfold path_le. induction p as [|a p IH]; intros [|b q] [|c r]; simpl; auto; try done.
  destruct (decide (a = b)) as [->|Hab].
  - destruct (decide (b = c)) as [->|Hbc]; [apply IH | auto].
  - destruct (decide (b = c)) as [->|Hbc].
    + rewrite decide_False by done. auto.
    + intros H1 H2. destruct (decide (a = c)) as [->|Hac].
      * exfalso. apply Hab. by apply String.leb_antisym.
      * eapply string_leb_trans; eauto.
Qed.

Global Instance path_le_antisym : AntiSymm (=) path_le.
Proof.
  intros p. unfold path_le. induction p as [|a p IH]; intros [|b q]; simpl; try done.
  destruct (decide (a = b)) as [->|Hab].
  - rewrite decide_True by done. intros. f_equal. by apply IH.
  - rewrite decide_False by congruence. intros H1 H2. exfalso. apply Hab. by apply String.leb_antisym.
Qed.

(** ** The directory listing *)
Lemma fs_children_spec (fs : gmap Path Kind) p q :
  q ∈ fs_children fs p <-> is_Some (fs !! q) /\ exists n, q = p // n.
Proof.
  unfold fs_children. rewrite list_elem_of_filter, list_elem_of_fmap. split.
  - intros [[n Hn] [[q' k] [-> Hin]]]. apply elem_of_map_to_list in Hin. simpl in *.
    split; [eauto|]. exists n. by apply child_name_spec.
  - intros [[k Hk] [n ->]]. split.
    + exists n. by apply child_name_spec.
    + exists (p // n, k). split; [done|]. by apply elem_of_map_to_list.
Qed.

Lemma fs_children_NoDup (fs : gmap Path Kind) p : NoDup (fs_children fs p).
Proof. unfold fs_children. apply NoDup_filter, NoDup_fst_map_to_list. Qed.

Lemma StronglySorted_list_filter {A} (R : relation A) (f : A -> bool) l :
  StronglySorted R l -> StronglySorted R (List.filter f l).
Proof.
  induction 1 as [|a l Hl IH Ha]; simpl; [constructor|].
  destruct (f a); [|done]. constructor; [done|].
  rewrite Forall_forall in Ha |- *. intros x Hx. apply Ha.
  rewrite list_elem_of_In in Hx |- *. apply filter_In in Hx. tauto.
Qed.

Lemma StronglySorted_impl_on {A} (R1 R2 : relation A) (P : A -> Prop) l :
  (forall x y, P x -> P y -> R1 x y -> R2 x y) ->
  Forall P l -> StronglySorted R1 l -> StronglySorted R2 l.
Proof.
  intros HR HP HS. induction HS as [|a l Hl IH Ha]; [constructor|].
  apply Forall_cons in HP as [Pa HP]. constructor; [auto|].
  rewrite Forall_forall in Ha, HP |- *. intros x Hx. apply HR; auto.
Qed.

(** The listing kept by the scanner. *)
Definition visible_dir (fs : gmap Path Kind) (p : Path) : bool :=
  fs_is_dir fs p && negb (Py.startswith (path_name p) ".").

Definition name_le (p q : Path) : Prop := String.leb (path_name p) (path_name q) = true.

Lemma scan_listing (fs : gmap Path Kind) parent :
  let l := List.filter (visible_dir fs) (sorted (fs_children fs parent)) in
  (forall q, q ∈ l <->
     exists n, q = parent // n /\ fs !! q = Some Dir /\ Py.startswith n "." = false) /\
  NoDup l /\ StronglySorted name_le l.
Proof.
  intros l. subst l.
  assert (Hperm : sorted (fs_children fs parent) ≡ₚ fs_children fs parent)
    by apply merge_sort_Permutation.
  split; [|split].
  - intros q. rewrite list_elem_of_In, filter_In, <- list_elem_of_In, Hperm, fs_children_spec.
    unfold visible_dir, fs_is_dir. rewrite andb_true_iff, bool_decide_eq_true, negb_true_iff.
    split.
    + intros [[_ [n ->]] [Hd Hn]]. exists n. by rewrite path_name_join in Hn.
    + intros [n [-> [Hd Hn]]]. rewrite path_name_join. eauto.
  - apply NoDup_ListNoDup, List.NoDup_filter, NoDup_ListNoDup. rewrite Hperm.
    apply fs_children_NoDup.
  - apply (StronglySorted_impl_on path_le name_le (fun q => exists n, q = parent // n)).
    + intros x y [n ->] [m ->]. unfold path_le, name_le.
      by rewrite parts_leb_siblings, !path_name_join.
    + rewrite Forall_forall. intros q Hq.
      rewrite list_elem_of_In in Hq. apply filter_In in Hq as [Hq _].
      rewrite <- list_elem_of_In, Hperm, fs_children_spec in Hq. tauto.
    + apply StronglySorted_list_filter, StronglySorted_merge_sort; apply _.
Qed.

(** ** Reasoning about programs *)

(** [wp m s Q]: running [m] from [s] ends in a result and a state that
    satisfy [Q].  Every program is a total function, so this is total
    correctness. *)
Definition wp {A} (m : M A) (s : State) (Q : Exn + A -> State -> Prop) : Prop :=
  Q (m s).1 (m s).2.

Global Arguments wp : simpl never.

Lemma wp_ret {A} (a : A) s (Q : Exn + A -> State -> Prop) : Q (inr a) s -> wp (ret a) s Q.
Proof. done. Qed.

Lemma wp_raise {A} e s (Q : Exn + A -> State -> Prop) : Q (inl e) s -> wp (raise e) s Q.
Proof. done. Qed.

Lemma wp_bind {A B} (m : M A) (k : A -> M B) s Q :
  wp m s (fun r s1 => match r with
                      | inl e => Q (inl e) s1
                      | inr a => wp (k a) s1 Q
                      end) ->
  wp (bind m k) s Q.
Proof. unfold wp, bind. by destruct (m s) as [[e|a] s1]. Qed.

Lemma wp_try {A} (body : M A) (catches : Exn -> bool) (handler : Exn -> M A) s Q :
  wp body s (fun r s1 => match r with
                         | inl e => if catches e then wp (handler e) s1 Q else Q (inl e) s1
                         | inr a => Q (inr a) s1
                         end) ->
  wp (try_except body catches handler) s Q.
Proof.
  unfold wp, try_except. destruct (body s) as [[e|a] s1]; simpl; [|done].
  by destruct (catches e).
Qed.

Lemma wp_mono {A} (m : M A) s (Q Q' : Exn + A -> State -> Prop) :
  wp m s Q -> (forall r s', Q r s' -> Q' r s') -> wp m s Q'.
Proof. unfold wp. auto. Qed.

Definition add_event (s : State) (e : Event) : State :=
  mkState (st_fs s) (st_account s) (st_events s ++ [e]) (st_summary s).

Lemma wp_emit e s (Q : Exn + unit -> State -> Prop) :
  Q (inr tt) (add_event s e) -> wp (emit e) s Q.
Proof. done. Qed.

Lemma wp_log lvl msg s (Q : Exn + unit -> State -> Prop) :
  Q (inr tt) (add_event s (ELog lvl msg)) -> wp (log lvl msg) s Q.
Proof. done. Qed.

Lemma wp_summary_append o s (Q : Exn + unit -> State -> Prop) :
  Q (inr tt) (mkState (st_fs s) (st_account s) (st_events s) (st_summary s ++ [o])) ->
  wp (summary_append o) s Q.
Proof. done. Qed.

(** [keeps T X m]: [m] moves every state along the relation [T] and
    raises only exceptions in [X]. *)
Definition keeps {A} (T : relation State) (X : Exn -> Prop) (m : M A) : Prop :=
  forall s, T s (m s).2 /\ forall e, (m s).1 = inl e -> X e.

Section Keeps.
Context (T : relation State) `{!PreOrder T} (X : Exn -> Prop).

Lemma keeps_ret {A} (a : A) : keeps T X (ret a).
Proof. intros s. split; [reflexivity | discriminate]. Qed.

Lemma keeps_raise {A} e : X e -> keeps T X (@raise A e).
Proof. intros He s. split; [reflexivity|]. simpl. congruence. Qed.

Lemma keeps_bind {A B} (m : M A) (k : A -> M B) :
  keeps T X m -> (forall a, keeps T X (k a)) -> keeps T X (bind m k).
Proof.
  intros Hm Hk s. unfold bind. specialize (Hm s).
  destruct (m s) as [[e|a] s1]; simpl in *.
  { destruct Hm as [Hm He]. split; [done|]. intros e' [= <-]. by apply He. }
  destruct Hm as [Hm _]. specialize (Hk a s1). split; [|tauto].
  etransitivity; [exact Hm | tauto].
Qed.

Lemma keeps_try {A} (body : M A) (catches : Exn -> bool) (handler : Exn -> M A)
    (Xb : Exn -> Prop) :
  keeps T Xb body ->
  (forall e, Xb e -> catches e = false -> X e) ->
  (forall e, Xb e -> catches e = true -> keeps T X (handler e)) ->
  keeps T X (try_except body catches handler).
Proof.
  intros Hb Hx Hh s. unfold try_except. specialize (Hb s).
  destruct (body s) as [[e|a] s1]; simpl in *; [|split; [tauto | discriminate]].
  destruct Hb as [Hb He]. destruct (catches e) eqn:Hc.
  - specialize (Hh e (He e eq_refl) Hc s1). split; [|tauto].
    etransitivity; [exact Hb | tauto].
  - split; [done|]. intros e' [= <-]. auto.
Qed.

Lemma keeps_when b (m : M unit) : keeps T X m -> keeps T X (when b m).
Proof. destruct b; [done|]. intros _. apply keeps_ret. Qed.

Lemma keeps_for_each {A} (l : list A) (body : A -> M unit) :
  (forall x, keeps T X (body x)) -> keeps T X (for_each l body).
Proof.
  intros Hb. induction l as [|x l IH]; simpl; [apply keeps_ret|].
  apply keeps_bind; auto.
Qed.

Lemma keeps_weaken {A} (X' : Exn -> Prop) (m : M A) :
  keeps T X' m -> (forall e, X' e -> X e) -> keeps T X m.
Proof. intros Hm HX s. destruct (Hm s). split; auto. Qed.

(** Sequencing a [keeps] step inside a [wp] walk. *)
Lemma wp_keeps {A B} (m : M A) (k : A -> M B) s Q :
  keeps T X m ->
  (forall a s1, T s s1 -> (m s) = (inr a, s1) -> wp (k a) s1 Q) ->
  (forall e s1, T s s1 -> X e -> Q (inl e) s1) ->
  wp (bind m k) s Q.
Proof.
  intros Hm Hk He. apply wp_bind. unfold wp. specialize (Hm s).
  destruct (m s) as [[e|a] s1] eqn:Hs; simpl in *.
  - apply He; [tauto|]. by apply Hm.
  - apply Hk; [tauto | done].
Qed.
End Keeps.

(** The relations the walks use: new events all satisfy [phi]; file
    system, account and summary move along [R_fs], [R_acc], [R_sum]. *)
Record Moves := mkMoves {
  mv_event : Event -> Prop;
  mv_fs : relation (gmap Path Kind);
  mv_account : relation (gmap string Repo);
  mv_summary : relation (list Outcome)
}.

Definition moves (mv : Moves) : relation State := fun s s' =>
  (exists l, st_events s' = st_events s ++ l /\ Forall (mv_event mv) l) /\
  mv_fs mv (st_fs s) (st_fs s') /\
  mv_account mv (st_account s) (st_account s') /\
  mv_summary mv (st_summary s) (st_summary s').

Class MovesOK (mv : Moves) := {
  mv_fs_pre :: PreOrder (mv_fs mv);
  mv_account_pre :: PreOrder (mv_account mv);
  mv_summary_pre :: PreOrder (mv_summary mv)
}.

Global Instance moves_pre mv `{!MovesOK mv} : PreOrder (moves mv).
Proof.
  split.
  - intros s. repeat split; try reflexivity. exists []. by rewrite app_nil_r.
  - intros s1 s2 s3 [[l1 [E1 F1]] [A1 [B1 C1]]] [[l2 [E2 F2]] [A2 [B2 C2]]].
    repeat split; try (etransitivity; eassumption).
    exists (l1 ++ l2). rewrite E2, E1, app_assoc. split; [done|]. by apply Forall_app.
Qed.

(** File systems only gain entries. *)
Definition fs_grows : relation (gmap Path Kind) :=
  fun f f' => forall p, is_Some (f !! p) -> is_Some (f' !! p).

Global Instance fs_grows_pre : PreOrder fs_grows.
Proof. split; [by intros f p | intros f g h H1 H2 p Hp; auto]. Qed.

Definition any_rel {A} : relation A := fun _ _ => True.
Global Instance any_rel_pre {A} : PreOrder (@any_rel A).
Proof. by split. Qed.

Lemma git_fs_effect_grows E args cwd out fs : fs_grows fs (git_fs_effect E args cwd out fs).
Proof.
  unfold git_fs_effect. destruct out as [[| |]|]; try reflexivity.
  destruct (decide _); [|reflexivity].
  destruct (fs_exists _ _ || negb _)%bool; [reflexivity|].
  intros p Hp. destruct (decide (cwd // ".git" = p)) as [<-|Hne].
  - rewrite lookup_insert_eq. eauto.
  - by rewrite lookup_insert_ne.
Qed.

Section Primitives.
Context (E : Env) (mv : Moves) `{!MovesOK mv} (X : Exn -> Prop).

Lemma keeps_emit e : mv_event mv e -> keeps (moves mv) X (emit e).
Proof.
  intros He s. split; [|discriminate]. simpl. repeat split; try reflexivity.
  exists [e]. split; [done|]. by constructor.
Qed.

Lemma keeps_log lvl msg : mv_event mv (ELog lvl msg) -> keeps (moves mv) X (log lvl msg).
Proof. apply keeps_emit. Qed.

Lemma keeps_get_state : keeps (moves mv) X get_state.
Proof. intros s. split; [reflexivity | discriminate]. Qed.

Lemma keeps_is_dir p : keeps (moves mv) X (is_dir p).
Proof. intros s. split; [reflexivity | discriminate]. Qed.

Lemma keeps_path_exists p : keeps (moves mv) X (path_exists p).
Proof. intros s. split; [reflexivity | discriminate]. Qed.

Lemma keeps_iterdir p : (forall m, X (NotADirectoryError m)) -> keeps (moves mv) X (iterdir p).
Proof.
  intros HX s. unfold iterdir. destruct (fs_is_dir _ _); simpl.
  - split; [reflexivity | discriminate].
  - split; [reflexivity |]. intros e [= <-]. apply HX.
Qed.

Lemma keeps_summary_append o :
  (forall l, mv_summary mv l (l ++ [o])) -> keeps (moves mv) X (summary_append o).
Proof.
  intros Ho s. split; [|discriminate]. simpl. repeat split; try reflexivity; [|apply Ho].
  exists []. by rewrite app_nil_r.
Qed.

Lemma keeps_write_text p text :
  mv_event mv (EWrite p text) -> (forall fs, mv_fs mv fs (<[p := File]> fs)) ->
  keeps (moves mv) X (write_text p text).
Proof.
  intros He Hf s. split; [|discriminate]. simpl. repeat split; try reflexivity; [|apply Hf].
  exists [EWrite p text]. split; [done|]. by constructor.
Qed.

Lemma keeps_subprocess_run args cwd check cap ov :
  (forall out, mv_event mv (ERun args cwd check cap ov out)) ->
  (forall out fs, mv_fs mv fs (git_fs_effect E args cwd out fs)) ->
  (forall m, X (OSError m)) ->
  (check = true -> forall rc, rc <> 0%Z -> X (CalledProcessError rc args)) ->
  keeps (moves mv) X (subprocess_run E args cwd check cap ov).
Proof.
  intros He Hf Hos Hcp s. unfold subprocess_run.
  assert (HT : moves mv s
    (mkState (git_fs_effect E args cwd (git E s args cwd ov) (st_fs s)) (st_account s)
       (st_events s ++ [ERun args cwd check cap ov (git E s args cwd ov)]) (st_summary s))).
  { repeat split; simpl; try reflexivity; [|apply Hf]. eexists. split; [done|]. by constructor. }
  destruct (git E s args cwd ov) as [rc|m]; simpl.
  - destruct (check && negb (rc =? 0)%Z)%bool eqn:Hc; simpl.
    + split; [done|]. intros e [= <-]. apply andb_true_iff in Hc as [-> Hrc].
      apply Hcp; [done|]. apply negb_true_iff, Z.eqb_neq in Hrc. done.
    + split; [done | discriminate].
  - split; [done|]. intros e [= <-]. apply Hos.
Qed.

Lemma keeps_run_git_cmd args cwd check cap env :
  (forall ov out, mv_event mv (ERun args cwd check cap ov out)) ->
  (forall out fs, mv_fs mv fs (git_fs_effect E args cwd out fs)) ->
  (forall m, X (OSError m)) ->
  (check = true -> forall rc, rc <> 0%Z -> X (CalledProcessError rc args)) ->
  keeps (moves mv) X (run_git_cmd E args cwd check cap env).
Proof.
  intros He Hf Hos Hcp. unfold run_git_cmd.
  eapply keeps_try with (Xb := X).
  - apply _.
  - apply keeps_subprocess_run; auto.
  - auto.
  - intros e Hx _. apply keeps_raise; [apply _ | exact Hx].
Qed.
End Primitives.

Section ApiPrimitives.
Context (E : Env) (mv : Moves) `{!MovesOK mv} (X : Exn -> Prop).

Lemma keeps_api_get_repo name :
  mv_event mv (EApi (GetRepo name)) ->
  (forall f, X (fault_exn f)) -> (forall st t, X (GithubException st t)) ->
  keeps (moves mv) X (api_get_repo E name).
Proof.
  intros He Hf HX s. unfold api_get_repo, bind, emit, get_state. simpl.
  assert (HT : moves mv s (mkState (st_fs s) (st_account s)
                             (st_events s ++ [EApi (GetRepo name)]) (st_summary s))).
  { repeat split; simpl; try reflexivity. eexists. split; [done|]. by constructor. }
  destruct (api_refuses E s _) as [f|]; simpl.
  { split; [done|]. intros e [= <-]. apply Hf. }
  destruct (st_account s !! name); simpl; (split; [done|]); [discriminate|].
  intros e [= <-]. apply HX.
Qed.

Lemma keeps_api_create_repo login name private description auto_init :
  mv_event mv (EApi (CreateRepo name private description auto_init)) ->
  (forall a r, mv_account mv a (<[name := r]> a)) ->
  (forall f, X (fault_exn f)) -> (forall st t, X (GithubException st t)) ->
  keeps (moves mv) X (api_create_repo E login name private description auto_init).
Proof.
  intros He Ha Hf HX s. unfold api_create_repo, bind, emit, get_state, set_account. simpl.
  assert (HT : forall a, mv_account mv (st_account s) a ->
            moves mv s (mkState (st_fs s) a
              (st_events s ++ [EApi (CreateRepo name private description auto_init)])
              (st_summary s))).
  { intros a Hacc. repeat split; simpl; try reflexivity; [|done].
    eexists. split; [done|]. by constructor. }
  destruct (api_refuses E s _) as [f|]; simpl.
  { split; [apply HT; reflexivity|]. intros e [= <-]. apply Hf. }
  destruct (st_account s !! name); simpl.
  { split; [apply HT; reflexivity|]. intros e [= <-]. apply HX. }
  split; [apply HT, Ha | discriminate].
Qed.

Lemma keeps_api_edit repo name b :
  mv_event mv (EApi (EditRepo name b)) ->
  (forall a a', mv_account mv a a') ->
  (forall f, X (fault_exn f)) ->
  keeps (moves mv) X (api_edit E repo name b).
Proof.
  intros He Ha Hf s. unfold api_edit, bind, emit, get_state, set_account. simpl.
  assert (HT : forall a, moves mv s (mkState (st_fs s) a
              (st_events s ++ [EApi (EditRepo name b)]) (st_summary s))).
  { intros a. repeat split; simpl; try reflexivity; [|apply Ha].
    eexists. split; [done|]. by constructor. }
  destruct (api_refuses E s _) as [f|]; simpl.
  { split; [apply HT|]. intros e [= <-]. apply Hf. }
  split; [apply HT | discriminate].
Qed.
End ApiPrimitives.

(** Decomposition of a program into [keeps] steps. *)
Ltac keeps_side :=
  try apply _; simpl; intros;
  try solve [ done | reflexivity | discriminate | congruence | exact I
            | by destruct_and?; eauto
            | match goal with f : Fault |- _ => by destruct f end ].

Ltac keeps_step :=
  lazymatch goal with
  | |- keeps _ _ (bind _ _) => apply keeps_bind; [apply _ | | intros ?]
  | |- keeps _ _ (ret _) => apply keeps_ret; apply _
  | |- keeps _ _ (raise _) => apply keeps_raise; [apply _ | keeps_side]
  | |- keeps _ _ (sys_exit _) => apply keeps_raise; [apply _ | keeps_side]
  | |- keeps _ _ (when _ _) => apply keeps_when; [apply _ | ]
  | |- keeps _ _ (for_each _ _) => apply keeps_for_each; [apply _ | intros ?]
  | |- keeps _ ?X (try_except _ _ _) =>
      apply (keeps_try _ _ _ _ _ X); [ | keeps_side | intros ? ? ?]
  | |- keeps _ _ (log _ _) => apply keeps_log; [apply _ | keeps_side]
  | |- keeps _ _ (emit _) => apply keeps_emit; [apply _ | keeps_side]
  | |- keeps _ _ get_state => apply keeps_get_state; apply _
  | |- keeps _ _ (is_dir _) => apply keeps_is_dir; apply _
  | |- keeps _ _ (path_exists _) => apply keeps_path_exists; apply _
  | |- keeps _ _ (iterdir _) => apply keeps_iterdir; [apply _ | keeps_side]
  | |- keeps _ _ (summary_append _) => apply keeps_summary_append; [apply _ | keeps_side]
  | |- keeps _ _ (write_text _ _) => apply keeps_write_text; [apply _ | keeps_side | keeps_side]
  | |- keeps _ _ (run_git_cmd _ _ _ _ _ _) =>
      apply keeps_run_git_cmd; [apply _ | keeps_side | keeps_side | keeps_side | keeps_side]
  | |- keeps _ _ (api_get_repo _ _) =>
      apply keeps_api_get_repo; [apply _ | keeps_side | keeps_side | keeps_side]
  | |- keeps _ _ (api_create_repo _ _ _ _ _ _) =>
      apply keeps_api_create_repo; [apply _ | keeps_side | keeps_side | keeps_side | keeps_side]
  | |- keeps _ _ (api_edit _ _ _ _) =>
      apply keeps_api_edit; [apply _ | keeps_side | keeps_side | keeps_side]
  | |- keeps _ _ (match ?x with _ => _ end) => destruct x eqn:?
  | |- keeps _ _ (let _ := _ in _) => cbv zeta
  end.

Ltac keeps_auto :=
  unfold _has_commits, _do_branch_operations, create_repo, report_summary;
  cbv zeta; repeat keeps_step.

(** ** The project loop *)
(** The first record a project's processing logs. *)
Definition start_line (p : Path) : string :=
  nl +:+ "=== Processing: " +:+ path_name p +:+ " ===".

Definition starts_project (e : Event) : bool :=
  match e with
  | ELog INFO m => String.prefix (nl +:+ "=== Processing:") m
  | _ => false
  end.

(** The events a run added to those of the state it started from. *)
Definition new_events (s s' : State) : list Event :=
  drop (length (st_events s)) (st_events s').

Lemma new_events_app s s' l : st_events s' = st_events s ++ l -> new_events s s' = l.
Proof. intros H. unfold new_events. by rewrite H, drop_app_length. Qed.

(** Inside one project: nothing starts another project and the summary
    is left alone. *)
Definition mv_inside : Moves :=
  {| mv_event := fun e => starts_project e = false;
     mv_fs := any_rel; mv_account := any_rel; mv_summary := eq |}.

Global Instance mv_inside_ok : MovesOK mv_inside.
Proof. split; simpl; apply _. Qed.

Ltac walk mv X :=
  eapply (wp_keeps (moves mv) X);
  [ keeps_auto | intros ? ? Hstep Hrun | intros ? ? Hstep Hexn ].

Ltac chain :=
  match goal with
  | HT : moves ?mv ?a ?b, H : moves ?mv ?b ?c |- _ =>
      let H' := fresh "HT" in
      pose proof (transitivity HT H) as H'; clear HT H
  end.

Ltac frame_fails :=
  chain;
  match goal with
  | HT : moves _ _ _ |- _ =>
      let l := fresh "l" in let Hl := fresh "Hl" in let Hs := fresh "Hs" in
      destruct HT as [[l [-> Hl]] [_ [_ Hs]]]; simpl in *;
      (split; [exists l; by rewrite <- app_assoc | by rewrite <- Hs])
  end.

Section Isolation.
Context (E : Env) (self : ProjectProcessor).

Lemma process_project_frame p s :
  wp (process_project E self p) s (fun r s' =>
    (exists l, st_events s' = st_events s ++ ELog INFO (start_line p) :: l /\
               Forall (fun e => starts_project e = false) l) /\
    match r with
    | inr _ => st_summary s' = st_summary s ++ [(path_name p, true, "OK")]
    | inl e => is_Exception e = true /\ st_summary s' = st_summary s
    end).
Proof.
  unfold process_project. cbv zeta. apply wp_bind, wp_log.
  set (s1 := add_event s _).
  assert (HT : moves mv_inside s1 s1) by reflexivity.
  revert HT. generalize s1 at 2 3. intros s2 HT.
  walk mv_inside (fun e => is_Exception e = true); [chain; clear Hrun | frame_fails].
  walk mv_inside (fun e => is_Exception e = true); [chain; clear Hrun | frame_fails].
  walk mv_inside (fun e => is_Exception e = true); [chain; clear Hrun | frame_fails].
  walk mv_inside (fun e => is_Exception e = true); [chain; clear Hrun | frame_fails].
  walk mv_inside (fun e => is_Exception e = true); [chain; clear Hrun | frame_fails].
  walk mv_inside (fun e => is_Exception e = true); [chain; clear Hrun | frame_fails].
  walk mv_inside (fun e => is_Exception e = true); [chain; clear Hrun | frame_fails].
  walk mv_inside (fun e => is_Exception e = true); [chain; clear Hrun | frame_fails].
  apply wp_bind, wp_summary_append, wp_log.
  match goal with HT : moves _ _ _ |- _ => destruct HT as [[l [-> Hl]] [_ [_ Hs]]] end.
  simpl in *. split.
  - exists (l ++ [ELog INFO ("=== Finished: " +:+ path_name p +:+ " ===" +:+ nl)]).
    rewrite <- !app_assoc. split; [done|]. apply Forall_app. split; [done|]. by constructor.
  - by rewrite <- Hs.
Qed.

(** One turn of the loop never raises, logs the project's start
    exactly once, and appends exactly one outcome. *)
Lemma process_guarded_spec p s :
  exists s' l o,
    process_guarded E self p s = (inr tt, s') /\
    st_events s' = st_events s ++ ELog INFO (start_line p) :: l /\
    Forall (fun e => starts_project e = false) l /\
    st_summary s' = st_summary s ++ [o] /\
    match (process_project E self p s).1 with
    | inr _ => o = (path_name p, true, "OK")
    | inl e => is_Exception e = true /\ o = (path_name p, false, str_exn E e)
    end.
Proof.
  pose proof (process_project_frame p s) as H. unfold wp in H.
  unfold process_guarded, try_except.
  destruct (process_project E self p s) as [[e|[]] s1]; simpl in *.
  - destruct H as [[l [Hev Hl]] [He Hs]]. rewrite He.
    unfold bind, log, emit, summary_append. simpl.
    eexists _, _, _. split; [reflexivity|]. simpl. rewrite Hev, Hs, <- app_assoc. simpl.
    split; [reflexivity|]. split; [|done].
    apply Forall_app. split; [done|]. by constructor.
  - destruct H as [[l [Hev Hl]] Hs]. eexists _, _, _. split; [reflexivity|]. eauto.
Qed.

Definition loop (projects : list Path) : M unit :=
  for_each projects (process_guarded E self).

(** What the summary may hold for a project. *)
Definition outcome_of (p : Path) (o : Outcome) : Prop :=
  o = (path_name p, true, "OK") \/ exists reason, o = (path_name p, false, reason).

Lemma filter_not_start l :
  Forall (fun e => starts_project e = false) l -> List.filter starts_project l = [].
Proof.
  induction 1 as [|e l He _ IH]; simpl; [done|]. by rewrite He.
Qed.

Lemma starts_project_start_line p : starts_project (ELog INFO (start_line p)) = true.
Proof. reflexivity. Qed.

Lemma loop_spec projects s :
  exists s' l entries,
    loop projects s = (inr tt, s') /\
    st_events s' = st_events s ++ l /\
    List.filter starts_project l = map (fun p => ELog INFO (start_line p)) projects /\
    st_summary s' = st_summary s ++ entries /\
    Forall2 outcome_of projects entries.
Proof.
  revert s. induction projects as [|p projects IH]; intros s.
  - exists s, [], []. simpl. rewrite !app_nil_r. repeat split. constructor.
  - destruct (process_guarded_spec p s) as (s1 & l1 & o & Hrun & Hev & Hl & Hs & Ho).
    destruct (IH s1) as (s2 & l2 & entries & Hrun2 & Hev2 & Hl2 & Hs2 & Hent).
    exists s2, (ELog INFO (start_line p) :: l1 ++ l2), (o :: entries).
    unfold loop in *. simpl. unfold bind at 1. rewrite Hrun. split; [done|].
    rewrite Hev2, Hev, Hs2, Hs, <- !app_assoc. simpl. split; [done|]. split.
    + rewrite List.filter_app, (filter_not_start l1 Hl), Hl2. reflexivity.
    + split; [done|]. constructor; [|done].
      destruct (process_project E self p s).1 as [e|[]]; [right | left]; [|done].
      destruct Ho as [_ ->]. eauto.
Qed.

Lemma for_each_app {A} (l1 l2 : list A) (body : A -> M unit) s :
  for_each (l1 ++ l2) body s =
  match for_each l1 body s with
  | (inl e, s1) => (inl e, s1)
  | (inr _, s1) => for_each l2 body s1
  end.
Proof.
  revert s. induction l1 as [|x l1 IH]; intros s; simpl; [done|].
  unfold bind. destruct (body x s) as [[e|[]] s1]; [done|]. apply IH.
Qed.

End Isolation.

(** ** The scanner and the run as a whole *)

Section Scan.
Context (E : Env).

Lemma get_subdirectories_run parent s :
  get_subdirectories parent s =
  (if fs_is_dir (st_fs s) parent
   then inr (List.filter (visible_dir (st_fs s)) (sorted (fs_children (st_fs s) parent)))
   else inl (NotADirectoryError ("Parent path is not a directory: " +:+ path_str parent)),
   s).
Proof.
  unfold get_subdirectories, bind, is_dir, iterdir, get_state, ret, raise. simpl.
  destruct (fs_is_dir (st_fs s) parent) eqn:Hd; simpl; [|done]. by rewrite Hd.
Qed.

Lemma get_subdirectories_state parent s : (get_subdirectories parent s).2 = s.
Proof. by rewrite get_subdirectories_run. Qed.


Lemma process_all_run self s projects :
  (get_subdirectories (parent_dir self) s).1 = inr projects ->
  process_all E self s =
  match projects with
  | [] => (inr tt, add_event s (ELog INFO "No subdirectories found under the parent path."))
  | _ :: _ =>
      (loop E self projects ;; report_summary self)%prog
        (add_event s (ELog INFO ("Found " +:+ pretty (length projects) +:+
                                 " projects. Beginning processing in order.")))
  end.
Proof.
  intros H. unfold process_all. unfold bind at 1.
  pose proof (get_subdirectories_state (parent_dir self) s) as Hs.
  destruct (get_subdirectories (parent_dir self) s) as [r s1]. simpl in *. subst.
  by destruct projects.
Qed.

Lemma log_run lvl msg s : log lvl msg s = (inr tt, add_event s (ELog lvl msg)).
Proof. reflexivity. Qed.

Lemma for_each_log {A} (f : A -> string) (l : list A) s :
  for_each l (fun x => log INFO (f x)) s =
  (inr tt, mkState (st_fs s) (st_account s)
             (st_events s ++ map (fun x => ELog INFO (f x)) l) (st_summary s)).
Proof.
  revert s. induction l as [|x l IH]; intros s; simpl.
  - rewrite app_nil_r. by destruct s.
  - unfold bind at 1. rewrite log_run, IH. simpl. by rewrite <- app_assoc.
Qed.

(** The report only logs. *)
Lemma report_summary_run self s :
  exists l, report_summary self s =
            (inr tt, mkState (st_fs s) (st_account s)
                       (st_events s ++ ELog INFO (nl +:+ "=== Summary ===") :: l)
                       (st_summary s)) /\
            Forall (fun e => exists m, e = ELog INFO m) l.
Proof.
  unfold report_summary. unfold bind at 1, get_state.
  unfold bind at 1. rewrite log_run. unfold bind at 1. rewrite log_run.
  unfold bind at 1. rewrite for_each_log. unfold bind at 1. rewrite log_run.
  rewrite for_each_log. simpl. eexists. rewrite <- !app_assoc. simpl.
  split; [reflexivity|].
  constructor; [eauto|]. apply Forall_app. split.
  - apply Forall_forall. intros e He. apply list_elem_of_fmap in He as [o [-> _]]. eauto.
  - constructor; [eauto|].
    apply Forall_forall. intros e He. apply list_elem_of_fmap in He as [o [-> _]]. eauto.
Qed.

(** C5.  The directory scan: a parent path that is not a directory
    fails with [NotADirectoryError]; for a directory the scan leaves
    the state alone and returns exactly its immediate child
    directories whose name does not start with a dot, each once,
    sorted by name, and the same list whenever the file system is
    the same; when that list is empty the run ends normally after a
    single INFO notice. *)
Theorem scan_contract (parent : Path) (s : State) :
  (fs_is_dir (st_fs s) parent = false ->
     exists msg, get_subdirectories parent s = (inl (NotADirectoryError msg), s)) /\
  (fs_is_dir (st_fs s) parent = true ->
     exists l, get_subdirectories parent s = (inr l, s) /\
       (forall q, q ∈ l <->
          exists n, q = parent // n /\ st_fs s !! q = Some Dir /\
                    Py.startswith n "." = false) /\
       NoDup l /\ StronglySorted name_le l /\
       (forall s2, st_fs s2 = st_fs s -> (get_subdirectories parent s2).1 = inr l)) /\
  (forall self, (get_subdirectories (parent_dir self) s).1 = inr [] ->
     process_all E self s =
     (inr tt, add_event s (ELog INFO "No subdirectories found under the parent path."))).
Proof.
  split; [|split].
  - intros H. rewrite get_subdirectories_run, H. eauto.
  - intros H. rewrite get_subdirectories_run, H. eexists. split; [reflexivity|].
    destruct (scan_listing (st_fs s) parent) as (Hmem & Hnd & Hsorted).
    repeat split; try done; try apply Hmem.
    intros s2 Hfs. by rewrite get_subdirectories_run, Hfs, H.
  - intros self H. by rewrite (process_all_run self s [] H).
Qed.

(** C10.  Once the scan has returned [projects], [process_all] ends
    normally and has appended to the summary exactly one entry per
    project, in scan order, each of the form [(name, true, "OK")] or
    [(name, false, reason)] with the project's own name; on a fresh
    processor, whose summary is empty, these entries are the whole
    summary. *)
Theorem summary_matches_scan (self : ProjectProcessor) (s : State) (projects : list Path) :
  (get_subdirectories (parent_dir self) s).1 = inr projects ->
  (process_all E self s).1 = inr tt /\
  exists entries,
    st_summary (process_all E self s).2 = st_summary s ++ entries /\
    Forall2 (outcome_of) projects entries /\
    (st_summary s = [] -> st_summary (process_all E self s).2 = entries).
Proof.
  intros H. rewrite (process_all_run self s projects H).
  destruct projects as [|p projects].
  - simpl. split; [done|]. exists []. rewrite app_nil_r.
    split; [done|]. split; [constructor | done].
  - set (s0 := add_event s _). unfold bind.
    destruct (loop_spec E self (p :: projects) s0) as (s1 & l & entries & -> & _ & _ & Hs & He).
    destruct (report_summary_run self s1) as [l' [-> _]]. simpl. split; [done|].
    exists entries. rewrite Hs. simpl. repeat split; [done|]. by intros ->.
Qed.

(** The loop over the projects never raises; the projects whose
    processing starts are exactly the given ones, in order; and the
    exception of a project is caught and recorded. *)
Lemma loop_isolates_errors (self : ProjectProcessor) (projects : list Path)
    (s : State) :
  let final := loop E self projects s in
  final.1 = inr tt /\
  List.filter starts_project (new_events s final.2) =
    map (fun p => ELog INFO (start_line p)) projects /\
  forall before p after e,
    projects = before ++ p :: after ->
    let s1 := (loop E self before s).2 in
    (process_project E self p s1).1 = inl e ->
    is_Exception e = true /\
    (process_guarded E self p s1).1 = inr tt /\
    st_summary final.2 !! (length (st_summary s) + length before)%nat =
      Some (path_name p, false, str_exn E e) /\
    final = loop E self after (process_guarded E self p s1).2.
Proof.
  simpl. destruct (loop_spec E self projects s) as (s' & l & entries & Hrun & Hev & Hl & _).
  rewrite Hrun. simpl. split; [done|]. split; [by rewrite (new_events_app _ _ _ Hev)|].
  intros before p after e -> Hp.
  unfold loop in *. rewrite for_each_app in Hrun.
  destruct (loop_spec E self before s) as (s1 & l1 & ent1 & Hrun1 & _ & _ & Hs1 & Hent1).
  unfold loop in *. rewrite Hrun1 in Hrun, Hp |- *. simpl in *.
  destruct (process_guarded_spec E self p s1) as (s2 & l2 & o & Hrun2 & _ & _ & Hs2 & Ho).
  rewrite Hp in Ho. destruct Ho as [He ->].
  unfold bind in Hrun. rewrite Hrun2 in Hrun |- *. simpl.
  destruct (loop_spec E self after s2) as (s3 & l3 & ent3 & Hrun3 & _ & _ & Hs3 & _).
  unfold loop in *. rewrite Hrun3 in Hrun. injection Hrun as <-.
  repeat split; try done.
  rewrite Hs3, Hs2, Hs1, <- !app_assoc.
  apply Forall2_length in Hent1. unfold Outcome in *.
  rewrite lookup_app_r by lia.
  rewrite lookup_app_r by lia.
  replace (_ - _ - _)%nat with 0%nat by lia. done.
Qed.

Lemma report_summary_starts_nothing (self : ProjectProcessor) (s : State) :
  exists l, report_summary self s =
            (inr tt, mkState (st_fs s) (st_account s) (st_events s ++ l) (st_summary s)) /\
            Forall (fun e => starts_project e = false) l.
Proof.
  assert (H : keeps (moves mv_inside) (fun _ => True) (report_summary self)) by keeps_auto.
  destruct (report_summary_run self s) as (l & Hrun & _). destruct (H s) as [Hmv _].
  rewrite Hrun in Hmv |- *. destruct Hmv as [(l' & Hev & Hl') _]. simpl in Hev.
  eexists. split; [reflexivity|]. apply app_inv_head in Hev. by subst.
Qed.

Lemma process_all_isolates_errors (self : ProjectProcessor) (projects : list Path)
    (s : State) :
  (get_subdirectories (parent_dir self) s).1 = inr projects ->
  let final := process_all E self s in
  let started :=
    add_event s (ELog INFO ("Found " +:+ pretty (length projects) +:+
                            " projects. Beginning processing in order.")) in
  final.1 = inr tt /\
  List.filter starts_project (new_events s final.2) =
    map (fun p => ELog INFO (start_line p)) projects /\
  forall before p after e,
    projects = before ++ p :: after ->
    let s1 := (loop E self before started).2 in
    (process_project E self p s1).1 = inl e ->
    is_Exception e = true /\
    (process_guarded E self p s1).1 = inr tt /\
    st_summary final.2 !! (length (st_summary s) + length before)%nat =
      Some (path_name p, false, str_exn E e) /\
    final = (loop E self after ;; report_summary self)%prog (process_guarded E self p s1).2.
Proof.
  intros Hscan. cbv zeta. rewrite (process_all_run self s projects Hscan).
  destruct projects as [|p0 ps].
  { simpl. split; [done|]. split; [by erewrite new_events_app by reflexivity|].
    intros [|? ?] ? ? ? H; discriminate. }
  set (projects := p0 :: ps) in *. set (started := add_event s _).
  destruct (loop_isolates_errors self projects started) as (Hret & Hstarts & Hiso).
  cbv zeta in Hiso. unfold bind at 1 2.
  destruct (loop E self projects started) as [r s1] eqn:Hloop. simpl in Hret. subst r.
  destruct (report_summary_starts_nothing self s1) as (lr & Hrep & Hlr). rewrite Hrep.
  simpl in Hstarts |- *. split; [done|]. split.
  - destruct (loop_spec E self projects started) as (s' & l & ents & Hrun & Hev & Hfil & _).
    rewrite Hloop in Hrun. injection Hrun as <-.
    erewrite new_events_app;
      [|simpl; rewrite Hev; subst started; unfold add_event; simpl;
        rewrite <- !app_assoc; simpl; reflexivity].
    assert (Hfound : forall m, starts_project (ELog INFO ("Found " +:+ m)) = false)
      by reflexivity.
    cbn [List.filter]. rewrite Hfound.
    by rewrite List.filter_app, Hfil, (filter_not_start lr Hlr), app_nil_r.
  - intros before p after e Hsplit Hp.
    destruct (Hiso before p after e Hsplit Hp) as (He & Hg & Hsum & Hfin).
    split; [done|]. split; [done|]. unfold bind. rewrite Hloop, <- Hfin, Hrep. simpl.
    split; [exact Hsum | done].
Qed.

(** C1.  Once the scan has returned [projects], [process_all] ends
    normally, whatever happens to the projects; the projects whose
    processing it starts are exactly the scanned ones, in scan order,
    so that every project after one that failed is still attempted;
    and when the processing of a project raises [e] (a failed push
    included), in the state [process_all] has reached after the
    projects before it, [e] is an [Exception], it is caught at the
    project boundary, the entry of that project in the summary is
    [(name, false, str(e))], and [process_all] goes on with the
    remaining projects and the report. *)
Theorem project_errors_are_isolated (self : ProjectProcessor) (projects : list Path)
    (s : State) :
  (get_subdirectories (parent_dir self) s).1 = inr projects ->
  let final := process_all E self s in
  let started :=
    add_event s (ELog INFO ("Found " +:+ pretty (length projects) +:+
                            " projects. Beginning processing in order.")) in
  final.1 = inr tt /\
  List.filter starts_project (new_events s final.2) =
    map (fun p => ELog INFO (start_line p)) projects /\
  forall before p after e,
    projects = before ++ p :: after ->
    let s1 := (for_each before (process_guarded E self) started).2 in
    (process_project E self p s1).1 = inl e ->
    is_Exception e = true /\
    (process_guarded E self p s1).1 = inr tt /\
    st_summary final.2 !! (length (st_summary s) + length before)%nat =
      Some (path_name p, false, str_exn E e) /\
    final = (for_each after (process_guarded E self) ;; report_summary self)%prog (process_guarded E self p s1).2.
Proof. exact (process_all_isolates_errors self projects s). Qed.
End Scan.

(** ** The repository manager *)

Definition is_create (e : Event) : bool :=
  match e with EApi (CreateRepo _ _ _ _) => true | _ => false end.

Definition is_edit (e : Event) : bool :=
  match e with EApi (EditRepo _ _) => true | _ => false end.

Section Manager.
Context (E : Env).

(** The lookup of a name the account does not hold raises, be it the
    404 of the service or a failure of the request. *)
Lemma lookup_absent name s :
  st_account s !! name = None ->
  exists e, api_get_repo E name s = (inl e, add_event s (EApi (GetRepo name))) /\
            is_Exception e = true.
Proof.
  intros H. unfold api_get_repo, bind, emit, get_state, raise. simpl. rewrite H.
  destruct (api_refuses E s (GetRepo name)) as [[]|]; simpl; eauto.
Qed.

Lemma create_repo_existing gm name private description auto_init default_branch s r :
  st_account s !! name = Some r ->
  api_refuses E s (GetRepo name) = None ->
  create_repo E gm name private description auto_init default_branch s =
  (inr r, add_event (add_event s (EApi (GetRepo name)))
            (ELog INFO ("Repo already exists on GitHub: " +:+ name))).
Proof.
  intros H Hf. unfold create_repo, api_get_repo, log.
  unfold try_except, bind, emit, get_state, ret. simpl. by rewrite Hf, H.
Qed.

(** A failed lookup is taken for an absent repository: the creation is
    requested, and refused since the name is taken. *)
Lemma create_repo_existing_refused gm name private description auto_init default_branch s r f :
  st_account s !! name = Some r ->
  api_refuses E s (GetRepo name) = Some f ->
  let res := create_repo E gm name private description auto_init default_branch s in
  (exists e, res.1 = inl e) /\
  res.2 = add_event (add_event s (EApi (GetRepo name)))
            (EApi (CreateRepo name private description auto_init)).
Proof.
  intros H Hf.
  unfold create_repo, api_get_repo, api_create_repo, api_edit, log.
  unfold try_except, bind, emit, get_state, set_account, ret, raise. simpl. rewrite Hf. simpl.
  assert (Hx : is_Exception (fault_exn f) = true) by (by destruct f). rewrite Hx. simpl.
  fold (add_event s (EApi (GetRepo name))).
  set (s1 := add_event s (EApi (GetRepo name))).
  destruct (api_refuses E s1 (CreateRepo name private description auto_init)) as [f2|] eqn:Hf2.
  - destruct default_branch as [b|]; [destruct (Py.truthy b)|]; simpl; rewrite Hf2; simpl;
      destruct f2; simpl; eauto.
  - destruct default_branch as [b|]; [destruct (Py.truthy b)|]; simpl; rewrite Hf2; simpl;
      rewrite H; simpl; eauto.
Qed.

Lemma create_repo_absent gm name private description auto_init default_branch s :
  st_account s !! name = None ->
  let res := create_repo E gm name private description auto_init default_branch s in
  (exists l, new_events s res.2 =
             EApi (GetRepo name) :: EApi (CreateRepo name private description auto_init) :: l /\
             Forall (fun e => is_create e = false) l) /\
  (forall r, res.1 = inr r ->
     st_account res.2 !! name = Some r /\ repo_name r = name /\
     repo_private r = private /\ repo_description r = description /\
     repo_auto_init r = auto_init) /\
  (api_refuses E (add_event s (EApi (GetRepo name)))
     (CreateRepo name private description auto_init) = None -> exists r, res.1 = inr r) /\
  (forall other, other <> name -> st_account res.2 !! other = st_account s !! other).
Proof.
  intros H.
  destruct (lookup_absent name s H) as (e & Hrun & He).
  unfold create_repo. unfold try_except, bind. rewrite Hrun. simpl. rewrite He.
  unfold api_create_repo, api_edit, log.
  unfold try_except, bind, emit, get_state, set_account, ret, raise. simpl.
  set (s1 := add_event s (EApi (GetRepo name))).
  assert (Hnew : forall l s', st_events s' = (st_events s ++ [EApi (GetRepo name)]) ++
                              EApi (CreateRepo name private description auto_init) :: l ->
            new_events s s' = EApi (GetRepo name) ::
                              EApi (CreateRepo name private description auto_init) :: l).
  { intros l s' Hs'. apply new_events_app. by rewrite Hs', <- app_assoc. }
  destruct (api_refuses E s1 (CreateRepo name private description auto_init)) as [f|] eqn:Hf.
  - (* the service refuses the creation *)
    destruct default_branch as [b|]; [destruct (Py.truthy b)|]; simpl; rewrite Hf; simpl;
      destruct f; simpl; (split; [eexists; split; [apply Hnew; simpl; reflexivity|repeat constructor]|]);
      (split; [discriminate|]); (split; [discriminate|]); done.
  - destruct default_branch as [b|]; [destruct (Py.truthy b)|]; simpl; rewrite Hf; simpl;
      rewrite H; simpl.
    + destruct (String.eqb b (service_default_branch E)); simpl.
      * split; [eexists; split; [apply Hnew; simpl; rewrite <- app_assoc; reflexivity
                                | repeat constructor]|].
        split; [intros r [= <-]; simpl; by rewrite lookup_insert_eq|].
        split; [eauto|]. intros other Ho. by rewrite lookup_insert_ne.
      * destruct (api_refuses E _ (EditRepo name b)) as [f|]; simpl.
        -- destruct f; simpl;
           (split; [eexists; split; [apply Hnew; simpl; rewrite <- !app_assoc; reflexivity
                                    | repeat constructor]|]);
           (split; [intros r [= <-]; simpl; by rewrite lookup_insert_eq|]);
           (split; [eauto|]); intros other Ho; by rewrite lookup_insert_ne.
        -- split; [eexists; split; [apply Hnew; simpl; rewrite <- !app_assoc; reflexivity
                                   | repeat constructor]|].
           split; [intros r [= <-]; simpl; by rewrite lookup_insert_eq|].
           split; [eauto|]. intros other Ho.
           rewrite lookup_insert_ne, lookup_delete_ne, lookup_insert_ne; done.
    + split; [eexists; split; [apply Hnew; simpl; rewrite <- app_assoc; reflexivity
                              | repeat constructor]|].
      split; [intros r [= <-]; simpl; by rewrite lookup_insert_eq|].
      split; [eauto|]. intros other Ho. by rewrite lookup_insert_ne.
    + split; [eexists; split; [apply Hnew; simpl; rewrite <- app_assoc; reflexivity
                              | repeat constructor]|].
      split; [intros r [= <-]; simpl; by rewrite lookup_insert_eq|].
      split; [eauto|]. intros other Ho. by rewrite lookup_insert_ne.
Qed.
End Manager.

(** ** The access token *)

(** The processor [self] with another token. *)
Definition with_token (self : ProjectProcessor) (tok : option string) : ProjectProcessor :=
  {| parent_dir := parent_dir self; github_manager := github_manager self; token := tok;
     git_name := git_name self; git_email := git_email self; protocol := protocol self;
     private := private self; default_branch := default_branch self;
     push_via_token_in_https := push_via_token_in_https self;
     do_branch_ops := do_branch_ops self |}.

(** C9.  Two runs of the processing of a project that differ only in
    the token of the processor end with the same result in the same
    state, hence with the same events and the same URL in
    [git remote add origin], whenever the protocol is not HTTPS, or
    token embedding is off, or neither token is a non-empty string:
    only with HTTPS, the embedding flag and a token present can the
    token reach an argument of a git command. *)
Theorem token_noninterference (E : Env) (self : ProjectProcessor) (tok1 tok2 : option string)
    (p : Path) (s : State) :
  protocol self <> "HTTPS" \/ push_via_token_in_https self = false \/
    (Py.otruthy tok1 = false /\ Py.otruthy tok2 = false) ->
  process_project E (with_token self tok1) p s = process_project E (with_token self tok2) p s.
Proof.
  intros H. unfold process_project, _do_branch_operations, with_token. simpl.
  destruct H as [H|[H|[H1 H2]]].
  - apply String.eqb_neq in H. rewrite H. simpl. by destruct tok1, tok2.
  - rewrite H, !andb_false_r. simpl. by destruct tok1, tok2.
  - destruct tok1 as [t1|], tok2 as [t2|]; simpl in *; rewrite ?H1, ?H2, ?andb_false_r; done.
Qed.

(** ** Branch operations *)

(** The command that opens a branch operation: [git checkout NAME]
    (switch), [git checkout -b NAME] (create), [git branch -m OLD NEW]
    (rename). *)
Definition opens_branch_op (args : list string) : bool :=
  match args with
  | [g; c; _] => String.eqb g "git" && String.eqb c "checkout"
  | [g; c; b; _] => String.eqb g "git" && String.eqb c "checkout" && String.eqb b "-b"
  | [g; c; m; _; _] => String.eqb g "git" && String.eqb c "branch" && String.eqb m "-m"
  | _ => false
  end.

Definition branch_op_of (e : Event) : option (list string) :=
  match e with
  | ERun args _ _ _ _ _ => if opens_branch_op args then Some args else None
  | _ => None
  end.

(** The operations a request asks for, in the order of the source. *)
Definition requested_ops (d : BranchOps) : list (list string) :=
  match bo_create d with
  | Some name => if Py.truthy name then [["git"; "checkout"; "-b"; name]] else []
  | None => []
  end ++
  match bo_rename d with
  | Some (old, new) => [["git"; "branch"; "-m"; old; new]]
  | None => []
  end ++
  match bo_switch d with
  | Some name => if Py.truthy name then [["git"; "checkout"; name]] else []
  | None => []
  end.

(** The events that follow the first successful push of [branch]. *)
Fixpoint events_after_push (branch : string) (l : list Event) : list Event :=
  match l with
  | [] => []
  | ERun ["git"; "push"; "-u"; "origin"; b] _ _ _ _ (Exited 0) :: l' =>
      if String.eqb b branch then l' else events_after_push branch l'
  | _ :: l' => events_after_push branch l'
  end.

Definition overlay_of (env : option (list (string * string))) : list (string * string) :=
  match env with Some (kv :: l) => kv :: l | _ => [] end.

(** The state a finished subprocess leaves. *)
Definition after_run (E : Env) (s : State) (args : list string) (cwd : Path) (check cap : bool)
    (ov : list (string * string)) (out : GitOutcome) : State :=
  mkState (git_fs_effect E args cwd out (st_fs s)) (st_account s)
    (st_events s ++ [ERun args cwd check cap ov out]) (st_summary s).

Section BranchOperations.
Context (E : Env).

Lemma run_git_cmd_run args cwd check cap env s :
  run_git_cmd E args cwd check cap env s =
  let out := git E s args cwd (overlay_of env) in
  (match out with
   | NotStarted m => inl (OSError m)
   | Exited rc => if (check && negb (rc =? 0)%Z)%bool
                  then inl (CalledProcessError rc args) else inr rc
   end, after_run E s args cwd check cap (overlay_of env) out).
Proof.
  unfold run_git_cmd, try_except, subprocess_run, after_run, overlay_of. simpl.
  destruct (git E s args cwd _) as [rc|m]; simpl; [|done].
  by destruct (check && negb (rc =? 0)%Z)%bool.
Qed.

Lemma wp_run_git_cmd args cwd check cap env s (Q : Exn + Z -> State -> Prop) :
  (forall out,
     let s' := after_run E s args cwd check cap (overlay_of env) out in
     match out with
     | NotStarted m => Q (inl (OSError m)) s'
     | Exited rc => if (check && negb (rc =? 0)%Z)%bool
                    then Q (inl (CalledProcessError rc args)) s' else Q (inr rc) s'
     end) ->
  wp (run_git_cmd E args cwd check cap env) s Q.
Proof.
  intros H. unfold wp. rewrite run_git_cmd_run. simpl.
  specialize (H (git E s args cwd (overlay_of env))). simpl in H.
  destruct (git E s args cwd _) as [rc|m]; [|done].
  by destruct (check && negb (rc =? 0)%Z)%bool.
Qed.

(** What a block of branch commands guarantees: it only adds events,
    only a git that cannot be started makes it raise, and when it ends
    normally the operations it opened are [ops]. *)
Definition opened (s : State) (ops : list (list string)) (r : Exn + unit) (s' : State) : Prop :=
  exists l, st_events s' = st_events s ++ l /\
            match r with
            | inr _ => omap branch_op_of l = ops
            | inl e => exists m, e = OSError m
            end.

Lemma opened_seq (m k : M unit) s ops1 ops2 :
  wp m s (opened s ops1) -> (forall s1, wp k s1 (opened s1 ops2)) ->
  wp (m ;; k)%prog s (opened s (ops1 ++ ops2)).
Proof.
  intros Hm Hk. apply wp_bind. unfold wp in *.
  destruct (m s) as [[e|[]] s1]; simpl in *; [done|].
  destruct Hm as [l1 [E1 H1]]. specialize (Hk s1).
  destruct (k s1) as [r s2]; simpl in *. destruct Hk as [l2 [E2 H2]].
  exists (l1 ++ l2). rewrite E2, E1, app_assoc. split; [done|].
  destruct r as [e|[]]; [done|]. by rewrite omap_app, H1, H2.
Qed.

Lemma opened_ret s : wp (ret tt) s (opened s []).
Proof. exists []. by rewrite app_nil_r. Qed.
End BranchOperations.

Ltac run_step :=
  let rc := fresh "rc" in
  apply wp_run_git_cmd; intros [rc|?]; simpl;
  [ destruct (rc =? 0)%Z eqn:?; simpl | ].

Ltac opened_done :=
  unfold opened, after_run, add_event; simpl;
  eexists; split; [rewrite <- ?app_assoc; simpl; reflexivity | simpl; eauto].

Section BranchOperationsSpec.
Context (E : Env).

Lemma create_block cwd name s :
  wp (try_except
        (run_git_cmd E ["git"; "checkout"; "-b"; name] cwd true false None ;;
         run_git_cmd E ["git"; "push"; "-u"; "origin"; name] cwd true false None ;;
         log INFO ("Created and pushed branch " +:+ name))%prog
        is_CalledProcessError
        (fun _ => log WARNING ("Could not create branch " +:+ name))) s
     (opened s [["git"; "checkout"; "-b"; name]]).
Proof.
  apply wp_try, wp_bind. run_step; [|apply wp_log; opened_done|opened_done].
  apply wp_bind. run_step; [|apply wp_log; opened_done|opened_done].
  apply wp_log. opened_done.
Qed.

Lemma rename_block cwd old new s :
  wp (try_except
        (run_git_cmd E ["git"; "branch"; "-m"; old; new] cwd true false None ;;
         run_git_cmd E ["git"; "push"; "origin"; ":" +:+ old] cwd true false None ;;
         run_git_cmd E ["git"; "push"; "-u"; "origin"; new] cwd true false None ;;
         log INFO ("Renamed branch " +:+ old +:+ " -> " +:+ new))%prog
        is_CalledProcessError
        (fun _ => log WARNING ("Could not rename branch " +:+ old +:+ " -> " +:+ new))) s
     (opened s [["git"; "branch"; "-m"; old; new]]).
Proof.
  apply wp_try, wp_bind. run_step; [|apply wp_log; opened_done|opened_done].
  apply wp_bind. run_step; [|apply wp_log; opened_done|opened_done].
  apply wp_bind. run_step; [|apply wp_log; opened_done|opened_done].
  apply wp_log. opened_done.
Qed.

Lemma switch_block cwd name s :
  wp (try_except
        (run_git_cmd E ["git"; "checkout"; name] cwd true false None ;;
         log INFO ("Switched to branch " +:+ name))%prog
        is_CalledProcessError
        (fun _ => log WARNING ("Could not switch to branch " +:+ name))) s
     (opened s [["git"; "checkout"; name]]).
Proof.
  apply wp_try, wp_bind. run_step; [|apply wp_log; opened_done|opened_done].
  apply wp_log. opened_done.
Qed.

Lemma do_branch_operations_opened self cwd s :
  wp (_do_branch_operations E self cwd) s (opened s (requested_ops (do_branch_ops self))).
Proof.
  unfold _do_branch_operations, requested_ops, branch_ops_empty.
  destruct (do_branch_ops self) as [c r w]. simpl.
  assert (Hc : forall s1,
    wp (match c with
        | Some name =>
            when (Py.truthy name)
              (try_except
                 (run_git_cmd E ["git"; "checkout"; "-b"; name] cwd true false None ;;
                  run_git_cmd E ["git"; "push"; "-u"; "origin"; name] cwd true false None ;;
                  log INFO ("Created and pushed branch " +:+ name))%prog
                 is_CalledProcessError
                 (fun _ => log WARNING ("Could not create branch " +:+ name)))
        | None => ret tt
        end) s1
       (opened s1 match c with
                  | Some name => if Py.truthy name then [["git"; "checkout"; "-b"; name]] else []
                  | None => []
                  end)).
  { intros s1. destruct c as [name|]; [|apply opened_ret].
    destruct (Py.truthy name); [apply create_block | apply opened_ret]. }
  assert (Hr : forall s1,
    wp (match r with
        | Some (old, new) =>
            try_except
              (run_git_cmd E ["git"; "branch"; "-m"; old; new] cwd true false None ;;
               run_git_cmd E ["git"; "push"; "origin"; ":" +:+ old] cwd true false None ;;
               run_git_cmd E ["git"; "push"; "-u"; "origin"; new] cwd true false None ;;
               log INFO ("Renamed branch " +:+ old +:+ " -> " +:+ new))%prog
              is_CalledProcessError
              (fun _ => log WARNING ("Could not rename branch " +:+ old +:+ " -> " +:+ new))
        | None => ret tt
        end) s1
       (opened s1 match r with
                  | Some (old, new) => [["git"; "branch"; "-m"; old; new]]
                  | None => []
                  end)).
  { intros s1. destruct r as [[old new]|]; [apply rename_block | apply opened_ret]. }
  assert (Hw : forall s1,
    wp (match w with
        | Some name =>
            when (Py.truthy name)
              (try_except
                 (run_git_cmd E ["git"; "checkout"; name] cwd true false None ;;
                  log INFO ("Switched to branch " +:+ name))%prog
                 is_CalledProcessError
                 (fun _ => log WARNING ("Could not switch to branch " +:+ name)))
        | None => ret tt
        end) s1
       (opened s1 match w with
                  | Some name => if Py.truthy name then [["git"; "checkout"; name]] else []
                  | None => []
                  end)).
  { intros s1. destruct w as [name|]; [|apply opened_ret].
    destruct (Py.truthy name); [apply switch_block | apply opened_ret]. }
  destruct c as [name|]; [|destruct r as [[old new]|]; [|destruct w as [name|]]];
    try (apply opened_seq; [apply Hc | intros; apply opened_seq; [apply Hr | apply Hw]]).
  apply opened_ret.
Qed.
End BranchOperationsSpec.

(** The branch a project is pushed to. *)
Definition branch_of (self : ProjectProcessor) (p : Path) : string :=
  if Py.truthy (default_branch self) then default_branch self
  else default_initial_branch_name (path_name p).

(** No constraint beyond "events are only added". *)
Definition mv_any : Moves :=
  {| mv_event := fun _ => True; mv_fs := any_rel; mv_account := any_rel;
     mv_summary := any_rel |}.

Global Instance mv_any_ok : MovesOK mv_any.
Proof. split; simpl; apply _. Qed.

Lemma moves_events mv s s' : moves mv s s' -> exists l, st_events s' = st_events s ++ l.
Proof. intros [[l [H _]] _]. eauto. Qed.

Section AfterThePush.
Context (E : Env) (self : ProjectProcessor).

(** After the push of a successfully processed project, the branch
    operations opened are exactly the requested ones, in the order
    create, rename, switch. *)
Lemma process_project_branch_ops p s :
  (process_project E self p s).1 = inr tt ->
  exists pre post ov,
    new_events s (process_project E self p s).2 =
      pre ++ ERun ["git"; "push"; "-u"; "origin"; branch_of self p] p true false ov (Exited 0)
          :: post /\
    omap branch_op_of post = requested_ops (do_branch_ops self).
Proof.
  assert (H : wp (process_project E self p) s (fun r s' =>
    r = inr tt ->
    exists pre post ov,
      st_events s' = st_events s ++
        pre ++ ERun ["git"; "push"; "-u"; "origin"; branch_of self p] p true false ov (Exited 0)
            :: post /\
      omap branch_op_of post = requested_ops (do_branch_ops self))).
  2:{ unfold wp in H. intros Hr. destruct (H Hr) as (pre & post & ov & Hev & Hops).
      exists pre, post, ov. split; [|done]. by apply new_events_app. }
  unfold process_project. cbv zeta. fold (branch_of self p).
  apply wp_bind, wp_log.
  set (s1 := add_event s _).
  assert (HT : moves mv_any s s1).
  { repeat split; simpl; try done. eexists. split; [done|]. by repeat constructor. }
  clearbody s1. revert HT. generalize s1. clear s1. intros s1 HT.
  do 6 (walk mv_any (fun _ : Exn => True); [chain; clear Hrun | done]).
  match goal with HT : moves _ s _ |- _ => apply moves_events in HT as [pre Hpre] end.
  apply wp_bind, wp_try, wp_bind. run_step; [| done | done].
  match goal with H : (_ =? 0)%Z = true |- _ => apply Z.eqb_eq in H; subst end.
  apply wp_log. simpl.
  set (sp := add_event _ _).
  eapply wp_bind, wp_mono; [apply do_branch_operations_opened|].
  intros [e|[]] sb [lb [Hevb Hops]]; [done|].
  apply wp_bind, wp_summary_append, wp_log. intros _.
  exists pre. eexists. eexists. unfold add_event. simpl. rewrite Hevb. subst sp.
  unfold add_event, after_run. simpl. rewrite Hpre, <- !app_assoc. simpl.
  split; [reflexivity|]. simpl. rewrite omap_app. simpl. by rewrite app_nil_r.
Qed.
End AfterThePush.

(** ** The remote link *)

Lemma append_assoc (a b c : string) : (a +:+ b) +:+ c = a +:+ b +:+ c.
Proof.
  induction a as [|x a IH]; [reflexivity|].
  change (String x ((a +:+ b) +:+ c) = String x (a +:+ b +:+ c)). by rewrite IH.
Qed.

Lemma prefix_append (a b : string) : String.prefix a (a +:+ b) = true.
Proof.
  induction a as [|c a IH]; [by destruct b|].
  change (String c a +:+ b) with (String c (a +:+ b)). cbn [String.prefix].
  destruct (ascii_dec c c); [done | congruence].
Qed.

Lemma replace_go_skip old new (a b : string) :
  Py.replace_go old new (a +:+ b) (String.length a) = Py.replace_go old new b 0.
Proof.
  induction a as [|c a IH]; [done|].
  change (String c a +:+ b) with (String c (a +:+ b)). cbn [Py.replace_go String.length].
  apply IH.
Qed.

(** Replacing in a text that starts with the pattern. *)
Lemma replace_at_start (old new rest : string) c :
  Py.replace (String c old +:+ rest) (String c old) new =
  new +:+ Py.replace rest (String c old) new.
Proof.
  unfold Py.replace.
  change (String c old +:+ rest) with (String c (old +:+ rest)).
  cbn [Py.replace_go].
  change (String c (old +:+ rest)) with (String c old +:+ rest).
  rewrite prefix_append. cbn [String.length Nat.pred]. by rewrite replace_go_skip.
Qed.

Lemma replace_absent (old new s : string) :
  Py.occurs old s = false -> Py.replace s old new = s.
Proof.
  unfold Py.replace. induction s as [|c s IH]; [done|].
  cbn [Py.occurs Py.replace_go]. intros H. apply orb_false_iff in H as [-> H].
  by rewrite IH.
Qed.

Definition is_remote_add (e : Event) : bool :=
  match e with
  | ERun [g; r; a; o; _] _ _ _ _ _ =>
      String.eqb g "git" && String.eqb r "remote" && String.eqb a "add" && String.eqb o "origin"
  | _ => false
  end.

(** What the claim asks of the URL given to [git remote add origin]
    for the handle [repo]. *)
Definition url_matches (self : ProjectProcessor) (repo : Repo) (url : string) : Prop :=
  (protocol self = "SSH" -> url = ssh_url repo) /\
  (protocol self = "HTTPS" ->
     push_via_token_in_https self = false \/ Py.otruthy (token self) = false ->
     url = clone_url repo) /\
  (protocol self = "HTTPS" -> push_via_token_in_https self = true ->
     forall tok, token self = Some tok -> Py.truthy tok = true ->
     forall rest, clone_url repo = "https://" +:+ rest ->
       url = "https://" +:+ tok +:+ "@" +:+
             Py.replace rest "https://" ("https://" +:+ tok +:+ "@") /\
       (Py.occurs "https://" rest = false -> url = "https://" +:+ tok +:+ "@" +:+ rest)).

(** The URL the source computes. *)
Lemma chosen_url_matches (self : ProjectProcessor) (repo : Repo) :
  url_matches self repo
    match token self with
    | Some tok =>
        if (String.eqb (protocol self) "HTTPS" && push_via_token_in_https self
            && Py.truthy tok)%bool
        then Py.replace (if String.eqb (protocol self) "SSH" then ssh_url repo
                         else clone_url repo)
               "https://" ("https://" +:+ tok +:+ "@")
        else if String.eqb (protocol self) "SSH" then ssh_url repo else clone_url repo
    | None => if String.eqb (protocol self) "SSH" then ssh_url repo else clone_url repo
    end.
Proof.
  unfold url_matches. split; [|split].
  - intros ->. simpl. by destruct (token self).
  - intros -> H. simpl. destruct (token self) as [tok|]; [|done].
    simpl in H. destruct H as [->| ->]; [done|]. by rewrite andb_false_r.
  - intros -> -> tok -> -> rest Hrest. simpl. rewrite Hrest.
    rewrite (replace_at_start "ttps://" _ rest "h"), !append_assoc. split; [done|].
    intros H. by rewrite replace_absent.
Qed.

(** Steps that neither link a remote nor touch the account. *)
Definition mv_link : Moves :=
  {| mv_event := fun e => is_remote_add e = false; mv_fs := any_rel;
     mv_account := eq; mv_summary := any_rel |}.

Global Instance mv_link_ok : MovesOK mv_link.
Proof. split; simpl; apply _. Qed.

(** The same, but the account may change. *)
Definition mv_hub : Moves :=
  {| mv_event := fun e => is_remote_add e = false; mv_fs := any_rel;
     mv_account := any_rel; mv_summary := any_rel |}.

Global Instance mv_hub_ok : MovesOK mv_hub.
Proof. split; simpl; apply _. Qed.

Section RemoteLink.
Context (E : Env).

Lemma create_repo_handle gm name private description auto_init default_branch s :
  wp (create_repo E gm name private description auto_init default_branch) s (fun r s' =>
    moves mv_hub s s' /\ forall repo, r = inr repo -> st_account s' !! name = Some repo).
Proof.
  unfold wp. split.
  - assert (H : keeps (moves mv_hub) (fun _ => True)
                  (create_repo E gm name private description auto_init default_branch))
      by keeps_auto.
    apply H.
  - destruct (st_account s !! name) as [r|] eqn:Hacc.
    + destruct (api_refuses E s (GetRepo name)) as [f|] eqn:Hf.
      * destruct (create_repo_existing_refused E gm name private description auto_init
                    default_branch s r f Hacc Hf) as [[e He] _].
        intros repo Hrepo. rewrite He in Hrepo. discriminate.
      * rewrite (create_repo_existing E gm name private description auto_init default_branch
                   s r Hacc Hf).
        simpl. by intros repo [= <-].
    + intros repo Hrepo.
      by apply (create_repo_absent E gm name private description auto_init default_branch s Hacc).
Qed.
End RemoteLink.

Section RemoteLinkSpec.
Context (E : Env) (self : ProjectProcessor) (p : Path).

(** Every [git remote add origin URL] among the events added since [s]
    has the URL the claim asks for, for the handle stored under the
    project's name. *)
Definition linked (s s' : State) : Prop :=
  (exists l, st_events s' = st_events s ++ l) /\
  forall url cwd chk cap ov out,
    ERun ["git"; "remote"; "add"; "origin"; url] cwd chk cap ov out ∈ new_events s s' ->
    exists repo, st_account s' !! path_name p = Some repo /\ url_matches self repo url.

Lemma not_linking_yet s s' :
  (exists l, st_events s' = st_events s ++ l /\ Forall (fun e => is_remote_add e = false) l) ->
  linked s s'.
Proof.
  intros [l [Hev Hl]]. split; [eauto|]. intros url cwd chk cap ov out Hin.
  rewrite (new_events_app _ _ _ Hev) in Hin.
  rewrite Forall_forall in Hl. by specialize (Hl _ Hin).
Qed.

Lemma linked_step s s1 s2 : linked s s1 -> moves mv_link s1 s2 -> linked s s2.
Proof.
  intros [[l1 Hev1] Hl] [[l2 [Hev2 Hl2]] [_ [Hacc _]]]. simpl in Hacc. split.
  - exists (l1 ++ l2). by rewrite Hev2, Hev1, app_assoc.
  - intros url cwd chk cap ov out Hin.
    rewrite (new_events_app s s2 (l1 ++ l2)) in Hin by (by rewrite Hev2, Hev1, app_assoc).
    apply elem_of_app in Hin as [Hin|Hin].
    + rewrite <- Hacc. apply (Hl url cwd chk cap ov out).
      by rewrite (new_events_app _ _ _ Hev1).
    + rewrite Forall_forall in Hl2. by specialize (Hl2 _ Hin).
Qed.

Lemma moves_link_hub s s' : moves mv_link s s' -> moves mv_hub s s'.
Proof. intros [Hev [Hfs [_ Hsum]]]. by repeat split. Qed.

Lemma moves_hub_events s s' :
  moves mv_hub s s' ->
  exists l, st_events s' = st_events s ++ l /\ Forall (fun e => is_remote_add e = false) l.
Proof. by intros [Hev _]. Qed.
End RemoteLinkSpec.

Lemma moves_link_finish s o msg :
  moves mv_link s
    (add_event (mkState (st_fs s) (st_account s) (st_events s) (st_summary s ++ [o]))
       (ELog INFO msg)).
Proof.
  split; [|by repeat split]. simpl. eexists. split; [reflexivity|]. by repeat constructor.
Qed.

Ltac chain_linked :=
  match goal with
  | HL : linked _ _ ?s ?a, H : moves mv_link ?a ?b |- _ =>
      let H' := fresh "HL" in
      pose proof (linked_step _ _ _ _ _ HL H) as H'; clear HL H
  end.

Section RemoteLinkTheorem.
Context (E : Env) (self : ProjectProcessor) (p : Path).

Lemma process_project_linked s :
  wp (process_project E self p) s (fun _ s' => linked self p s s').
Proof.
  unfold process_project. cbv zeta. fold (branch_of self p).
  apply wp_bind, wp_log.
  set (s1 := add_event s _).
  assert (HT : moves mv_hub s s1).
  { repeat split; simpl; try done. eexists. split; [done|]. by repeat constructor. }
  clearbody s1. revert HT. generalize s1. clear s1. intros s1 HT.
  do 5 (walk mv_link (fun _ : Exn => True);
        [ apply moves_link_hub in Hstep; chain; clear Hrun
        | apply moves_link_hub in Hstep; chain;
          match goal with HT : moves mv_hub s _ |- _ =>
            apply not_linking_yet, moves_hub_events, HT end ]).
  destruct (github_manager self) as [gm|].
  - apply wp_bind, wp_bind.
    eapply wp_mono; [apply create_repo_handle|].
    intros [e|repo] s7 [Hstep Hrepo]; chain.
    { match goal with HT : moves mv_hub s _ |- _ =>
        apply not_linking_yet, moves_hub_events, HT end. }
    specialize (Hrepo repo eq_refl).
    match goal with HT : moves mv_hub s _ |- _ =>
      apply moves_hub_events in HT as [l7 [Hev7 Hl7]] end.
    set (url := match token self with Some _ => _ | None => _ end).
    assert (Hurl : url_matches self repo url) by apply chosen_url_matches.
    clearbody url.
    (* the removal of origin, whatever its outcome *)
    assert (Hadd : forall s8, st_account s8 = st_account s7 ->
      (exists l8, st_events s8 = st_events s7 ++ l8 /\
                  Forall (fun e => is_remote_add e = false) l8) ->
      wp (run_git_cmd E ["git"; "remote"; "add"; "origin"; url] p true false None ;;
          log INFO ("Remote origin set to: " +:+ url))%prog s8
         (fun r s9 => match r with
                      | inl _ => linked self p s s9
                      | inr _ => linked self p s s9
                      end)).
    { intros s8 Hacc8 [l8 [Hev8 Hl8]].
      assert (Hlinked : forall out l9,
        Forall (fun e => is_remote_add e = false) l9 ->
        forall s9, st_account s9 = st_account s8 ->
        st_events s9 = st_events s8 ++
          ERun ["git"; "remote"; "add"; "origin"; url] p true false [] out :: l9 ->
        linked self p s s9).
      { intros out l9 Hl9 s9 Hacc9 Hev9. split.
        - eexists. rewrite Hev9, Hev8, Hev7, <- !app_assoc. reflexivity.
        - intros url' cwd chk cap ov out' Hin.
          rewrite (new_events_app s s9
                     (l7 ++ l8 ++ ERun ["git"; "remote"; "add"; "origin"; url] p true false []
                                       out :: l9)) in Hin
            by (by rewrite Hev9, Hev8, Hev7, <- !app_assoc).
          rewrite !elem_of_app, elem_of_cons in Hin.
          rewrite Forall_forall in Hl7, Hl8, Hl9.
          destruct Hin as [Hin|[Hin|[Hin|Hin]]];
            try (by specialize (Hl7 _ Hin)); try (by specialize (Hl8 _ Hin));
            try (by specialize (Hl9 _ Hin)).
          injection Hin as -> _ _ _ _ _. exists repo. by rewrite Hacc9, Hacc8. }
      apply wp_bind. run_step.
      - apply wp_log. eapply (Hlinked _ [ELog INFO ("Remote origin set to: " +:+ url)]);
          [by repeat constructor | done | simpl; by rewrite <- app_assoc].
      - eapply (Hlinked _ []); [constructor | done | done].
      - eapply (Hlinked _ []); [constructor | done | done]. }
    apply wp_bind, wp_try, wp_bind. run_step; simpl; apply wp_ret; simpl;
      (eapply wp_mono;
         [apply Hadd; [done | eexists; split; [reflexivity | by repeat constructor]]|]);
      (intros [e|[]] s9 HL; [done|]);
      (walk mv_link (fun _ : Exn => True); [chain_linked; clear Hrun | by chain_linked]);
      (walk mv_link (fun _ : Exn => True); [chain_linked; clear Hrun | by chain_linked]);
      apply wp_bind, wp_summary_append, wp_log;
      (eapply linked_step; [eassumption | apply moves_link_finish]).
  - apply wp_bind, wp_ret.
    match goal with HT : moves mv_hub s ?x |- _ =>
      assert (HL : linked self p s x) by (apply not_linking_yet, moves_hub_events, HT);
      clear HT
    end.
    walk mv_link (fun _ : Exn => True); [chain_linked; clear Hrun | by chain_linked].
    walk mv_link (fun _ : Exn => True); [chain_linked; clear Hrun | by chain_linked].
    apply wp_bind, wp_summary_append, wp_log.
    eapply linked_step; [eassumption | apply moves_link_finish].
Qed.
End RemoteLinkTheorem.

(** ** Failures of external commands *)

(** A run that ended with a non-zero exit status. *)
Definition failed_run (e : Event) : bool :=
  match e with
  | ERun _ _ _ _ _ (Exited rc) => negb (rc =? 0)%Z
  | _ => false
  end.


(** [answered trigger resp l]: every event of [l] that is a [trigger]
    is immediately followed by an event that is a [resp]onse to it. *)
Fixpoint answered (trigger : Event -> bool) (resp : Event -> Event -> bool)
    (l : list Event) : bool :=
  match l with
  | [] => true
  | e :: l' =>
      match l' with
      | [] => negb (trigger e)
      | e' :: _ => (if trigger e then resp e e' else true) && answered trigger resp l'
      end
  end.

Section Answered.
Context (trigger : Event -> bool) (resp : Event -> Event -> bool).

Lemma answered_spec l :
  answered trigger resp l = true ->
  forall i e, l !! i = Some e -> trigger e = true ->
  exists e', l !! S i = Some e' /\ resp e e' = true.
Proof.
  induction l as [|e0 l IH]; intros H i e Hi Ht; [done|].
  destruct l as [|e1 l].
  - destruct i; [|done]. simpl in *. injection Hi as ->. by rewrite Ht in H.
  - cbn [answered] in H. apply andb_true_iff in H as [H1 H2].
    destruct i as [|i].
    + simpl in Hi. injection Hi as ->. rewrite Ht in H1. exists e1. done.
    + apply (IH H2 i e); done.
Qed.

Lemma answered_app l1 l2 :
  answered trigger resp l1 = true -> answered trigger resp l2 = true ->
  answered trigger resp (l1 ++ l2) = true.
Proof.
  induction l1 as [|e0 l1 IH]; intros H1 H2; [done|].
  destruct l1 as [|e1 l1].
  - simpl in *. apply negb_true_iff in H1. destruct l2 as [|e2 l2]; simpl.
    + by rewrite H1.
    + rewrite H1. simpl. exact H2.
  - cbn [answered] in H1. apply andb_true_iff in H1 as [Ha Hb].
    change ((e0 :: e1 :: l1) ++ l2) with (e0 :: (e1 :: l1) ++ l2).
    change ((e1 :: l1) ++ l2) with (e1 :: l1 ++ l2) at 1.
    cbn [answered]. change (e1 :: l1 ++ l2) with ((e1 :: l1) ++ l2).
    rewrite Ha. simpl. by apply IH.
Qed.

End Answered.




Ltac use_exit_status :=
  repeat match goal with
    | H : (_ =? 0)%Z = _ |- _ => rewrite H
    end.


Section BranchFailures.
Context (E : Env).

End BranchFailures.

(** The failures a project's processing tolerates without a handler of
    its own kind: any outcome of [git remote remove origin], and a
    non-zero exit of [git add -A] or of the initial [git commit]. *)
Definition is_origin_removal (e : Event) : bool :=
  match e with
  | ERun [g; r; m; o] _ _ _ _ _ =>
      String.eqb g "git" && String.eqb r "remote" && String.eqb m "remove" && String.eqb o "origin"
  | _ => false
  end.

Definition stages_or_commits (args : list string) : bool :=
  match args with
  | [g; a; f] => String.eqb g "git" && String.eqb a "add" && String.eqb f "-A"
  | [g; c; m; t] =>
      String.eqb g "git" && String.eqb c "commit" && String.eqb m "-m"
      && String.eqb t "Initial commit"
  | _ => false
  end.

Definition exited_nonzero (out : GitOutcome) : bool :=
  match out with Exited rc => negb (rc =? 0)%Z | NotStarted _ => false end.

Definition initial_commit_failed (e : Event) : bool :=
  match e with
  | ERun args _ _ _ _ out => stages_or_commits args && exited_nonzero out
  | _ => false
  end.

Definition tolerated (e : Event) : bool := is_origin_removal e || initial_commit_failed e.



Definition mv_quiet : Moves :=
  {| mv_event := fun e => tolerated e = false; mv_fs := any_rel;
     mv_account := any_rel; mv_summary := any_rel |}.

Global Instance mv_quiet_ok : MovesOK mv_quiet.
Proof. split; simpl; apply _. Qed.






Section Tolerated.
Context (E : Env) (self : ProjectProcessor) (p : Path).



End Tolerated.






Section Fatal.
Context (E : Env) (self : ProjectProcessor) (p : Path).






End Fatal.

(** ** Traces

    [tracks P] relates a state to a later one whose added events
    satisfy [P]; for a [P] that holds of the empty trace and is closed
    under concatenation it is a preorder, so that [keeps] composes. *)
Definition tracks (P : list Event -> Prop) : relation State :=
  fun s s' => exists l, st_events s' = st_events s ++ l /\ P l.

Class Closed (P : list Event -> Prop) := {
  closed_nil : P [];
  closed_app : forall l1 l2, P l1 -> P l2 -> P (l1 ++ l2)
}.

Global Instance tracks_pre P `{!Closed P} : PreOrder (tracks P).
Proof.
  split.
  - intros s. exists []. split; [by rewrite app_nil_r | apply closed_nil].
  - intros s1 s2 s3 (l1 & E1 & H1) (l2 & E2 & H2). exists (l1 ++ l2).
    split; [by rewrite E2, E1, app_assoc | by apply closed_app].
Qed.

Global Instance Forall_closed (phi : Event -> Prop) : Closed (Forall phi).
Proof. split; [constructor | intros l1 l2 H1 H2; by apply Forall_app]. Qed.

Global Instance answered_closed trigger resp :
  Closed (fun l => answered trigger resp l = true).
Proof. split; [done | apply answered_app]. Qed.

(** Every [trigger] is immediately preceded by an event it is a
    [resp]onse to. *)
Definition preceded (trigger : Event -> bool) (resp : Event -> Event -> bool)
    (l : list Event) : bool :=
  answered trigger resp (reverse l).

Global Instance preceded_closed trigger resp :
  Closed (fun l => preceded trigger resp l = true).
Proof.
  split; [done|]. intros l1 l2 H1 H2. unfold preceded in *. rewrite reverse_app.
  by apply answered_app.
Qed.

Lemma preceded_spec trigger resp l :
  preceded trigger resp l = true ->
  forall i e, l !! i = Some e -> trigger e = true ->
  exists j e', i = S j /\ l !! j = Some e' /\ resp e e' = true.
Proof.
  unfold preceded. intros H i e Hi Ht.
  assert (Hlt : (i < length l)%nat) by (by apply lookup_lt_Some in Hi).
  assert (Hi' : reverse l !! (length l - S i)%nat = Some e).
  { rewrite reverse_lookup by lia.
    by replace (length l - S (length l - S i))%nat with i by lia. }
  destruct (answered_spec trigger resp (reverse l) H _ e Hi' Ht) as (e' & He' & Hr).
  assert (Hlt' : (S (length l - S i) < length l)%nat).
  { apply lookup_lt_Some in He'. by rewrite length_reverse in He'. }
  destruct i as [|j]; [lia|]. exists j, e'. split; [done|]. split; [|done].
  rewrite reverse_lookup in He' by lia.
  by replace (length l - S (S (length l - S (S j))))%nat with j in He' by lia.
Qed.

Section Tracks.
Context (E : Env) (P : list Event -> Prop) `{!Closed P} (X : Exn -> Prop).

Lemma tracks_quiet {A} (m : M A) :
  (forall s, st_events (m s).2 = st_events s) ->
  (forall s e, (m s).1 = inl e -> X e) ->
  keeps (tracks P) X m.
Proof.
  intros Hev Hx s. split; [|apply Hx]. exists []. rewrite app_nil_r.
  split; [apply Hev | apply closed_nil].
Qed.

Lemma tracks_emit e : P [e] -> keeps (tracks P) X (emit e).
Proof. intros He s. split; [|discriminate]. by exists [e]. Qed.

Lemma tracks_log lvl msg : P [ELog lvl msg] -> keeps (tracks P) X (log lvl msg).
Proof. apply tracks_emit. Qed.

Lemma tracks_get_state : keeps (tracks P) X get_state.
Proof. by apply tracks_quiet. Qed.

Lemma tracks_is_dir p : keeps (tracks P) X (is_dir p).
Proof. by apply tracks_quiet. Qed.

Lemma tracks_path_exists p : keeps (tracks P) X (path_exists p).
Proof. by apply tracks_quiet. Qed.

Lemma tracks_iterdir p : (forall m, X (NotADirectoryError m)) -> keeps (tracks P) X (iterdir p).
Proof.
  intros HX. apply tracks_quiet; intros s; unfold iterdir;
    destruct (fs_is_dir _ _); simpl; try done. intros e [= <-]. apply HX.
Qed.

Lemma tracks_summary_append o : keeps (tracks P) X (summary_append o).
Proof. by apply tracks_quiet. Qed.

Lemma tracks_write_text p text : P [EWrite p text] -> keeps (tracks P) X (write_text p text).
Proof. intros He s. split; [|discriminate]. by exists [EWrite p text]. Qed.

Lemma tracks_run_git_cmd args cwd check cap env :
  (forall out, P [ERun args cwd check cap (overlay_of env) out]) ->
  (forall m, X (OSError m)) ->
  (check = true -> forall rc, rc <> 0%Z -> X (CalledProcessError rc args)) ->
  keeps (tracks P) X (run_git_cmd E args cwd check cap env).
Proof.
  intros He Hos Hcp s. rewrite run_git_cmd_run. simpl. split.
  - eexists. split; [reflexivity | apply He].
  - destruct (git E s args cwd _) as [rc|m]; [|intros e [= <-]; apply Hos].
    destruct (check && negb (rc =? 0)%Z)%bool eqn:Hc; [|discriminate].
    intros e [= <-]. apply andb_true_iff in Hc as [-> Hrc].
    apply Hcp; [done|]. by apply negb_true_iff, Z.eqb_neq in Hrc.
Qed.

Lemma tracks_api_get_repo name :
  P [EApi (GetRepo name)] ->
  (forall f, X (fault_exn f)) -> (forall st t, X (GithubException st t)) ->
  keeps (tracks P) X (api_get_repo E name).
Proof.
  intros He Hf HX s. unfold api_get_repo, bind, emit, get_state. simpl.
  assert (HT : tracks P s (mkState (st_fs s) (st_account s)
                             (st_events s ++ [EApi (GetRepo name)]) (st_summary s))).
  { by eexists. }
  destruct (api_refuses E s _) as [f|]; simpl.
  { split; [done|]. intros e [= <-]. apply Hf. }
  destruct (st_account s !! name); simpl; (split; [done|]); [discriminate|].
  intros e [= <-]. apply HX.
Qed.

Lemma tracks_api_create_repo login name private description auto_init :
  P [EApi (CreateRepo name private description auto_init)] ->
  (forall f, X (fault_exn f)) -> (forall st t, X (GithubException st t)) ->
  keeps (tracks P) X (api_create_repo E login name private description auto_init).
Proof.
  intros He Hf HX s. unfold api_create_repo, bind, emit, get_state, set_account. simpl.
  assert (HT : forall a, tracks P s (mkState (st_fs s) a
              (st_events s ++ [EApi (CreateRepo name private description auto_init)])
              (st_summary s))).
  { intros a. by eexists. }
  destruct (api_refuses E s _) as [f|]; simpl.
  { split; [apply HT|]. intros e [= <-]. apply Hf. }
  destruct (st_account s !! name); simpl.
  { split; [apply HT|]. intros e [= <-]. apply HX. }
  split; [apply HT | discriminate].
Qed.

Lemma tracks_api_edit repo name b :
  P [EApi (EditRepo name b)] -> (forall f, X (fault_exn f)) ->
  keeps (tracks P) X (api_edit E repo name b).
Proof.
  intros He Hf s. unfold api_edit, bind, emit, get_state, set_account. simpl.
  assert (HT : forall a, tracks P s (mkState (st_fs s) a
              (st_events s ++ [EApi (EditRepo name b)]) (st_summary s))).
  { intros a. by eexists. }
  destruct (api_refuses E s _) as [f|]; simpl.
  { split; [apply HT|]. intros e [= <-]. apply Hf. }
  split; [apply HT | discriminate].
Qed.
End Tracks.

(** The added events of a run that [tracks P]. *)
Lemma tracks_new_events P s s' : tracks P s s' -> P (new_events s s').
Proof. intros (l & Hev & Hl). by rewrite (new_events_app _ _ _ Hev). Qed.

Ltac tracks_side :=
  try apply _; simpl; intros;
  try solve [ done | reflexivity | discriminate | congruence | exact I
            | repeat constructor; simpl; done
            | by destruct_and?; eauto
            | match goal with f : Fault |- _ => by destruct f end ].

Ltac tracks_step :=
  lazymatch goal with
  | |- keeps _ _ (bind _ _) => apply keeps_bind; [apply _ | | intros ?]
  | |- keeps _ _ (ret _) => apply keeps_ret; apply _
  | |- keeps _ _ (raise _) => apply keeps_raise; [apply _ | tracks_side]
  | |- keeps _ _ (sys_exit _) => apply keeps_raise; [apply _ | tracks_side]
  | |- keeps _ _ (when _ _) => apply keeps_when; [apply _ | ]
  | |- keeps _ _ (for_each _ _) => apply keeps_for_each; [apply _ | intros ?]
  | |- keeps _ ?X (try_except _ _ _) =>
      apply (keeps_try _ _ _ _ _ X); [ | tracks_side | intros ? ? ?]
  | |- keeps _ _ (log _ _) => apply tracks_log; tracks_side
  | |- keeps _ _ (emit _) => apply tracks_emit; tracks_side
  | |- keeps _ _ get_state => apply tracks_get_state; apply _
  | |- keeps _ _ (is_dir _) => apply tracks_is_dir; apply _
  | |- keeps _ _ (path_exists _) => apply tracks_path_exists; apply _
  | |- keeps _ _ (iterdir _) => apply tracks_iterdir; tracks_side
  | |- keeps _ _ (summary_append _) => apply tracks_summary_append; apply _
  | |- keeps _ _ (write_text _ _) => apply tracks_write_text; tracks_side
  | |- keeps _ _ (run_git_cmd _ _ _ _ _ _) => apply tracks_run_git_cmd; tracks_side
  | |- keeps _ _ (api_get_repo _ _) => apply tracks_api_get_repo; tracks_side
  | |- keeps _ _ (api_create_repo _ _ _ _ _ _) => apply tracks_api_create_repo; tracks_side
  | |- keeps _ _ (api_edit _ _ _ _) => apply tracks_api_edit; tracks_side
  | |- keeps _ _ (match ?x with _ => _ end) => destruct x eqn:?
  | |- keeps _ _ (let _ := _ in _) => cbv zeta
  end.

Ltac tracks_auto :=
  unfold process_project, _has_commits, _do_branch_operations, create_repo, report_summary;
  cbv zeta; repeat tracks_step.

Lemma keeps_wp {A} (T : relation State) (X : Exn -> Prop) (m : M A) :
  (forall s, wp m s (fun r s' => T s s' /\ forall e, r = inl e -> X e)) -> keeps T X m.
Proof. intros H s. apply H. Qed.

(** ** How a branch operation is carried out *)

(** A branch operation: its commands, the record logged when all of
    them exited with status zero, and the warning logged otherwise. *)
Record Operation := mkOperation {
  op_commands : list (list string);
  op_done : string;
  op_failed : string
}.

Definition create_operation (name : string) : Operation :=
  {| op_commands := [["git"; "checkout"; "-b"; name]; ["git"; "push"; "-u"; "origin"; name]];
     op_done := "Created and pushed branch " +:+ name;
     op_failed := "Could not create branch " +:+ name |}.

Definition rename_operation (old new : string) : Operation :=
  {| op_commands := [["git"; "branch"; "-m"; old; new];
                     ["git"; "push"; "origin"; ":" +:+ old];
                     ["git"; "push"; "-u"; "origin"; new]];
     op_done := "Renamed branch " +:+ old +:+ " -> " +:+ new;
     op_failed := "Could not rename branch " +:+ old +:+ " -> " +:+ new |}.

Definition switch_operation (name : string) : Operation :=
  {| op_commands := [["git"; "checkout"; name]];
     op_done := "Switched to branch " +:+ name;
     op_failed := "Could not switch to branch " +:+ name |}.

(** The operations a request asks for, in the order of the source. *)
Definition requested_operations (d : BranchOps) : list Operation :=
  match bo_create d with
  | Some name => if Py.truthy name then [create_operation name] else []
  | None => []
  end ++
  match bo_rename d with
  | Some (old, new) => [rename_operation old new]
  | None => []
  end ++
  match bo_switch d with
  | Some name => if Py.truthy name then [switch_operation name] else []
  | None => []
  end.

(** The trace of an operation that is applied in [cwd]: its commands
    run one after the other, checked and in the inherited environment,
    as long as they exit with status zero; after the last one the
    success is logged; a command that exits non-zero is the last one
    run, and the warning is logged instead. *)
Fixpoint carried_out (cwd : Path) (cmds : list (list string)) (done failed : string)
    (l : list Event) : Prop :=
  match cmds with
  | [] => l = [ELog INFO done]
  | c :: cmds' =>
      exists rc l',
        l = ERun c cwd true false [] (Exited rc) :: l' /\
        if (rc =? 0)%Z then carried_out cwd cmds' done failed l'
        else l' = [ELog WARNING failed]
  end.

(** The trace of a sequence of operations, each applied in turn. *)
Fixpoint operations_trace (cwd : Path) (ops : list Operation) (l : list Event) : Prop :=
  match ops with
  | [] => l = []
  | o :: ops' =>
      exists l1 l2,
        l = l1 ++ l2 /\
        carried_out cwd (op_commands o) (op_done o) (op_failed o) l1 /\
        operations_trace cwd ops' l2
  end.

Lemma operations_trace_app cwd ops1 ops2 l1 l2 :
  operations_trace cwd ops1 l1 -> operations_trace cwd ops2 l2 ->
  operations_trace cwd (ops1 ++ ops2) (l1 ++ l2).
Proof.
  revert l1. induction ops1 as [|o ops1 IH]; intros l1 H1 H2; simpl in *.
  - by subst.
  - destruct H1 as (la & lb & -> & Ha & Hb). exists la, (lb ++ l2).
    rewrite <- app_assoc. auto.
Qed.

(** A block of branch commands that ends normally has applied [ops]. *)
Definition carried (cwd : Path) (s : State) (ops : list Operation) (r : Exn + unit)
    (s' : State) : Prop :=
  exists l, st_events s' = st_events s ++ l /\
            match r with
            | inr _ => operations_trace cwd ops l
            | inl _ => True
            end.

Lemma carried_seq cwd (m k : M unit) s ops1 ops2 :
  wp m s (carried cwd s ops1) -> (forall s1, wp k s1 (carried cwd s1 ops2)) ->
  wp (m ;; k)%prog s (carried cwd s (ops1 ++ ops2)).
Proof.
  intros Hm Hk. apply wp_bind. unfold wp in *.
  destruct (m s) as [[e|[]] s1]; simpl in *.
  { destruct Hm as (l1 & E1 & _). by exists l1. }
  destruct Hm as [l1 [E1 H1]]. specialize (Hk s1).
  destruct (k s1) as [r s2]; simpl in *. destruct Hk as [l2 [E2 H2]].
  exists (l1 ++ l2). rewrite E2, E1, app_assoc. split; [done|].
  destruct r as [e|[]]; [done|]. by apply operations_trace_app.
Qed.

Lemma carried_ret cwd s : wp (ret tt) s (carried cwd s []).
Proof. exists []. by rewrite app_nil_r. Qed.

Ltac carried_done :=
  unfold carried, after_run, add_event; simpl;
  eexists; split; [rewrite <- ?app_assoc; simpl; reflexivity|];
  first
    [ exact I
    | eexists _, []; rewrite app_nil_r; split; [reflexivity|]; split; [|done];
      simpl;
      repeat (eexists _, _; split; [reflexivity|]; use_exit_status; simpl);
      reflexivity ].

Section Carried.
Context (E : Env).

Lemma create_carried cwd name s :
  wp (try_except
        (run_git_cmd E ["git"; "checkout"; "-b"; name] cwd true false None ;;
         run_git_cmd E ["git"; "push"; "-u"; "origin"; name] cwd true false None ;;
         log INFO ("Created and pushed branch " +:+ name))%prog
        is_CalledProcessError
        (fun _ => log WARNING ("Could not create branch " +:+ name))) s
     (carried cwd s [create_operation name]).
Proof.
  apply wp_try, wp_bind. run_step; [|apply wp_log; carried_done|carried_done].
  apply wp_bind. run_step; [|apply wp_log; carried_done|carried_done].
  apply wp_log. carried_done.
Qed.

Lemma rename_carried cwd old new s :
  wp (try_except
        (run_git_cmd E ["git"; "branch"; "-m"; old; new] cwd true false None ;;
         run_git_cmd E ["git"; "push"; "origin"; ":" +:+ old] cwd true false None ;;
         run_git_cmd E ["git"; "push"; "-u"; "origin"; new] cwd true false None ;;
         log INFO ("Renamed branch " +:+ old +:+ " -> " +:+ new))%prog
        is_CalledProcessError
        (fun _ => log WARNING ("Could not rename branch " +:+ old +:+ " -> " +:+ new))) s
     (carried cwd s [rename_operation old new]).
Proof.
  apply wp_try, wp_bind. run_step; [|apply wp_log; carried_done|carried_done].
  apply wp_bind. run_step; [|apply wp_log; carried_done|carried_done].
  apply wp_bind. run_step; [|apply wp_log; carried_done|carried_done].
  apply wp_log. carried_done.
Qed.

Lemma switch_carried cwd name s :
  wp (try_except
        (run_git_cmd E ["git"; "checkout"; name] cwd true false None ;;
         log INFO ("Switched to branch " +:+ name))%prog
        is_CalledProcessError
        (fun _ => log WARNING ("Could not switch to branch " +:+ name))) s
     (carried cwd s [switch_operation name]).
Proof.
  apply wp_try, wp_bind. run_step; [|apply wp_log; carried_done|carried_done].
  apply wp_log. carried_done.
Qed.

Lemma do_branch_operations_carried self cwd s :
  wp (_do_branch_operations E self cwd) s
     (carried cwd s (requested_operations (do_branch_ops self))).
Proof.
  unfold _do_branch_operations, requested_operations, branch_ops_empty.
  destruct (do_branch_ops self) as [c r w]. simpl.
  assert (Hc : forall s1,
    wp (match c with
        | Some name =>
            when (Py.truthy name)
              (try_except
                 (run_git_cmd E ["git"; "checkout"; "-b"; name] cwd true false None ;;
                  run_git_cmd E ["git"; "push"; "-u"; "origin"; name] cwd true false None ;;
                  log INFO ("Created and pushed branch " +:+ name))%prog
                 is_CalledProcessError
                 (fun _ => log WARNING ("Could not create branch " +:+ name)))
        | None => ret tt
        end) s1
       (carried cwd s1 match c with
                       | Some name => if Py.truthy name then [create_operation name] else []
                       | None => []
                       end)).
  { intros s1. destruct c as [name|]; [|apply carried_ret].
    destruct (Py.truthy name); [apply create_carried | apply carried_ret]. }
  assert (Hr : forall s1,
    wp (match r with
        | Some (old, new) =>
            try_except
              (run_git_cmd E ["git"; "branch"; "-m"; old; new] cwd true false None ;;
               run_git_cmd E ["git"; "push"; "origin"; ":" +:+ old] cwd true false None ;;
               run_git_cmd E ["git"; "push"; "-u"; "origin"; new] cwd true false None ;;
               log INFO ("Renamed branch " +:+ old +:+ " -> " +:+ new))%prog
              is_CalledProcessError
              (fun _ => log WARNING ("Could not rename branch " +:+ old +:+ " -> " +:+ new))
        | None => ret tt
        end) s1
       (carried cwd s1 match r with
                       | Some (old, new) => [rename_operation old new]
                       | None => []
                       end)).
  { intros s1. destruct r as [[old new]|]; [apply rename_carried | apply carried_ret]. }
  assert (Hw : forall s1,
    wp (match w with
        | Some name =>
            when (Py.truthy name)
              (try_except
                 (run_git_cmd E ["git"; "checkout"; name] cwd true false None ;;
                  log INFO ("Switched to branch " +:+ name))%prog
                 is_CalledProcessError
                 (fun _ => log WARNING ("Could not switch to branch " +:+ name)))
        | None => ret tt
        end) s1
       (carried cwd s1 match w with
                       | Some name => if Py.truthy name then [switch_operation name] else []
                       | None => []
                       end)).
  { intros s1. destruct w as [name|]; [|apply carried_ret].
    destruct (Py.truthy name); [apply switch_carried | apply carried_ret]. }
  assert (Hall : wp (match c with
        | Some name =>
            when (Py.truthy name)
              (try_except
                 (run_git_cmd E ["git"; "checkout"; "-b"; name] cwd true false None ;;
                  run_git_cmd E ["git"; "push"; "-u"; "origin"; name] cwd true false None ;;
                  log INFO ("Created and pushed branch " +:+ name))%prog
                 is_CalledProcessError
                 (fun _ => log WARNING ("Could not create branch " +:+ name)))
        | None => ret tt
        end ;;
        match r with
        | Some (old, new) =>
            try_except
              (run_git_cmd E ["git"; "branch"; "-m"; old; new] cwd true false None ;;
               run_git_cmd E ["git"; "push"; "origin"; ":" +:+ old] cwd true false None ;;
               run_git_cmd E ["git"; "push"; "-u"; "origin"; new] cwd true false None ;;
               log INFO ("Renamed branch " +:+ old +:+ " -> " +:+ new))%prog
              is_CalledProcessError
              (fun _ => log WARNING ("Could not rename branch " +:+ old +:+ " -> " +:+ new))
        | None => ret tt
        end ;;
        match w with
        | Some name =>
            when (Py.truthy name)
              (try_except
                 (run_git_cmd E ["git"; "checkout"; name] cwd true false None ;;
                  log INFO ("Switched to branch " +:+ name))%prog
                 is_CalledProcessError
                 (fun _ => log WARNING ("Could not switch to branch " +:+ name)))
        | None => ret tt
        end)%prog s
       (carried cwd s (match c with
                       | Some name => if Py.truthy name then [create_operation name] else []
                       | None => []
                       end ++
                       match r with
                       | Some (old, new) => [rename_operation old new]
                       | None => []
                       end ++
                       match w with
                       | Some name => if Py.truthy name then [switch_operation name] else []
                       | None => []
                       end))).
  { apply carried_seq; [apply Hc|]. intros s1. apply carried_seq; [apply Hr | apply Hw]. }
  destruct c as [?|], r as [[? ?]|], w as [?|]; simpl; exact Hall.
Qed.
End Carried.

Section Applied.
Context (E : Env) (self : ProjectProcessor).

(** After the push of a successfully processed project and its record,
    the requested operations are applied one after the other, and the
    record of the project's end follows the last of them. *)
Lemma process_project_operations p s :
  (process_project E self p s).1 = inr tt ->
  exists pre ov applied,
    new_events s (process_project E self p s).2 =
      pre ++ ERun ["git"; "push"; "-u"; "origin"; branch_of self p] p true false ov (Exited 0)
          :: ELog INFO ("Pushed " +:+ path_name p +:+ " to origin/" +:+ branch_of self p)
          :: applied ++ [ELog INFO ("=== Finished: " +:+ path_name p +:+ " ===" +:+ nl)] /\
    operations_trace p (requested_operations (do_branch_ops self)) applied /\
    omap branch_op_of applied = requested_ops (do_branch_ops self).
Proof.
  assert (H : wp (process_project E self p) s (fun r s' =>
    r = inr tt ->
    exists pre ov applied,
      st_events s' = st_events s ++
        pre ++ ERun ["git"; "push"; "-u"; "origin"; branch_of self p] p true false ov (Exited 0)
            :: ELog INFO ("Pushed " +:+ path_name p +:+ " to origin/" +:+ branch_of self p)
            :: applied ++ [ELog INFO ("=== Finished: " +:+ path_name p +:+ " ===" +:+ nl)] /\
      operations_trace p (requested_operations (do_branch_ops self)) applied /\
      omap branch_op_of applied = requested_ops (do_branch_ops self))).
  2:{ unfold wp in H. intros Hr. destruct (H Hr) as (pre & ov & applied & Hev & Hops).
      exists pre, ov, applied. split; [|done]. by apply new_events_app. }
  unfold process_project. cbv zeta. fold (branch_of self p).
  apply wp_bind, wp_log.
  set (s1 := add_event s _).
  assert (HT : moves mv_any s s1).
  { repeat split; simpl; try done. eexists. split; [done|]. by repeat constructor. }
  clearbody s1. revert HT. generalize s1. clear s1. intros s1 HT.
  do 6 (walk mv_any (fun _ : Exn => True); [chain; clear Hrun | done]).
  match goal with HT : moves _ s _ |- _ => apply moves_events in HT as [pre Hpre] end.
  apply wp_bind, wp_try, wp_bind. run_step; [| done | done].
  match goal with H : (_ =? 0)%Z = true |- _ => apply Z.eqb_eq in H; subst end.
  apply wp_log. simpl.
  set (sp := add_event _ _).
  apply wp_bind.
  pose proof (do_branch_operations_opened E self p sp) as Ho.
  pose proof (do_branch_operations_carried E self p sp) as Hc.
  unfold wp in *.
  destruct (_do_branch_operations E self p sp) as [[e|[]] sb]; simpl in *; [done|].
  destruct Ho as [lo [Hevo Hops]], Hc as [lc [Hevc Htrace]].
  assert (lo = lc) as -> by (apply (app_inv_head (st_events sp)); congruence).
  intros _. exists pre. eexists. exists lc.
  unfold summary_append, log, add_event, bind. simpl. rewrite Hevc. subst sp.
  unfold add_event, after_run. simpl. rewrite Hpre, <- !app_assoc. simpl.
  split; [reflexivity|]. done.
Qed.
End Applied.

(** ** The two sites of [git checkout -b BRANCH] *)

(** A run of [git add -A] that exited with status zero: the block of
    the initial commit goes on to create the branch. *)
Definition staged (e : Event) : bool :=
  match e with
  | ERun [g; a; f] _ _ _ _ out =>
      String.eqb g "git" && String.eqb a "add" && String.eqb f "-A"
      && match out with Exited rc => (rc =? 0)%Z | NotStarted _ => false end
  | _ => false
  end.

Definition commit_warning : Event :=
  ELog WARNING "Initial commit failed or nothing to commit; continuing".

(** In the trace [l] every successful [git add -A] is followed at once
    by the run of [git checkout -b branch] in [cwd], and when that run
    exits non-zero the warning of the initial commit comes next. *)
Fixpoint block_tolerated (cwd : Path) (branch : string) (l : list Event) : Prop :=
  match l with
  | [] => True
  | e :: l' =>
      (staged e = true ->
       exists out l'',
         l' = ERun ["git"; "checkout"; "-b"; branch] cwd true false [] out :: l'' /\
         (exited_nonzero out = true -> exists l3, l'' = commit_warning :: l3)) /\
      block_tolerated cwd branch l'
  end.

Lemma block_tolerated_app cwd branch l1 l2 :
  block_tolerated cwd branch l1 -> block_tolerated cwd branch l2 ->
  block_tolerated cwd branch (l1 ++ l2).
Proof.
  intros H1 H2. induction l1 as [|e l1 IH]; [done|].
  destruct H1 as [He H1]. split; [|by apply IH].
  intros Hs. destruct (He Hs) as (out & l'' & -> & Hw).
  exists out, (l'' ++ l2). split; [done|].
  intros Hout. destruct (Hw Hout) as [l3 ->]. by exists (l3 ++ l2).
Qed.

Global Instance block_tolerated_closed cwd branch : Closed (block_tolerated cwd branch).
Proof. split; [done | apply block_tolerated_app]. Qed.





Section CheckoutSites.
Context (E : Env) (self : ProjectProcessor) (p : Path).

End CheckoutSites.


Section CheckoutSitesOfAProject.
Context (E : Env) (self : ProjectProcessor) (p : Path).

End CheckoutSitesOfAProject.

Section Fallback.
Context (E : Env) (self : ProjectProcessor) (p : Path).



End Fallback.

(** ** The claims about one project *)

Section ProjectClaims.
Context (E : Env) (self : ProjectProcessor).

(** C3, as amended.  When the processing of a project succeeds, its
    events end with the initial push and its record, the trace of the
    requested branch operations, and the record of the project's end.
    The operations are those the request contains, each once, in the
    order create, rename, switch: a request with two or three of them
    has them all applied.  An operation is applied command by command
    (create: [checkout -b], [push -u]; rename: [branch -m], the push
    that deletes the old name, [push -u] of the new one; switch:
    [checkout]): when all of them exit with status zero its success is
    logged; the first one that exits non-zero ends the operation with
    its warning, and the next operation is applied all the same. *)
Theorem branch_operations_all_applied (p : Path) (s : State) :
  (process_project E self p s).1 = inr tt ->
  exists pre ov applied,
    new_events s (process_project E self p s).2 =
      pre ++ ERun ["git"; "push"; "-u"; "origin"; branch_of self p] p true false ov (Exited 0)
          :: ELog INFO ("Pushed " +:+ path_name p +:+ " to origin/" +:+ branch_of self p)
          :: applied ++ [ELog INFO ("=== Finished: " +:+ path_name p +:+ " ===" +:+ nl)] /\
    operations_trace p (requested_operations (do_branch_ops self)) applied /\
    omap branch_op_of applied = requested_ops (do_branch_ops self).
Proof. apply process_project_operations. Qed.


(** C7.  Whenever the processing of a project runs
    [git remote add origin URL], the account holds a repository under
    the project's name, the handle [create_repo] returned, whose SSH
    clone URL is [URL] when the protocol is SSH and whose HTTPS clone
    URL is [URL] when the protocol is HTTPS and no token is embedded;
    with HTTPS, the embedding flag and a non-empty token, an HTTPS
    clone URL [https://REST] has become [https://TOKEN@REST] (the
    token in the credential position), [REST] itself unchanged when it
    holds no further [https://]. *)
Theorem remote_url_matches_protocol (p : Path) (s : State) url cwd chk cap ov out :
  ERun ["git"; "remote"; "add"; "origin"; url] cwd chk cap ov out
    ∈ new_events s (process_project E self p s).2 ->
  exists repo,
    st_account (process_project E self p s).2 !! path_name p = Some repo /\
    url_matches self repo url.
Proof.
  intros H. by apply (process_project_linked E self p s) in H.
Qed.
End ProjectClaims.

(** C4.  [create_repo] with the defaults of the source (empty
    description, no auto-initialisation).  When the account already
    holds a repository under [name], the account is unchanged, no
    editing call is made and no other handle than that repository is
    returned; when the lookup is answered, that repository is the
    result and no creating call is made either (a lookup that fails is
    taken for absence by the source: the creation is then requested
    and refused, the name being taken).  When the account holds none,
    the lookup is followed by one creation request for [name] with the
    requested visibility and [auto_init = false]; a returned handle is
    then stored under [name] with these settings, a non-refused
    creation returns one, and no other repository of the account
    changes. *)
Theorem create_repo_idempotent (E : Env) (gm : GitHubManager) (name : string) (private : bool)
    (default_branch : option string) (s : State) :
  let res := create_repo E gm name private "" false default_branch s in
  (forall r, st_account s !! name = Some r ->
     st_account res.2 = st_account s /\
     Forall (fun e => is_edit e = false) (new_events s res.2) /\
     (forall r', res.1 = inr r' -> r' = r) /\
     (api_refuses E s (GetRepo name) = None ->
        res.1 = inr r /\ Forall (fun e => is_create e = false) (new_events s res.2))) /\
  (st_account s !! name = None ->
     (exists l, new_events s res.2 =
                EApi (GetRepo name) :: EApi (CreateRepo name private "" false) :: l /\
                Forall (fun e => is_create e = false) l) /\
     (forall r, res.1 = inr r ->
        st_account res.2 !! name = Some r /\ repo_name r = name /\
        repo_private r = private /\ repo_auto_init r = false) /\
     (api_refuses E (add_event s (EApi (GetRepo name))) (CreateRepo name private "" false)
        = None -> exists r, res.1 = inr r) /\
     (forall other, other <> name -> st_account res.2 !! other = st_account s !! other)).
Proof.
  simpl. split.
  - intros r Hr. destruct (api_refuses E s (GetRepo name)) as [f|] eqn:Hf.
    + destruct (create_repo_existing_refused E gm name private "" false default_branch
                  s r f Hr Hf) as [[e He] Hs].
      rewrite He, Hs. simpl. split; [done|]. split.
      * erewrite new_events_app; [|simpl; by rewrite <- app_assoc]. by repeat constructor.
      * split; discriminate.
    + rewrite (create_repo_existing E gm name private "" false default_branch s r Hr Hf).
      simpl. split; [done|].
      assert (Hev : new_events s (add_event (add_event s (EApi (GetRepo name)))
                      (ELog INFO ("Repo already exists on GitHub: " +:+ name))) =
                    [EApi (GetRepo name);
                     ELog INFO ("Repo already exists on GitHub: " +:+ name)]).
      { apply new_events_app. simpl. by rewrite <- app_assoc. }
      rewrite Hev. split; [by repeat constructor|]. split; [by intros r' [= <-]|].
      intros _. split; [done | by repeat constructor].
  - intros Hnone.
    destruct (create_repo_absent E gm name private "" false default_branch s Hnone)
      as (Hev & Hres & Hok & Hother).
    split; [exact Hev|]. split; [|split; [exact Hok | exact Hother]].
    intros r' Hr'. by destruct (Hres r' Hr') as (? & ? & ? & ? & ?).
Qed.

(** ** The placeholder file *)

Definition is_write (e : Event) : bool :=
  match e with EWrite _ _ => true | _ => false end.

(** The file system gains entries but none at [q]. *)
Definition fs_grows_off (q : Path) : relation (gmap Path Kind) :=
  fun f f' => fs_grows f f' /\ f' !! q = f !! q.

Global Instance fs_grows_off_pre q : PreOrder (fs_grows_off q).
Proof.
  split.
  - intros f. split; [reflexivity | done].
  - intros f g h [H1 E1] [H2 E2]. split; [by etransitivity | by rewrite E2].
Qed.

Lemma git_fs_effect_off E args cwd out fs (p : Path) :
  fs_grows_off (p // "README.md") fs (git_fs_effect E args cwd out fs).
Proof.
  split; [apply git_fs_effect_grows|].
  unfold git_fs_effect. destruct out as [[| |]|]; try done.
  destruct (decide _); [|done]. destruct (fs_exists _ _ || negb _)%bool; [done|].
  apply lookup_insert_ne. unfold path_join. intros H.
  apply app_inj_tail in H as [_ H]. discriminate.
Qed.

(** Steps that write no file and leave the placeholder's path alone. *)
Definition mv_nowrite (p : Path) : Moves :=
  {| mv_event := fun e => is_write e = false; mv_fs := fs_grows_off (p // "README.md");
     mv_account := any_rel; mv_summary := any_rel |}.

Global Instance mv_nowrite_ok p : MovesOK (mv_nowrite p).
Proof. split; simpl; apply _. Qed.

Lemma nonempty_with_git (fs : gmap Path Kind) (p : Path) :
  fs_exists fs (p // ".git") = true ->
  existsb (fun _ : Path => true) (fs_children fs p) = true.
Proof.
  intros H. apply bool_decide_eq_true in H.
  assert (Hin : p // ".git" ∈ fs_children fs p) by (apply fs_children_spec; eauto).
  destruct (fs_children fs p); [by apply not_elem_of_nil in Hin | done].
Qed.

Ltac keeps_nowrite_step :=
  first
    [ lazymatch goal with
      | |- keeps _ _ (run_git_cmd _ _ _ _ _ _) =>
          apply keeps_run_git_cmd;
          [apply _ | keeps_side | intros; apply git_fs_effect_off | keeps_side | keeps_side]
      end
    | keeps_step ].

Ltac keeps_nowrite :=
  unfold _has_commits, _do_branch_operations, create_repo, report_summary;
  cbv zeta; repeat keeps_nowrite_step.

Definition unwritten (p : Path) (s s' : State) : Prop :=
  moves (mv_nowrite p) s s' /\ fs_exists (st_fs s') (p // ".git") = true.

Lemma unwritten_step p s s1 s2 :
  unwritten p s s1 -> moves (mv_nowrite p) s1 s2 -> unwritten p s s2.
Proof.
  intros [H1 Hgit] H2. split; [by etransitivity|].
  destruct H2 as (_ & [Hgrow _] & _). apply bool_decide_eq_true.
  apply Hgrow. by apply bool_decide_eq_true in Hgit.
Qed.

Lemma wp_iterdir p s (Q : Exn + list Path -> State -> Prop) :
  (fs_is_dir (st_fs s) p = true -> Q (inr (fs_children (st_fs s) p)) s) ->
  (fs_is_dir (st_fs s) p = false -> Q (inl (NotADirectoryError (path_str p))) s) ->
  wp (iterdir p) s Q.
Proof. unfold wp, iterdir. destruct (fs_is_dir (st_fs s) p); simpl; auto. Qed.

Lemma wp_path_exists p s (Q : Exn + bool -> State -> Prop) :
  Q (inr (fs_exists (st_fs s) p)) s -> wp (path_exists p) s Q.
Proof. done. Qed.

Lemma moves_add_event mv `{!MovesOK mv} s e :
  mv_event mv e -> moves mv s (add_event s e).
Proof.
  intros He. split; [|repeat split; reflexivity].
  exists [e]. split; [done|]. by constructor.
Qed.

Lemma moves_after_run E mv `{!MovesOK mv} s args cwd chk cap ov out :
  mv_event mv (ERun args cwd chk cap ov out) ->
  mv_fs mv (st_fs s) (git_fs_effect E args cwd out (st_fs s)) ->
  moves mv s (after_run E s args cwd chk cap ov out).
Proof.
  intros He Hf. split; [|repeat split; try reflexivity; exact Hf].
  eexists. split; [reflexivity|]. by constructor.
Qed.

Lemma wp_keeps_last {A} (T : relation State) (X : Exn -> Prop) (m : M A) s
    (Q : Exn + A -> State -> Prop) :
  keeps T X m -> (forall r s1, T s s1 -> Q r s1) -> wp m s Q.
Proof. intros Hm HQ. apply HQ, Hm. Qed.

Ltac next_unwritten :=
  eapply (wp_keeps (moves (mv_nowrite _)) (fun _ => True));
  [ keeps_nowrite
  | intros ? ? Hstep _;
    match goal with HU : unwritten _ _ _ |- _ =>
      let H' := fresh "HU" in
      pose proof (unwritten_step _ _ _ _ HU Hstep) as H'; clear HU Hstep end
  | intros ? ? Hstep _;
    match goal with HU : unwritten _ _ _ |- _ =>
      exact (proj1 (unwritten_step _ _ _ _ HU Hstep)) end ].

Section Placeholder.
Context (E : Env) (self : ProjectProcessor) (p : Path).
(** [git init] leaves the repository in the folder, as it does by
    default. *)
Context (Hplace : git_init_in_place E = true).

Lemma process_project_writes_nothing s :
  wp (process_project E self p) s (fun _ s' => moves (mv_nowrite p) s s').
Proof.
  unfold process_project. cbv zeta. fold (branch_of self p).
  apply wp_bind, wp_log.
  set (s1 := add_event s _).
  assert (HT : moves (mv_nowrite p) s s1).
  { split; [|by repeat split]. eexists. split; [done|]. by repeat constructor. }
  clearbody s1. revert HT. generalize s1. clear s1. intros s1 HT.
  (* 1) afterwards [.git] exists *)
  apply wp_bind, wp_bind, wp_path_exists.
  assert (Hstep1 : forall sa, moves (mv_nowrite p) s1 sa ->
            fs_exists (st_fs sa) (p // ".git") = true -> unwritten p s sa).
  { intros sa Ha Hgit. split; [by etransitivity | done]. }
  assert (Hrest : forall sa, unwritten p s sa ->
    wp (match git_name self with
        | Some n => if Py.truthy n
                    then run_git_cmd E ["git"; "config"; "user.name"; n] p true false None ;;
                         ret tt
                    else ret tt
        | None => ret tt
        end ;;
        match git_email self with
        | Some m => if Py.truthy m
                    then run_git_cmd E ["git"; "config"; "user.email"; m] p true false None ;;
                         ret tt
                    else ret tt
        | None => ret tt
        end ;;
        has_commits <- _has_commits E p ;;
        (if negb has_commits then
           (entries <- iterdir p ;;
            when (negb (existsb (fun _ => true) entries))
              (write_text (p // "README.md")
                 ("# " +:+ path_name p +:+ nl +:+ nl +:+
                  "Initial commit by git-automation CLI" +:+ nl))) ;;
           try_except
             (run_git_cmd E ["git"; "add"; "-A"] p true false None ;;
              run_git_cmd E ["git"; "checkout"; "-b"; branch_of self p] p true false None ;;
              run_git_cmd E ["git"; "commit"; "-m"; "Initial commit"] p true false None ;;
              ret tt)
             is_CalledProcessError
             (fun _ => log WARNING "Initial commit failed or nothing to commit; continuing")
         else
           try_except
             (run_git_cmd E ["git"; "checkout"; branch_of self p] p true false None ;; ret tt)
             is_CalledProcessError
             (fun _ => run_git_cmd E ["git"; "checkout"; "-b"; branch_of self p] p true false
                         None ;;
                       ret tt)) ;;
        match github_manager self with
        | Some gm =>
            repo <- create_repo E gm (path_name p) (private self) "" false
                      (Some (branch_of self p)) ;;
            try_except
              (run_git_cmd E ["git"; "remote"; "remove"; "origin"] p false false None ;;
               ret tt)
              is_Exception (fun _ => ret tt) ;;
            run_git_cmd E ["git"; "remote"; "add"; "origin";
              match token self with
              | Some tok =>
                  if (String.eqb (protocol self) "HTTPS" && push_via_token_in_https self
                      && Py.truthy tok)%bool
                  then Py.replace (if String.eqb (protocol self) "SSH" then ssh_url repo
                                   else clone_url repo)
                         "https://" ("https://" +:+ tok +:+ "@")
                  else if String.eqb (protocol self) "SSH" then ssh_url repo
                       else clone_url repo
              | None => if String.eqb (protocol self) "SSH" then ssh_url repo
                        else clone_url repo
              end] p true false None ;;
            log INFO ("Remote origin set to: " +:+
              match token self with
              | Some tok =>
                  if (String.eqb (protocol self) "HTTPS" && push_via_token_in_https self
                      && Py.truthy tok)%bool
                  then Py.replace (if String.eqb (protocol self) "SSH" then ssh_url repo
                                   else clone_url repo)
                         "https://" ("https://" +:+ tok +:+ "@")
                  else if String.eqb (protocol self) "SSH" then ssh_url repo
                       else clone_url repo
              | None => if String.eqb (protocol self) "SSH" then ssh_url repo
                        else clone_url repo
              end)
        | None => ret tt
        end ;;
        try_except
          (run_git_cmd E ["git"; "push"; "-u"; "origin"; branch_of self p] p true false
             (if (String.eqb (protocol self) "HTTPS"
                  && negb (push_via_token_in_https self))%bool
              then Some [("GIT_TERMINAL_PROMPT", "0")] else None) ;;
           log INFO ("Pushed " +:+ path_name p +:+ " to origin/" +:+ branch_of self p))
          is_CalledProcessError
          (fun e => raise (RuntimeError
                             ("Failed to push " +:+ path_name p +:+ ": " +:+ str_exn E e))) ;;
        _do_branch_operations E self p ;;
        summary_append (path_name p, true, "OK") ;;
        log INFO ("=== Finished: " +:+ path_name p +:+ " ===" +:+ nl))%prog sa
       (fun _ s' => moves (mv_nowrite p) s s')).
  { intros sa HU.
    do 3 next_unwritten.
    destruct a1; simpl.
    - do 4 next_unwritten.
      apply wp_bind, wp_summary_append, wp_log.
      match goal with HU : unwritten _ _ _ |- _ => destruct HU as [Hmv _] end.
      etransitivity; [exact Hmv|].
      split; [|by repeat split]. eexists. split; [done|]. by repeat constructor.
    - match goal with HU : unwritten _ _ ?b |- _ =>
        pose proof (proj2 HU) as Hgit; pose proof (proj1 HU) as Hmv
      end.
      apply wp_bind, wp_bind, wp_bind, wp_iterdir; [intros _ | intros _; exact Hmv].
      rewrite (nonempty_with_git _ _ Hgit). simpl. apply wp_ret. clear Hgit Hmv.
      eapply (wp_keeps_last (moves (mv_nowrite p)) (fun _ => True)); [keeps_nowrite|].
      intros r sb Hstep.
      match goal with HU : unwritten _ _ _ |- _ =>
        pose proof (unwritten_step _ _ _ _ HU Hstep) as HU'; clear HU Hstep end.
      destruct r as [e|[]]; [exact (proj1 HU')|].
      do 3 next_unwritten.
      apply wp_bind, wp_summary_append, wp_log.
      match goal with HU : unwritten _ _ _ |- _ => destruct HU as [Hmv _] end.
      etransitivity; [exact Hmv|].
      split; [|by repeat split]. eexists. split; [done|]. by repeat constructor. }
  destruct (fs_exists (st_fs s1) (p // ".git")) eqn:Hgit; simpl.
  - apply wp_log, Hrest, Hstep1; [|done]. apply moves_add_event; [apply _ | done].
  - assert (Hmv : forall out,
      moves (mv_nowrite p) s
        (after_run E (add_event s1 (ELog INFO ".git not found -> initializing git repository"))
           ["git"; "init"] p true false [] out)).
    { intros out. etransitivity; [exact HT|].
      transitivity (add_event s1 (ELog INFO ".git not found -> initializing git repository"));
        [apply moves_add_event; [apply _ | done]|].
      apply moves_after_run; [apply _ | reflexivity | apply git_fs_effect_off]. }
    apply wp_bind, wp_log, wp_bind. run_step; [|apply Hmv..].
    apply wp_ret, Hrest. split; [apply Hmv|].
    match goal with H : (_ =? 0)%Z = true |- _ => apply Z.eqb_eq in H; subst end.
    unfold after_run, add_event, git_fs_effect. simpl.
    rewrite Hgit, Hplace. simpl. apply bool_decide_eq_true. rewrite lookup_insert_eq. eauto.
Qed.
End Placeholder.

(** ** The entry point *)

(** The token the run works with, when one can be obtained: the
    literal one, else the value of the named environment variable,
    else what is typed at the prompt (never with [--yes]); an empty
    value is no token. *)
Definition token_source (E : Env) (args : Args) : option string :=
  if Py.otruthy (a_token args) then a_token args
  else if Py.otruthy (a_token_from_env args) then
    match a_token_from_env args with
    | Some var =>
        match environ E !! var with
        | Some t => if Py.truthy t then Some t else None
        | None => None
        end
    | None => None
    end
  else if a_yes args then None
  else match getpass_reply E with
       | Some t => if Py.truthy t then Some t else None
       | None => None
       end.

(** The hosting service accepts the token (and PyGithub is there). *)
Definition authenticates (E : Env) (tok : string) : bool :=
  pygithub_installed E &&
  match authenticate E tok with inr _ => true | inl _ => false end.

Definition parent_not_directory (E : Env) (args : Args) (s : State) : Prop :=
  fs_is_dir (st_fs s) (resolve E (a_parent args)) = false.

Definition no_token (E : Env) (args : Args) : Prop := token_source E args = None.

Definition authentication_fails (E : Env) (args : Args) : Prop :=
  exists tok, token_source E args = Some tok /\ authenticates E tok = false.


(** The user answers the prompt with something else. *)
Definition declined (E : Env) (args : Args) : bool :=
  negb (a_yes args) &&
  match input_reply E with
  | Some reply => negb (bool_decide (Py.lower reply ∈ ["y"; "yes"]))
  | None => false
  end.


Definition is_summary_line (e : Event) : bool :=
  match e with
  | ELog INFO m => String.prefix (nl +:+ "=== Summary") m
  | _ => false
  end.


(** An event of a project's processing: a subprocess run, a file
    write, a repository call of the hosting API, or the log record
    that starts a project. *)
Definition touches_project (e : Event) : bool :=
  match e with
  | ERun _ _ _ _ _ _ => true
  | EWrite _ _ => true
  | EApi GetUser => false
  | EApi _ => true
  | ELog _ _ => starts_project e
  end.

Section EntryPoint.
Context (E : Env).

Lemma wp_obtain_token args s (Q : Exn + option string -> State -> Prop) :
  (forall tok, token_source E args = (if Py.truthy tok then Some tok else None) ->
     Q (inr (Some tok)) s) ->
  (token_source E args = None ->
     forall msg, Q (inl (SystemExit 1)) (add_event s (ELog ERROR msg))) ->
  (token_source E args = None -> forall msg, Q (inl (EOFError msg)) s) ->
  wp (obtain_token E args) s Q.
Proof.
  intros Hok Hno Heof. unfold wp, obtain_token, getpass, token_source in *.
  destruct (a_token args) as [[|c t]|] eqn:Ht; simpl in *.
  2:{ apply Hok. done. }
  all: destruct (a_token_from_env args) as [[|c v]|] eqn:Hv; simpl in *.
  all: try (destruct (a_yes args); simpl;
            [ apply (Hno eq_refl)
            | destruct (getpass_reply E) as [reply|]; simpl;
              [ apply Hok; done | apply (Heof eq_refl) ] ]).
  all: destruct (environ E !! String c v) as [[|c' t']|] eqn:He; simpl;
       [ apply (Hno eq_refl) | apply Hok; done | apply (Hno eq_refl) ].
Qed.

Lemma wp_GitHubManager_init tok s (Q : Exn + GitHubManager -> State -> Prop) :
  (forall login, authenticates E tok = true ->
     Q (inr (mkManager login)) (add_event s (EApi GetUser))) ->
  (authenticates E tok = false ->
     forall e s', is_Exception e = true ->
       s' = s \/ s' = add_event s (EApi GetUser) -> Q (inl e) s') ->
  wp (GitHubManager_init E tok) s Q.
Proof.
  intros Hok Hno. unfold wp, GitHubManager_init, authenticates in *.
  destruct (pygithub_installed E); simpl in *; [|apply Hno; auto].
  unfold try_except, bind, emit. simpl.
  destruct (authenticate E tok) as [[st t|m]|login]; simpl.
  - apply Hno; auto.
  - apply Hno; auto.
  - apply Hok. done.
Qed.


Lemma existsb_summary_app l1 l2 :
  existsb is_summary_line (l1 ++ ELog INFO (nl +:+ "=== Summary ===") :: l2) = true.
Proof. rewrite existsb_app. simpl. by rewrite orb_true_r. Qed.
End EntryPoint.

(** What the claim about the exit status says of a run of [main] from
    [s] that ended with [r] in [s']. *)
Definition startup_fails (E : Env) (args : Args) (s : State) : Prop :=
  parent_not_directory E args s \/ no_token E args \/ authentication_fails E args.






Lemma wp_is_dir p s (Q : Exn + bool -> State -> Prop) :
  Q (inr (fs_is_dir (st_fs s) p)) s -> wp (is_dir p) s Q.
Proof. done. Qed.

Lemma wp_ProjectProcessor_init parent_dir gm token git_name git_email protocol private
    default_branch push ops s (Q : Exn + ProjectProcessor -> State -> Prop) :
  Q (inr {| parent_dir := parent_dir; github_manager := gm; token := token;
            git_name := git_name; git_email := git_email; protocol := Py.upper protocol;
            private := private; default_branch := default_branch;
            push_via_token_in_https := push;
            do_branch_ops := default no_branch_ops ops |})
    (mkState (st_fs s) (st_account s) (st_events s) []) ->
  wp (ProjectProcessor_init parent_dir gm token git_name git_email protocol private
        default_branch push ops) s Q.
Proof. done. Qed.



Section MainRun.
Context (E : Env) (args : Args).

End MainRun.


(** ** The claims about the run *)


(** * The claims on the concrete world *)

Section Examples.
Import Example.

(** With a directory as parent and the literal token "tok", start-up
    succeeds in the concrete environment. *)
Lemma starts_up (args : Args) (s : State) :
  fs_is_dir (st_fs s) (resolve E0 (a_parent args)) = true ->
  token_source E0 args = Some "tok" ->
  ~ startup_fails E0 args s.
Proof.
  intros Hd Ht [H|[H|(tok & H1 & H2)]].
  - unfold parent_not_directory in H. congruence.
  - unfold no_token in H. congruence.
  - rewrite Ht in H1. injection H1 as <-. discriminate.
Qed.

(** C1 on the concrete world: the scan finds [alpha] and [beta]; the
    push of [alpha] fails, the [RuntimeError] is caught, [alpha] is the
    first entry of the summary with that reason, and the run goes on
    with [beta] and the report. *)
Lemma project_errors_are_isolated_witness :
  (get_subdirectories (parent_dir self0) s0).1 = inr [alpha; beta] /\
  (process_all E0 self0 s0).1 = inr tt /\
  exists e s1,
    s1 = add_event s0 (ELog INFO "Found 2 projects. Beginning processing in order.") /\
    (process_project E0 self0 alpha s1).1 = inl e /\
    is_Exception e = true /\
    (process_guarded E0 self0 alpha s1).1 = inr tt /\
    st_summary (process_all E0 self0 s0).2 !! 0%nat =
      Some (path_name alpha, false, str_exn E0 e) /\
    process_all E0 self0 s0 =
      (for_each [beta] (process_guarded E0 self0) ;; report_summary self0)%prog
        (process_guarded E0 self0 alpha s1).2.
Proof.
  assert (Hscan : (get_subdirectories (parent_dir self0) s0).1 = inr [alpha; beta])
    by (vm_compute; reflexivity).
  pose proof (project_errors_are_isolated E0 self0 [alpha; beta] s0 Hscan) as H.
  cbv zeta in H. destruct H as (Hfin & _ & H).
  split; [exact Hscan|]. split; [exact Hfin|].
  exists (RuntimeError "Failed to push alpha: Command returned non-zero exit status").
  eexists. split; [reflexivity|].
  split; [vm_compute; reflexivity|].
  apply (H [] alpha [beta]); [reflexivity | vm_compute; reflexivity].
Defined.


(** The two early exits the amended C2 adds: a command line the
    argument parser refuses exits with its status 2 before anything
    happens; a prompt that cannot be read ends the run with the
    uncaught [EOFError], exit status 1, before any project. *)
Lemma early_exits :
  run_main E0 ["--bogus"] s0 = (inl (SystemExit 2), s0) /\
  (run_main E_eof argv_declined s0).1 = inl (EOFError "EOF when reading a line") /\
  exit_status (run_main E_eof argv_declined s0).1 = 1%Z /\
  Forall (fun e => touches_project e = false)
    (new_events s0 (run_main E_eof argv_declined s0).2).
Proof.
  split; [reflexivity|]. split; [vm_compute; reflexivity|]. split; [vm_compute; reflexivity|].
  apply Forall_forall. intros e He. apply list_elem_of_In in He. vm_compute in He.
  repeat (destruct He as [<-|He]; [reflexivity|]). destruct He.
Qed.


(** C3 on the concrete world: [--create-branch dev --switch-branch main]
    on [beta]; after the push and its record, [dev] is created and
    pushed and [main] is switched to. *)
Lemma branch_operations_all_applied_witness :
  (process_project E0 self_two_ops beta s_beta).1 = inr tt /\
  exists pre ov applied,
    new_events s_beta (process_project E0 self_two_ops beta s_beta).2 =
      pre ++ ERun ["git"; "push"; "-u"; "origin"; "main"] beta true false ov (Exited 0)
          :: ELog INFO "Pushed beta to origin/main"
          :: applied ++ [ELog INFO ("=== Finished: beta ===" +:+ nl)] /\
    operations_trace beta [create_operation "dev"; switch_operation "main"] applied /\
    omap branch_op_of applied = [["git"; "checkout"; "-b"; "dev"]; ["git"; "checkout"; "main"]].
Proof.
  split; [vm_compute; reflexivity|].
  apply (branch_operations_all_applied E0 self_two_ops beta s_beta). vm_compute; reflexivity.
Defined.

(** C3 as stated fails: with a request that creates [dev] and switches
    to [main], the successful processing of [beta] applies two branch
    operations after the initial push, not at most one. *)
Lemma two_branch_operations_applied :
  let r := process_project E0 self_two_ops beta s_beta in
  r.1 = inr tt /\
  omap branch_op_of (events_after_push "main" (new_events s_beta r.2)) =
    [["git"; "checkout"; "-b"; "dev"]; ["git"; "checkout"; "main"]] /\
  ~ (length (omap branch_op_of (events_after_push "main" (new_events s_beta r.2))) <= 1).
Proof.
  simpl. split; [vm_compute; reflexivity|]. split; [vm_compute; reflexivity|].
  intros H. vm_compute in H. lia.
Qed.

(** C4 on the concrete world: the account already holds [beta], a
    private repository with its own description and default branch;
    [create_repo] returns it and leaves the account alone. *)
Lemma create_repo_idempotent_witness :
  let res := create_repo E0 manager0 "beta" false "" false (Some "main") s_hosted in
  res.1 = inr repo_beta /\ st_account res.2 = st_account s_hosted /\
  Forall (fun e => is_edit e = false) (new_events s_hosted res.2) /\
  Forall (fun e => is_create e = false) (new_events s_hosted res.2).
Proof.
  destruct (create_repo_idempotent E0 manager0 "beta" false (Some "main") s_hosted) as [H _].
  destruct (H repo_beta eq_refl) as (Hacc & Hedit & _ & Hok).
  destruct (Hok eq_refl) as [Hres Hcreate]. simpl. auto.
Defined.

(** C5 on the concrete world: the scan of the parent directory. *)
Lemma scan_contract_witness :
  exists l,
    get_subdirectories parent s0 = (inr l, s0) /\
    (forall q, q ∈ l <->
       exists n, q = parent // n /\ st_fs s0 !! q = Some Dir /\ Py.startswith n "." = false) /\
    NoDup l /\ StronglySorted name_le l /\
    (forall s2, st_fs s2 = st_fs s0 -> (get_subdirectories parent s2).1 = inr l).
Proof.
  destruct (scan_contract E0 parent s0) as (_ & H & _). apply H. reflexivity.
Defined.


(** C7 on the concrete world: HTTPS with the token embedded. *)
Lemma remote_url_matches_protocol_witness :
  exists repo,
    st_account (process_project E0 self_embed beta s0).2 !! path_name beta = Some repo /\
    url_matches self_embed repo "https://tok@github.com/octo/beta.git".
Proof.
  apply (remote_url_matches_protocol E0 self_embed beta s0 _ beta true false [] (Exited 0)).
  apply list_elem_of_In. vm_compute. tauto.
Defined.

(** C8 on the failing input.  The folder [alpha] is empty and has no
    commits, and its processing writes no file: by the time the folder
    is listed, [git init] has put [.git] into it, so the emptiness test
    fails; no [README.md] exists afterwards, the folder holds [.git]
    only, and the initial commit finds nothing to commit. *)
Theorem empty_folder_gets_no_placeholder :
  let r := process_project E0 self0 alpha s0 in
  fs_children (st_fs s0) alpha = [] /\
  (_has_commits E0 alpha (after_run E0 s0 ["git"; "init"] alpha true false [] (Exited 0))).1
    = inr false /\
  Forall (fun e => is_write e = false) (new_events s0 r.2) /\
  st_fs r.2 !! (alpha // "README.md") = None /\
  fs_children (st_fs r.2) alpha = [alpha // ".git"] /\
  List.filter failed_run (new_events s0 r.2) =
    [ ERun ["git"; "rev-parse"; "HEAD"] alpha true true [] (Exited 128);
      ERun ["git"; "commit"; "-m"; "Initial commit"] alpha true false [] (Exited 1);
      ERun ["git"; "push"; "-u"; "origin"; "main"] alpha true false
        [("GIT_TERMINAL_PROMPT", "0")] (Exited 1) ].
Proof.
  vm_compute. repeat split. repeat constructor.
Qed.

(** The same folder when [git init] leaves no [.git] in it: the
    folder is still empty when it is listed, and the placeholder is
    written. *)
Lemma redirected_repository_gets_placeholder :
  let r := process_project E_redirect self0 alpha s0 in
  st_fs r.2 !! (alpha // "README.md") = Some File /\
  List.filter is_write (new_events s0 r.2) =
    [EWrite (alpha // "README.md")
       ("# alpha" +:+ nl +:+ nl +:+ "Initial commit by git-automation CLI" +:+ nl)].
Proof. vm_compute. by split. Qed.

(** C9 on the concrete world: with SSH and the embedding flag set, and
    with HTTPS and the flag unset, the token makes no difference. *)
Lemma token_noninterference_witness :
  process_project E0 (with_token self_ssh (Some "tok")) beta s0 =
    process_project E0 (with_token self_ssh (Some "other")) beta s0 /\
  process_project E0 (with_token self0 (Some "tok")) beta s0 =
    process_project E0 (with_token self0 None) beta s0.
Proof.
  split.
  - apply (token_noninterference E0 self_ssh). left. discriminate.
  - apply (token_noninterference E0 self0). right. left. reflexivity.
Defined.

(** C10 on the concrete world: two scanned projects, two entries. *)
Lemma summary_matches_scan_witness :
  (get_subdirectories (parent_dir self0) s0).1 = inr [alpha; beta] /\
  (process_all E0 self0 s0).1 = inr tt /\
  exists entries,
    st_summary (process_all E0 self0 s0).2 = st_summary s0 ++ entries /\
    Forall2 outcome_of [alpha; beta] entries /\
    (st_summary s0 = [] -> st_summary (process_all E0 self0 s0).2 = entries).
Proof.
  split; [vm_compute; reflexivity|].
  apply (summary_matches_scan E0 self0 s0 [alpha; beta]). vm_compute; reflexivity.
Defined.

End Examples.

(** * Further properties of the code *)

(** ** The helpers *)

(** X1.  [run_git_cmd] runs its command once, with the environment overlay
    of a non-empty [env] only: the one added event is that run.  It
    raises [CalledProcessError rc args] exactly when [check] is set and
    the command exits with [rc <> 0], returns the exit status exactly
    when the command exits and [check] is unset or the status is zero,
    and leaves account and summary alone.  An empty [env] is the same
    as none. *)
Theorem run_git_cmd_contract (E : Env) (args : list string) (cwd : Path) (check cap : bool)
    (env : option (list (string * string))) (s : State) :
  let out := git E s args cwd (overlay_of env) in
  let r := run_git_cmd E args cwd check cap env s in
  new_events s r.2 = [ERun args cwd check cap (overlay_of env) out] /\
  st_account r.2 = st_account s /\ st_summary r.2 = st_summary s /\
  (forall rc cmd, r.1 = inl (CalledProcessError rc cmd) <->
     check = true /\ rc <> 0%Z /\ cmd = args /\ out = Exited rc) /\
  (forall rc, r.1 = inr rc <-> out = Exited rc /\ (check = false \/ rc = 0%Z)) /\
  (forall m, r.1 = inl (OSError m) <-> out = NotStarted m) /\
  run_git_cmd E args cwd check cap (Some []) s = run_git_cmd E args cwd check cap None s.
Proof.
  cbv zeta. rewrite run_git_cmd_run. cbv zeta. cbn [fst snd].
  split; [by apply new_events_app|]. split; [done|]. split; [done|].
  split; [|split; [|split]].
  - intros rc cmd. destruct (git E s args cwd (overlay_of env)) as [rc0|m0].
    + destruct check; simpl.
      * destruct (rc0 =? 0)%Z eqn:Hz; simpl.
        -- apply Z.eqb_eq in Hz. split; [discriminate|]. by intros (_ & Hrc & _ & [= <-]).
        -- apply Z.eqb_neq in Hz. split; [by intros [= <- <-] | by intros (_ & _ & -> & [= <-])].
      * split; [discriminate | by intros ([=] & _)].
    + split; [discriminate | by intros (_ & _ & _ & [=])].
  - intros rc. destruct (git E s args cwd (overlay_of env)) as [rc0|m0].
    + destruct check; simpl.
      * destruct (rc0 =? 0)%Z eqn:Hz; simpl.
        -- apply Z.eqb_eq in Hz as ->. split; [intros [= <-]; auto | by intros [[= <-] _]].
        -- apply Z.eqb_neq in Hz. split; [discriminate|]. intros [[= <-] [[=]|Hrc]]. done.
      * split; [intros [= <-]; auto | by intros [[= <-] _]].
    + split; [discriminate | by intros [[=] _]].
  - intros m. destruct (git E s args cwd (overlay_of env)) as [rc0|m0].
    + destruct (check && negb (rc0 =? 0)%Z)%bool; split; discriminate.
    + split; by intros [= <-].
  - reflexivity.
Qed.

(** X2.  [_has_commits] answers [True] exactly when both probes exit with
    status zero; it never raises for a probe that exits non-zero (only
    a git that cannot be started makes it raise), and the [HEAD] probe
    is run only after the work-tree probe succeeded.  Both probes run
    in [cwd] with their output captured. *)
Theorem has_commits_contract (E : Env) (cwd : Path) (s : State) :
  let inside := ["git"; "rev-parse"; "--is-inside-work-tree"] in
  let head := ["git"; "rev-parse"; "HEAD"] in
  let s1 := after_run E s inside cwd true true [] (Exited 0) in
  let r := _has_commits E cwd s in
  (r.1 = inr true <->
     git E s inside cwd [] = Exited 0 /\ git E s1 head cwd [] = Exited 0) /\
  (forall e, r.1 = inl e -> exists m, e = OSError m) /\
  (git E s inside cwd [] <> Exited 0 ->
     new_events s r.2 = [ERun inside cwd true true [] (git E s inside cwd [])]) /\
  (git E s inside cwd [] = Exited 0 ->
     new_events s r.2 = [ERun inside cwd true true [] (Exited 0);
                         ERun head cwd true true [] (git E s1 head cwd [])]) /\
  st_account r.2 = st_account s /\ st_summary r.2 = st_summary s.
Proof.
  cbv zeta. unfold _has_commits, try_except, bind. rewrite run_git_cmd_run. cbv zeta.
  change (overlay_of None) with (@nil (string * string)).
  destruct (git E s _ cwd []) as [rc|m] eqn:H1; cbn [fst snd andb].
  - destruct (rc =? 0)%Z eqn:Hz; cbn [negb fst snd is_CalledProcessError ret].
    + apply Z.eqb_eq in Hz as ->. rewrite run_git_cmd_run. cbv zeta.
      change (overlay_of None) with (@nil (string * string)).
      destruct (git E (after_run E s _ cwd true true [] (Exited 0)) _ cwd []) as [rc2|m2] eqn:H2;
        cbn [fst snd andb].
      * destruct (rc2 =? 0)%Z eqn:Hz2; cbn [negb fst snd is_CalledProcessError ret].
        -- apply Z.eqb_eq in Hz2 as ->. repeat split; try done.
           intros _. apply new_events_app. simpl. by rewrite <- app_assoc.
        -- apply Z.eqb_neq in Hz2. repeat split; try done.
           ++ intros [_ [= ->]]. done.
           ++ intros _. apply new_events_app. simpl. by rewrite <- app_assoc.
      * cbn [is_CalledProcessError]. repeat split; try done.
        -- intros [_ [=]].
        -- intros e [= <-]. eauto.
        -- intros _. apply new_events_app. simpl. by rewrite <- app_assoc.
    + apply Z.eqb_neq in Hz. repeat split; try done.
      * intros [[= ->] _]. done.
      * intros _. by apply new_events_app.
      * intros [= ->]. done.
  - cbn [is_CalledProcessError]. repeat split; try done.
    + intros [[=] _].
    + intros e [= <-]. eauto.
    + intros _. by apply new_events_app.
Qed.

(** The line of the report for one summary entry. *)
Definition summary_line (o : Outcome) : Event :=
  ELog INFO ("  - " +:+ o.1.1 +:+ ": " +:+ o.2).

(** The records of the report and the partition of the summary they
    are made from. *)
Lemma report_summary_lines (self : ProjectProcessor) (s : State) :
  let ok := List.filter (fun o : Outcome => o.1.2) (st_summary s) in
  let fail := List.filter (fun o : Outcome => negb o.1.2) (st_summary s) in
  report_summary self s =
    (inr tt, mkState (st_fs s) (st_account s)
       (st_events s ++
          [ELog INFO (nl +:+ "=== Summary ==="); ELog INFO ("Succeeded: " +:+ pretty (length ok))]
          ++ map summary_line ok
          ++ [ELog INFO ("Failed: " +:+ pretty (length fail))]
          ++ map summary_line fail)
       (st_summary s)) /\
  (length ok + length fail = length (st_summary s))%nat /\
  ok ++ fail ≡ₚ st_summary s.
Proof.
  cbv zeta. split; [|split].
  - unfold report_summary. unfold bind at 1, get_state.
    unfold bind at 1. rewrite log_run. unfold bind at 1. rewrite log_run.
    unfold bind at 1. rewrite for_each_log. unfold bind at 1. rewrite log_run.
    rewrite for_each_log. simpl. by rewrite <- !app_assoc.
  - induction (st_summary s) as [|o l IH]; simpl; [done|].
    destruct (o.1.2); simpl; lia.
  - induction (st_summary s) as [|o l IH]; simpl; [done|].
    destruct (o.1.2); simpl.
    + by constructor.
    + rewrite <- Permutation_middle. by constructor.
Qed.

(** X3.  [report_summary] only logs, at level INFO, and leaves the state
    otherwise alone: the header, the count of successes and a line for
    each of them in summary order, the count of failures and a line
    for each of them in summary order.  The two counts add up to the
    length of the summary, and every entry gets exactly one line. *)
Theorem report_summary_partitions (self : ProjectProcessor) (s : State) :
  let ok := List.filter (fun o : Outcome => o.1.2) (st_summary s) in
  let fail := List.filter (fun o : Outcome => negb o.1.2) (st_summary s) in
  report_summary self s =
    (inr tt, mkState (st_fs s) (st_account s)
       (st_events s ++
          [ELog INFO (nl +:+ "=== Summary ==="); ELog INFO ("Succeeded: " +:+ pretty (length ok))]
          ++ map summary_line ok
          ++ [ELog INFO ("Failed: " +:+ pretty (length fail))]
          ++ map summary_line fail)
       (st_summary s)) /\
  (length ok + length fail = length (st_summary s))%nat /\
  ok ++ fail ≡ₚ st_summary s.
Proof. apply report_summary_lines. Qed.

(** ** The manager *)

(** X4.  [GitHubManager.__init__]: without PyGithub it raises a
    [RuntimeError] before any request is made.  Otherwise it makes the
    one request for the authenticated user: the login the service
    answers becomes [username]; an error answer of the service is
    turned into a [RuntimeError] that carries its text, so that no
    [GithubException] leaves the constructor; a failed transport is
    not caught.  Nothing but the event list changes. *)
Theorem GitHubManager_init_contract (E : Env) (tok : string) (s : State) :
  let r := GitHubManager_init E tok s in
  (pygithub_installed E = false ->
     r = (inl (RuntimeError "PyGithub is required. Install with: pip install PyGithub"), s)) /\
  (pygithub_installed E = true ->
     r.2 = add_event s (EApi GetUser) /\
     r.1 = match authenticate E tok with
           | inr login => inr (mkManager login)
           | inl (ApiError st t) =>
               inl (RuntimeError ("Failed to authenticate to GitHub: " +:+ t))
           | inl (Transport m) => inl (OSError m)
           end) /\
  (forall st t, r.1 <> inl (GithubException st t)).
Proof.
  cbv zeta. unfold GitHubManager_init.
  destruct (pygithub_installed E); simpl.
  - split; [discriminate|]. unfold try_except, bind, emit. simpl.
    destruct (authenticate E tok) as [[st t|m]|login]; simpl; repeat split; discriminate.
  - split; [done|]. split; discriminate.
Qed.

(** The requests [create_repo] made. *)
Definition api_calls (l : list Event) : list ApiCall :=
  omap (fun e => match e with EApi c => Some c | _ => None end) l.

(** X5.  [create_repo] never lets a [GithubException] out: what leaves it is
    a [RuntimeError] that starts with "GitHub create repo failed: ", or
    the error of a failed transport.  It raises only after a creation
    request that did not go through, and then the account is as it was
    and no edit was requested: a failed lookup and a failed edit of the
    default branch are both swallowed. *)
Theorem create_repo_errors (E : Env) (gm : GitHubManager) (name : string) (private : bool)
    (description : string) (auto_init : bool) (default_branch : option string) (s : State) :
  let res := create_repo E gm name private description auto_init default_branch s in
  match res.1 with
  | inr _ => True
  | inl e =>
      ((exists t, e = RuntimeError ("GitHub create repo failed: " +:+ t)) \/
       (exists m, e = OSError m)) /\
      api_calls (new_events s res.2) =
        [GetRepo name; CreateRepo name private description auto_init] /\
      st_account res.2 = st_account s
  end.
Proof.
  cbv zeta.
  unfold create_repo, api_get_repo, api_create_repo, api_edit, log.
  unfold try_except, bind, emit, get_state, set_account, ret, raise. simpl.
  assert (Hnew : forall l s', st_events s' = st_events s ++ l -> new_events s s' = l)
    by (intros l s'; apply new_events_app).
  destruct (api_refuses E s (GetRepo name)) as [f0|]; simpl;
    [assert (Hx : is_Exception (fault_exn f0) = true) by (by destruct f0); rewrite Hx; clear Hx
    | destruct (st_account s !! name) as [r0|] eqn:Hacc; simpl; [done|] ].
  all: destruct default_branch as [b|]; [destruct (Py.truthy b)|]; simpl.
  all: match goal with
       | |- context [api_refuses _ ?s1 (CreateRepo ?a ?b ?c ?d)] =>
           destruct (api_refuses E s1 (CreateRepo a b c d)) as [[st t|m]|]; simpl
       end.
  all: try (split; [eauto|]; split; [|done];
            erewrite Hnew by (simpl; rewrite <- ?app_assoc; simpl; reflexivity); done).
  all: destruct (st_account s !! name) as [r1|]; simpl.
  all: try (split; [eauto|]; split; [|done];
            erewrite Hnew by (simpl; rewrite <- ?app_assoc; simpl; reflexivity); done).
  all: try done.
  all: destruct (String.eqb b (service_default_branch E)); simpl; try done.
  all: match goal with
       | |- context [api_refuses _ ?s1 (EditRepo ?a ?b)] =>
           destruct (api_refuses E s1 (EditRepo a b)) as [[st t|m]|]; simpl
       end; done.
Qed.

(** X6.  The default branch is edited at most once, right after a creation
    that went through, and only when a non-empty default branch was
    asked for that differs from the one the service gave the new
    repository; whatever the edit answers, the created repository is
    returned. *)
Theorem create_repo_edits_default_branch (E : Env) (gm : GitHubManager) (name : string)
    (private : bool) (description : string) (auto_init : bool)
    (default_branch : option string) (s : State) :
  let res := create_repo E gm name private description auto_init default_branch s in
  let calls := api_calls (new_events s res.2) in
  Forall (fun c => forall n b, c <> EditRepo n b) calls \/
  exists b,
    default_branch = Some b /\ Py.truthy b = true /\ b <> service_default_branch E /\
    calls = [GetRepo name; CreateRepo name private description auto_init; EditRepo name b] /\
    exists r, res.1 = inr r /\ repo_name r = name /\ st_account res.2 !! name = Some r.
Proof.
  cbv zeta.
  unfold create_repo, api_get_repo, api_create_repo, api_edit, log.
  unfold try_except, bind, emit, get_state, set_account, ret, raise. simpl.
  assert (Hnew : forall l s', st_events s' = st_events s ++ l -> new_events s s' = l)
    by (intros l s'; apply new_events_app).
  destruct (api_refuses E s (GetRepo name)) as [f0|]; simpl;
    [assert (Hx : is_Exception (fault_exn f0) = true) by (by destruct f0); rewrite Hx; clear Hx
    | destruct (st_account s !! name) as [r0|] eqn:Hacc; simpl ].
  all: try (left; erewrite Hnew by (simpl; rewrite <- ?app_assoc; simpl; reflexivity);
            by repeat constructor).
  all: destruct default_branch as [b|]; [destruct (Py.truthy b) eqn:Hb|]; simpl.
  all: match goal with
       | |- context [api_refuses _ ?s1 (CreateRepo ?a ?b ?c ?d)] =>
           destruct (api_refuses E s1 (CreateRepo a b c d)) as [[st t|m]|]; simpl
       end.
  all: try (left; erewrite Hnew by (simpl; rewrite <- ?app_assoc; simpl; reflexivity);
            by repeat constructor).
  all: destruct (st_account s !! name) as [r1|]; simpl.
  all: try (left; erewrite Hnew by (simpl; rewrite <- ?app_assoc; simpl; reflexivity);
            by repeat constructor).
  all: destruct (String.eqb b (service_default_branch E)) eqn:Hbe; simpl.
  all: try (left; erewrite Hnew by (simpl; rewrite <- ?app_assoc; simpl; reflexivity);
            by repeat constructor).
  all: apply String.eqb_neq in Hbe.
  all: match goal with
       | |- context [api_refuses _ ?s1 (EditRepo ?a ?b)] =>
           destruct (api_refuses E s1 (EditRepo a b)) as [[st t|m]|]; simpl
       end.
  all: right; exists b; repeat (split; [done|]).
  all: (split; [erewrite Hnew by (simpl; rewrite <- ?app_assoc; simpl; reflexivity); done|]).
  all: eexists; split; [reflexivity|]; simpl; split; [done|].
  all: rewrite ?lookup_insert_eq; done.
Qed.

(** ** What the processing of a project runs *)

(** The shape of the commands of a project: each runs in the project's
    folder; only [git remote remove origin] runs unchecked; only the
    two probes of [_has_commits] have their output captured. *)
Definition in_project_folder (p : Path) (e : Event) : Prop :=
  match e with
  | ERun args cwd chk cap _ _ =>
      cwd = p /\
      (chk = false -> args = ["git"; "remote"; "remove"; "origin"]) /\
      (cap = true -> args = ["git"; "rev-parse"; "--is-inside-work-tree"] \/
                     args = ["git"; "rev-parse"; "HEAD"])
  | EWrite q _ => q = p // "README.md"
  | _ => True
  end.

(** X8.  Every command that the processing of a project runs, whatever the
    processor and whatever git answers, runs with the project's folder
    as working directory and with [check] set, except
    [git remote remove origin], and only the two [rev-parse] probes
    capture their output. *)
Theorem commands_run_in_project_folder (E : Env) (self : ProjectProcessor) (p : Path)
    (s : State) :
  Forall (in_project_folder p) (new_events s (process_project E self p s).2).
Proof.
  apply tracks_new_events.
  assert (H : keeps (tracks (Forall (in_project_folder p))) (fun _ => True)
                (process_project E self p)).
  { tracks_auto. }
  apply H.
Qed.

(** What the environment of a command may be: the inherited one, or,
    for the initial push over HTTPS without an embedded token, the
    inherited one with terminal prompts disabled. *)
Definition environment_of (self : ProjectProcessor) (p : Path) (e : Event) : Prop :=
  match e with
  | ERun args _ _ _ ov _ =>
      ov = [] \/
      (ov = [("GIT_TERMINAL_PROMPT", "0")] /\
       args = ["git"; "push"; "-u"; "origin"; branch_of self p] /\
       protocol self = "HTTPS" /\ push_via_token_in_https self = false)
  | _ => True
  end.

Ltac tracks_env_step :=
  lazymatch goal with
  | |- keeps _ _ (run_git_cmd _ _ _ _ _ (if ?c then _ else _)) => destruct c eqn:?
  | _ => tracks_step
  end.

(** The overlay of the initial push. *)
Definition push_overlay (self : ProjectProcessor) : list (string * string) :=
  if (String.eqb (protocol self) "HTTPS" && negb (push_via_token_in_https self))%bool
  then [("GIT_TERMINAL_PROMPT", "0")] else [].

Lemma process_project_pushed (E : Env) (self : ProjectProcessor) (p : Path) (s : State) :
  (process_project E self p s).1 = inr tt ->
  exists pre post,
    new_events s (process_project E self p s).2 =
      pre ++ ERun ["git"; "push"; "-u"; "origin"; branch_of self p] p true false
                (push_overlay self) (Exited 0) :: post.
Proof.
  assert (H : wp (process_project E self p) s (fun r s' =>
    r = inr tt ->
    exists pre post,
      st_events s' = st_events s ++
        pre ++ ERun ["git"; "push"; "-u"; "origin"; branch_of self p] p true false
                 (push_overlay self) (Exited 0) :: post)).
  2:{ unfold wp in H. intros Hr. destruct (H Hr) as (pre & post & Hev).
      exists pre, post. by apply new_events_app. }
  unfold process_project. cbv zeta. fold (branch_of self p).
  apply wp_bind, wp_log.
  set (s1 := add_event s _).
  assert (HT : moves mv_any s s1).
  { repeat split; simpl; try done. eexists. split; [done|]. by repeat constructor. }
  clearbody s1. revert HT. generalize s1. clear s1. intros s1 HT.
  do 6 (walk mv_any (fun _ : Exn => True); [chain; clear Hrun | done]).
  match goal with HT : moves _ s _ |- _ => apply moves_events in HT as [pre Hpre] end.
  apply wp_bind, wp_try, wp_bind. run_step; [| done | done].
  match goal with H : (_ =? 0)%Z = true |- _ => apply Z.eqb_eq in H; subst end.
  apply wp_log. simpl.
  set (sp := add_event _ _).
  eapply wp_bind, wp_mono; [apply do_branch_operations_opened|].
  intros [e|[]] sb [lb [Hevb Hops]]; [done|].
  apply wp_bind, wp_summary_append, wp_log. intros _.
  exists pre. eexists. unfold add_event. simpl. rewrite Hevb. subst sp.
  unfold add_event, after_run. simpl. rewrite Hpre, <- !app_assoc. simpl.
  unfold push_overlay.
  by destruct (String.eqb (protocol self) "HTTPS" && negb (push_via_token_in_https self))%bool.
Qed.

(** X9.  Every command of a project runs in the inherited environment,
    except the initial push when the protocol is HTTPS and no token is
    embedded: only a push of the project's branch, and only then, runs
    with [GIT_TERMINAL_PROMPT=0]; and the initial push of a project
    that is processed successfully ran in just that environment. *)
Theorem prompts_disabled_on_https_push_only (E : Env) (self : ProjectProcessor) (p : Path)
    (s : State) :
  let r := process_project E self p s in
  Forall (environment_of self p) (new_events s r.2) /\
  (r.1 = inr tt ->
   exists pre post,
     new_events s r.2 =
       pre ++ ERun ["git"; "push"; "-u"; "origin"; branch_of self p] p true false
                (push_overlay self) (Exited 0) :: post).
Proof.
  cbv zeta. split; [|apply process_project_pushed].
  apply tracks_new_events.
  assert (H : keeps (tracks (Forall (environment_of self p))) (fun _ => True)
                (process_project E self p)).
  { unfold process_project. cbv zeta. fold (branch_of self p).
    unfold _has_commits, _do_branch_operations, create_repo. repeat tracks_env_step.
    constructor; [|constructor]. right.
    match goal with H : (_ && _)%bool = true |- _ => apply andb_true_iff in H as [H1 H2] end.
    apply String.eqb_eq in H1. apply negb_true_iff in H2. done. }
  apply H.
Qed.

(** An event that is neither a request to the hosting service nor a
    [git remote] command. *)
Definition is_hosting (e : Event) : bool :=
  match e with
  | EApi _ => true
  | ERun (g :: r :: _) _ _ _ _ _ => String.eqb g "git" && String.eqb r "remote"
  | _ => false
  end.

(** X10.  A processor without a manager makes no request to the hosting
    service and runs no [git remote] command: the push goes to
    whatever [origin] the repository has. *)
Theorem no_manager_no_hosting (E : Env) (self : ProjectProcessor) (p : Path) (s : State) :
  github_manager self = None ->
  Forall (fun e => is_hosting e = false) (new_events s (process_project E self p s).2).
Proof.
  intros Hgm. apply tracks_new_events.
  assert (H : keeps (tracks (Forall (fun e => is_hosting e = false))) (fun _ => True)
                (process_project E self p)).
  { unfold process_project. rewrite Hgm. tracks_auto. }
  apply H.
Qed.

(** X7.  When a successful [git init] leaves its [.git] in the folder it
    is run in (git's behaviour unless the environment redirects the
    repository, as [GIT_DIR] does), the processing of a project writes
    no file of its own, whatever the folder holds: when the folder is
    listed, [.git] is in it. *)
Theorem process_project_never_writes (E : Env) (self : ProjectProcessor) (p : Path)
    (s : State) :
  git_init_in_place E = true ->
  Forall (fun e => is_write e = false) (new_events s (process_project E self p s).2).
Proof.
  intros Hplace.
  pose proof (process_project_writes_nothing E self p Hplace s) as H. unfold wp in H.
  destruct H as [(l & Hev & Hl) _]. by rewrite (new_events_app _ _ _ Hev).
Qed.

Definition is_git_init (e : Event) : bool :=
  match e with
  | ERun [g; i] _ _ _ _ _ => String.eqb g "git" && String.eqb i "init"
  | _ => false
  end.

(** X11.  [git init] is run exactly when the project's folder has no [.git]:
    never in a folder that has one, and otherwise once, as the first
    command. *)
Theorem git_init_only_when_missing (E : Env) (self : ProjectProcessor) (p : Path)
    (s : State) :
  let evs := new_events s (process_project E self p s).2 in
  (fs_exists (st_fs s) (p // ".git") = true ->
     Forall (fun e => is_git_init e = false) evs) /\
  (fs_exists (st_fs s) (p // ".git") = false ->
     exists out l,
       evs = ELog INFO (start_line p)
             :: ELog INFO ".git not found -> initializing git repository"
             :: ERun ["git"; "init"] p true false [] out :: l /\
       Forall (fun e => is_git_init e = false) l).
Proof.
  cbv zeta.
  assert (H : wp (process_project E self p) s (fun _ s' =>
    (fs_exists (st_fs s) (p // ".git") = true ->
       tracks (Forall (fun e => is_git_init e = false)) s s') /\
    (fs_exists (st_fs s) (p // ".git") = false ->
       exists out,
         tracks (Forall (fun e => is_git_init e = false))
           (after_run E (add_event (add_event s (ELog INFO (start_line p)))
                         (ELog INFO ".git not found -> initializing git repository"))
              ["git"; "init"] p true false [] out) s'))).
  2:{ unfold wp in H. destruct H as [H1 H2]. split.
      - intros Hg. by apply tracks_new_events, H1.
      - intros Hg. destruct (H2 Hg) as (out & l & Hev & Hl). exists out, l. split; [|done].
        apply new_events_app. rewrite Hev. simpl. by rewrite <- !app_assoc. }
  unfold process_project. cbv zeta.
  apply wp_bind, wp_log. apply wp_bind, wp_bind, wp_path_exists. simpl.
  destruct (fs_exists (st_fs s) (p // ".git")) eqn:Hg; simpl.
  - apply wp_log. eapply (wp_keeps_last (tracks (Forall (fun e => is_git_init e = false)))
                            (fun _ => True)); [tracks_auto|].
    intros r s1 Hs1. split; [|done]. intros _.
    etransitivity; [|exact Hs1]. eexists. split; [simpl; by rewrite <- app_assoc|].
    by repeat constructor.
  - apply wp_bind, wp_log, wp_bind. apply wp_run_git_cmd. intros out. simpl.
    assert (Hrest : forall (r : Exn + unit) s1,
      tracks (Forall (fun e => is_git_init e = false))
        (after_run E (add_event (add_event s (ELog INFO (start_line p)))
                      (ELog INFO ".git not found -> initializing git repository"))
           ["git"; "init"] p true false [] out) s1 ->
      (false = true -> tracks (Forall (fun e => is_git_init e = false)) s s1) /\
      (false = false -> exists out0,
         tracks (Forall (fun e => is_git_init e = false))
           (after_run E (add_event (add_event s (ELog INFO (start_line p)))
                         (ELog INFO ".git not found -> initializing git repository"))
              ["git"; "init"] p true false [] out0) s1)).
    { intros r s1 Hs1. split; [done|]. intros _. by exists out. }
    destruct out as [rc|m]; [destruct (rc =? 0)%Z; simpl|].
    + apply wp_ret.
      eapply (wp_keeps_last (tracks (Forall (fun e => is_git_init e = false)))
                (fun _ => True)); [tracks_auto|].
      intros r s1 Hs1. by apply (Hrest r).
    + apply (Hrest (inl (OSError ""))). reflexivity.
    + apply (Hrest (inl (OSError ""))). reflexivity.
Qed.

(** ** Order of events *)

(** A [git remote add origin URL] that succeeded. *)
Definition remote_added (e : Event) : bool :=
  is_remote_add e &&
  match e with ERun _ _ _ _ _ (Exited rc) => (rc =? 0)%Z | _ => false end.

(** [e'] is the INFO record that shows the URL of the command [e]. *)
Definition shows_url (e e' : Event) : bool :=
  match e, e' with
  | ERun [_; _; _; _; url] _ _ _ _ _, ELog INFO m =>
      String.eqb m ("Remote origin set to: " +:+ url)
  | _, _ => false
  end.

(** A push among the branch operations. *)
Definition is_push (e : Event) : bool :=
  match e with
  | ERun (g :: c :: _) _ _ _ _ _ => String.eqb g "git" && String.eqb c "push"
  | _ => false
  end.

Definition exited_zero (e : Event) : bool :=
  match e with ERun _ _ _ _ _ (Exited rc) => (rc =? 0)%Z | _ => false end.

(** [e'] is the successful command that the push [e] depends on: the
    local rename for the deletion of the old remote branch, that
    deletion for the push of the renamed branch, and the creation of
    the branch for the push of a created branch. *)
Definition gated_by (e e' : Event) : bool :=
  exited_zero e' &&
  match e, e' with
  | ERun [_; _; _; x] _ _ _ _ _, ERun [g; b; m; old; _] _ _ _ _ _ =>
      String.eqb g "git" && String.eqb b "branch" && String.eqb m "-m"
      && String.eqb x (":" +:+ old)
  | ERun [_; _; _; _; x] _ _ _ _ _, ERun [g; c; b; y] _ _ _ _ _ =>
      (String.eqb g "git" && String.eqb c "checkout" && String.eqb b "-b" && String.eqb x y)
      || (String.eqb g "git" && String.eqb c "push" && String.eqb b "origin")
  | _, _ => false
  end.

Definition gated (l : list Event) : Prop := preceded is_push gated_by l = true.

Ltac tracks_done :=
  unfold tracks, after_run, add_event; simpl;
  split;
  [ eexists; split;
    [ rewrite <- ?app_assoc; simpl; reflexivity
    | unfold gated, preceded, remote_added, shows_url, gated_by, exited_zero, is_push,
        is_remote_add;
      simpl; use_exit_status; rewrite ?String.eqb_refl; simpl; try reflexivity ]
  | intros ? ?; try exact I ].

Lemma remote_add_block (E : Env) (p : Path) (url : string) :
  keeps (tracks (fun l => answered remote_added shows_url l = true)) (fun _ => True)
    (run_git_cmd E ["git"; "remote"; "add"; "origin"; url] p true false None ;;
     log INFO ("Remote origin set to: " +:+ url)).
Proof.
  apply keeps_wp. intros s. apply wp_bind. run_step.
  - apply wp_log. tracks_done.
  - tracks_done.
  - tracks_done.
Qed.

Ltac tracks_url_step := first [ apply remote_add_block | tracks_step ].

(** X12.  The URL given to a successful [git remote add origin] is written
    to the log as it is, in the very next record: with a token
    embedded in the URL, the token is logged. *)
Theorem remote_url_is_logged (E : Env) (self : ProjectProcessor) (p : Path) (s : State)
    (i : nat) (url : string) (cwd : Path) (chk cap : bool) (ov : list (string * string)) :
  new_events s (process_project E self p s).2 !! i =
    Some (ERun ["git"; "remote"; "add"; "origin"; url] cwd chk cap ov (Exited 0)) ->
  new_events s (process_project E self p s).2 !! S i =
    Some (ELog INFO ("Remote origin set to: " +:+ url)).
Proof.
  intros Hi.
  assert (H : keeps (tracks (fun l => answered remote_added shows_url l = true))
                (fun _ => True) (process_project E self p)).
  { unfold process_project, _has_commits, _do_branch_operations, create_repo. cbv zeta.
    repeat tracks_url_step. }
  destruct (H s) as [Ht _]. apply tracks_new_events in Ht.
  destruct (answered_spec _ _ _ Ht i _ Hi eq_refl) as (e' & He' & Hr).
  rewrite He'. destruct e' as [| |? |[] m]; try discriminate.
  simpl in Hr. by apply String.eqb_eq in Hr as ->.
Qed.

Lemma create_gated (E : Env) (cwd : Path) (name : string) :
  keeps (tracks gated) (fun _ => True)
    (try_except
       (run_git_cmd E ["git"; "checkout"; "-b"; name] cwd true false None ;;
        run_git_cmd E ["git"; "push"; "-u"; "origin"; name] cwd true false None ;;
        log INFO ("Created and pushed branch " +:+ name))
       is_CalledProcessError
       (fun _ => log WARNING ("Could not create branch " +:+ name))).
Proof.
  apply keeps_wp. intros s. apply wp_try, wp_bind.
  run_step; [|apply wp_log; tracks_done|tracks_done].
  apply wp_bind. run_step; [|apply wp_log; tracks_done|tracks_done].
  apply wp_log. tracks_done.
Qed.

Lemma rename_gated (E : Env) (cwd : Path) (old new : string) :
  keeps (tracks gated) (fun _ => True)
    (try_except
       (run_git_cmd E ["git"; "branch"; "-m"; old; new] cwd true false None ;;
        run_git_cmd E ["git"; "push"; "origin"; ":" +:+ old] cwd true false None ;;
        run_git_cmd E ["git"; "push"; "-u"; "origin"; new] cwd true false None ;;
        log INFO ("Renamed branch " +:+ old +:+ " -> " +:+ new))
       is_CalledProcessError
       (fun _ => log WARNING ("Could not rename branch " +:+ old +:+ " -> " +:+ new))).
Proof.
  apply keeps_wp. intros s. apply wp_try, wp_bind.
  run_step; [|apply wp_log; tracks_done|tracks_done].
  apply wp_bind. run_step; [|apply wp_log; tracks_done|tracks_done].
  apply wp_bind. run_step; [|apply wp_log; tracks_done|tracks_done].
  apply wp_log. tracks_done.
Qed.

Ltac tracks_gated_step := first [ apply create_gated | apply rename_gated | tracks_step ].

(** X13.  Among the branch operations no push is run on its own: the old
    remote branch is deleted only right after the local rename
    succeeded, the renamed branch is pushed only right after that
    deletion succeeded, and a created branch is pushed only right
    after its creation succeeded. *)
Theorem branch_pushes_are_gated (E : Env) (self : ProjectProcessor) (cwd : Path) (s : State)
    (i : nat) (e : Event) :
  new_events s (_do_branch_operations E self cwd s).2 !! i = Some e ->
  is_push e = true ->
  exists j e', i = S j /\
    new_events s (_do_branch_operations E self cwd s).2 !! j = Some e' /\
    gated_by e e' = true.
Proof.
  intros Hi He.
  assert (H : keeps (tracks gated) (fun _ => True) (_do_branch_operations E self cwd)).
  { unfold _do_branch_operations. repeat tracks_gated_step. }
  destruct (H s) as [Ht _]. apply tracks_new_events in Ht.
  by apply (preceded_spec _ _ _ Ht i e).
Qed.

(** ** An existing history *)

(** A run of [git add -A] or of the initial [git commit]. *)
Definition stages (e : Event) : bool :=
  match e with ERun args _ _ _ _ _ => stages_or_commits args | _ => false end.

(** A [git rev-parse HEAD] that exited with status zero: the
    repository has a commit. *)
Definition head_resolved (e : Event) : bool :=
  match e with
  | ERun args _ _ _ _ out =>
      match args with
      | [g; r; h] => String.eqb g "git" && String.eqb r "rev-parse" && String.eqb h "HEAD"
      | _ => false
      end && match out with Exited rc => (rc =? 0)%Z | NotStarted _ => false end
  | _ => false
  end.

Abbreviation no_staging := (Forall (fun e => stages e = false)).
Abbreviation no_head := (Forall (fun e => head_resolved e = false)).
Abbreviation neither := (Forall (fun e => stages e = false /\ head_resolved e = false)).

Lemma tracks_impl (P Q : list Event -> Prop) s s' :
  (forall l, P l -> Q l) -> tracks P s s' -> tracks Q s s'.
Proof. intros H (l & Hev & Hl). exists l. auto. Qed.

Lemma neither_no_staging l : neither l -> no_staging l.
Proof. intros H. eapply Forall_impl; [exact H | simpl; tauto]. Qed.

Lemma neither_no_head l : neither l -> no_head l.
Proof. intros H. eapply Forall_impl; [exact H | simpl; tauto]. Qed.

Ltac probes_done :=
  unfold tracks, after_run, add_event; simpl;
  eexists; split;
  [ rewrite <- ?app_assoc; simpl; reflexivity
  | unfold stages, head_resolved; simpl; use_exit_status;
    by repeat constructor ].

(** The probes stage nothing, and unless the answer is [True] no
    [HEAD] probe succeeded. *)
Lemma has_commits_probes (E : Env) (cwd : Path) (s : State) :
  wp (_has_commits E cwd) s (fun r s' =>
    match r with
    | inr true => tracks no_staging s s'
    | _ => tracks neither s s'
    end).
Proof.
  unfold _has_commits. apply wp_try, wp_bind.
  run_step; [|apply wp_ret; probes_done|probes_done].
  apply wp_bind. run_step; [|apply wp_ret; probes_done|probes_done].
  apply wp_ret. probes_done.
Qed.

Section History.
Context (E : Env) (self : ProjectProcessor) (p : Path).

Lemma staging_or_history s :
  wp (process_project E self p) s (fun _ s' =>
    tracks no_staging s s' \/ tracks no_head s s').
Proof.
  unfold process_project. cbv zeta. fold (branch_of self p).
  assert (HT : tracks neither s s) by reflexivity.
  revert HT. generalize s at 2 3. intros s1 HT.
  assert (Hfail : forall sa sb, tracks neither s sa -> tracks neither sa sb ->
            tracks no_staging s sb \/ tracks no_head s sb).
  { intros sa sb Ha Hb. left. apply (tracks_impl neither); [apply neither_no_staging|].
    by etransitivity. }
  do 4 (eapply (wp_keeps (tracks neither) (fun _ => True));
        [ tracks_auto
        | intros ? ? Hstep _; pose proof (transitivity HT Hstep) as HT'; clear HT Hstep;
          rename HT' into HT
        | intros ? ? Hstep _; by apply (Hfail _ _ HT) ]).
  apply wp_bind. eapply wp_mono; [apply has_commits_probes|].
  intros [e|[|]] shc Hhc.
  - by apply (Hfail _ _ HT).
  - (* commits exist: nothing is staged *)
    simpl.
    eapply (wp_keeps_last (tracks no_staging) (fun _ => True)); [tracks_auto|].
    intros r sfin Hs3. left.
    apply (tracks_impl _ _ _ _ neither_no_staging) in HT.
    exact (transitivity HT (transitivity Hhc Hs3)).
  - (* no commits: no probe follows *)
    simpl.
    eapply (wp_keeps_last (tracks no_head) (fun _ => True)); [tracks_auto|].
    intros r sfin Hs3. right.
    apply (tracks_impl _ _ _ _ neither_no_head) in HT, Hhc.
    exact (transitivity HT (transitivity Hhc Hs3)).
Qed.
End History.

(** X14.  A repository whose [HEAD] resolves is left as it is: once
    [git rev-parse HEAD] has exited with status zero, the processing of
    the project runs neither [git add -A] nor the initial
    [git commit]. *)
Theorem existing_history_is_not_committed_to (E : Env) (self : ProjectProcessor) (p : Path)
    (s : State) (cwd : Path) (chk cap : bool) (ov : list (string * string)) :
  ERun ["git"; "rev-parse"; "HEAD"] cwd chk cap ov (Exited 0)
    ∈ new_events s (process_project E self p s).2 ->
  Forall (fun e => stages e = false) (new_events s (process_project E self p s).2).
Proof.
  intros Hin. pose proof (staging_or_history E self p s) as H. unfold wp in H.
  destruct H as [H|H]; apply tracks_new_events in H; [done|].
  rewrite Forall_forall in H. by specialize (H _ Hin).
Qed.

(** ** The entry point *)

(** The request that authenticates the token. *)
Definition is_get_user (e : Event) : bool :=
  match e with EApi GetUser => true | _ => false end.

Section Declined.
Context (E : Env) (args : Args).

Definition declined_outcome (s : State) (r : Exn + unit) (s' : State) : Prop :=
  r = inl (SystemExit 0) /\
  Forall (fun e => touches_project e = false) (new_events s s') /\
  last (new_events s s') = Some (ELog INFO "Aborted by user") /\
  length (List.filter is_get_user (new_events s s')) = 1%nat /\
  st_fs s' = st_fs s /\ st_account s' = st_account s.

Lemma main_declined s :
  wp (main E args) s (fun r s' =>
    startup_fails E args s \/ declined E args = false \/ declined_outcome s r s').
Proof.
  unfold main. cbv zeta. set (parent := resolve E (a_parent args)).
  apply wp_bind, wp_is_dir.
  destruct (fs_is_dir (st_fs s) parent) eqn:Hd; simpl.
  2:{ apply wp_bind, wp_bind, wp_log. unfold sys_exit. apply wp_raise. left. by left. }
  apply wp_bind, wp_ret, wp_bind, wp_obtain_token.
  2:{ intros Htok msg. left. right. by left. }
  2:{ intros Htok msg. left. right. by left. }
  intros tok Htok. destruct (Py.truthy tok) eqn:Htruthy; simpl.
  2:{ apply wp_bind, wp_log. unfold sys_exit. apply wp_raise. left. right. by left. }
  apply wp_bind, wp_try, wp_bind, wp_GitHubManager_init.
  2:{ intros Hauth e s' He Hs'. rewrite He. apply wp_bind, wp_log. unfold sys_exit.
      apply wp_raise. left. right. right. by exists tok. }
  intros login Hauth. apply wp_bind, wp_log, wp_ret.
  apply wp_bind, wp_ProjectProcessor_init.
  do 6 apply wp_bind, wp_log.
  destruct (a_yes args) eqn:Hyes; simpl.
  { apply wp_bind, wp_ret. unfold wp. right. left. unfold declined. by rewrite Hyes. }
  apply wp_bind, wp_bind. unfold input.
  destruct (input_reply E) as [reply|] eqn:Hreply.
  2:{ apply wp_raise. right. left. unfold declined. by rewrite Hyes, Hreply. }
  apply wp_ret.
  destruct (bool_decide (Py.lower reply ∈ ["y"; "yes"])) eqn:Hin; simpl.
  { apply wp_ret. unfold wp. right. left. unfold declined. by rewrite Hyes, Hreply, Hin. }
  apply wp_bind, wp_log. unfold sys_exit. apply wp_raise.
  right. right. unfold declined_outcome.
  erewrite new_events_app
    by (unfold add_event; simpl; rewrite <- !app_assoc; simpl; reflexivity).
  split; [done|]. split; [by repeat constructor|]. done.
Qed.
End Declined.

(** X15.  A run that gets past start-up and is then declined at the prompt
    (the reply is read and is neither "y" nor "yes", in any case)
    touches nothing: it exits with status zero right after the record
    "Aborted by user", having run no command, written no file and made
    no request to the hosting service but the one that authenticated
    the token; file system and account are as they were. *)
Theorem declined_run_touches_nothing (E : Env) (args : Args) (s : State) :
  ~ startup_fails E args s -> declined E args = true ->
  let r := main E args s in
  r.1 = inl (SystemExit 0) /\
  Forall (fun e => touches_project e = false) (new_events s r.2) /\
  last (new_events s r.2) = Some (ELog INFO "Aborted by user") /\
  length (List.filter is_get_user (new_events s r.2)) = 1%nat /\
  st_fs r.2 = st_fs s /\ st_account r.2 = st_account s.
Proof.
  intros Hok Hno. pose proof (main_declined E args s) as H. unfold wp in H.
  destruct H as [H|[H|H]]; [done | congruence | exact H].
Qed.

(** ** The report and the log *)

Lemma loop_prints_no_summary (E : Env) (self : ProjectProcessor) (projects : list Path) :
  keeps (tracks (Forall (fun e => is_summary_line e = false))) (fun _ => True)
    (loop E self projects).
Proof. unfold loop, process_guarded. tracks_auto. Qed.

(** X16.  On a fresh processor, the report that ends [process_all] accounts
    for every scanned project: the summary header is logged once, after
    all projects, and the counts of successes and failures that follow
    it add up to the number of projects, each project having its line
    under the count it belongs to. *)
Theorem report_accounts_for_every_project (E : Env) (self : ProjectProcessor) (s : State)
    (p : Path) (ps : list Path) :
  (get_subdirectories (parent_dir self) s).1 = inr (p :: ps) ->
  st_summary s = [] ->
  exists pre ok fail,
    new_events s (process_all E self s).2 =
      pre ++ [ELog INFO (nl +:+ "=== Summary ===");
              ELog INFO ("Succeeded: " +:+ pretty (length ok))]
          ++ map summary_line ok
          ++ [ELog INFO ("Failed: " +:+ pretty (length fail))]
          ++ map summary_line fail /\
    Forall (fun e => is_summary_line e = false) pre /\
    (length ok + length fail = length (p :: ps))%nat /\
    Forall (fun o : Outcome => o.1.2 = true) ok /\
    Forall (fun o : Outcome => o.1.2 = false) fail /\
    ok ++ fail ≡ₚ st_summary (process_all E self s).2.
Proof.
  intros Hscan Hfresh. rewrite (process_all_run E self s _ Hscan).
  set (s0 := add_event s _). unfold bind.
  destruct (loop_spec E self (p :: ps) s0) as (s1 & l & entries & Hrun & Hev & _ & Hs & Hent).
  destruct (loop_prints_no_summary E self (p :: ps) s0) as [Hquiet _].
  rewrite Hrun in Hquiet |- *. simpl in Hquiet.
  destruct (report_summary_lines self s1) as (Hrep & Hlen & Hperm). rewrite Hrep.
  cbn [snd st_events st_summary].
  eexists (_ :: l), _, _. split; [|split; [|split; [|split; [|split]]]].
  - apply new_events_app. rewrite Hev. subst s0. unfold add_event. simpl.
    rewrite <- !app_assoc. simpl. reflexivity.
  - constructor; [done|]. destruct Hquiet as (l' & Hev' & Hl').
    rewrite Hev in Hev'. by apply app_inv_head in Hev' as <-.
  - rewrite Hlen, Hs. subst s0. simpl. rewrite Hfresh. simpl.
    apply Forall2_length in Hent. unfold Outcome in *. simpl in Hent. lia.
  - apply Forall_forall. intros o Ho. apply list_elem_of_In, filter_In in Ho. tauto.
  - apply Forall_forall. intros o Ho. apply list_elem_of_In, filter_In in Ho.
    destruct Ho as [_ Ho]. by apply negb_true_iff in Ho.
  - exact Hperm.
Qed.

(** The record that closes a project in the log. *)
Definition is_finished (e : Event) : bool :=
  match e with
  | ELog INFO m => String.prefix "=== Finished:" m
  | _ => false
  end.

Section Finished.
Context (E : Env) (self : ProjectProcessor) (p : Path).

Lemma process_project_finishes s :
  wp (process_project E self p) s (fun r s' =>
    exists l, st_events s' = st_events s ++ l /\
      match r with
      | inr _ => exists l0,
          l = l0 ++ [ELog INFO ("=== Finished: " +:+ path_name p +:+ " ===" +:+ nl)] /\
          Forall (fun e => is_finished e = false) l0
      | inl _ => Forall (fun e => is_finished e = false) l
      end).
Proof.
  unfold process_project. cbv zeta. apply wp_bind, wp_log.
  set (s1 := add_event s _).
  assert (HT : tracks (Forall (fun e => is_finished e = false)) s s1).
  { eexists. split; [reflexivity|]. by repeat constructor. }
  clearbody s1. revert HT. generalize s1. clear s1. intros s1 HT.
  do 8 (eapply (wp_keeps (tracks (Forall (fun e => is_finished e = false))) (fun _ => True));
        [ tracks_auto
        | intros ? ? Hstep _; pose proof (transitivity HT Hstep) as HT'; clear HT Hstep;
          rename HT' into HT
        | intros ? ? Hstep _; pose proof (transitivity HT Hstep) as (l & Hl & Hnf);
          by exists l ]).
  apply wp_bind, wp_summary_append, wp_log.
  destruct HT as (l & Hl & Hnf). eexists. simpl. rewrite Hl, <- app_assoc.
  split; [reflexivity|]. eauto.
Qed.
End Finished.

(** X17.  The log closes a project with "=== Finished: NAME ===" exactly
    when its processing returned normally, and then as the last
    record: a project that failed has no such record. *)
Theorem finished_record_iff_success (E : Env) (self : ProjectProcessor) (p : Path)
    (s : State) :
  let r := process_project E self p s in
  (existsb is_finished (new_events s r.2) = true <-> r.1 = inr tt) /\
  (r.1 = inr tt ->
     last (new_events s r.2) =
       Some (ELog INFO ("=== Finished: " +:+ path_name p +:+ " ===" +:+ nl))).
Proof.
  cbv zeta. pose proof (process_project_finishes E self p s) as H. unfold wp in H.
  destruct H as (l & Hev & Hl). rewrite (new_events_app _ _ _ Hev).
  destruct (process_project E self p s).1 as [e|[]].
  - split; [|discriminate]. split; [|discriminate]. intros Hex.
    apply existsb_exists in Hex as (x & Hx & Hfin).
    rewrite Forall_forall in Hl. apply list_elem_of_In in Hx. specialize (Hl _ Hx). congruence.
  - destruct Hl as (l0 & -> & Hl0). split; [|by rewrite last_snoc].
    split; [done|]. intros _. rewrite existsb_app. simpl. by rewrite orb_true_r.
Qed.

Definition is_git_config (args : list string) : bool :=
  match args with
  | g :: c :: _ => String.eqb g "git" && String.eqb c "config"
  | _ => false
  end.

(** What a [git config] command sets: the name or the e-mail address
    the processor was given, in the repository's own configuration. *)
Definition configures_identity (self : ProjectProcessor) (e : Event) : Prop :=
  match e with
  | ERun args _ _ _ _ _ =>
      if is_git_config args then
        (exists n, args = ["git"; "config"; "user.name"; n] /\
                   git_name self = Some n /\ Py.truthy n = true) \/
        (exists m, args = ["git"; "config"; "user.email"; m] /\
                   git_email self = Some m /\ Py.truthy m = true)
      else True
  | _ => True
  end.

(** X18.  The only [git config] commands a project's processing runs set
    [user.name] to the name and [user.email] to the address the
    processor was given, without [--global]; a processor given no name
    (or an empty one) never sets [user.name], and likewise for the
    address. *)
Theorem identity_is_configured_as_given (E : Env) (self : ProjectProcessor) (p : Path)
    (s : State) :
  Forall (configures_identity self) (new_events s (process_project E self p s).2).
Proof.
  apply tracks_new_events.
  assert (H : keeps (tracks (Forall (configures_identity self))) (fun _ => True)
                (process_project E self p)).
  { tracks_auto; (constructor; [|constructor]); simpl; [left | right]; eauto. }
  apply H.
Qed.

(** ** The properties on the concrete world *)

(** A processor without a manager, and one that renames a branch. *)
Definition self_local : ProjectProcessor :=
  {| parent_dir := Example.parent; github_manager := None; token := None;
     git_name := None; git_email := None; protocol := "SSH"; private := false;
     default_branch := "main"; push_via_token_in_https := false;
     do_branch_ops := no_branch_ops |}.

Definition self_rename : ProjectProcessor :=
  {| parent_dir := Example.parent; github_manager := Some Example.manager0;
     token := Some "tok"; git_name := None; git_email := None; protocol := "SSH";
     private := false; default_branch := "main"; push_via_token_in_https := false;
     do_branch_ops := mkBranchOps None (Some ("old", "new")) None |}.

Section MoreExamples.
Import Example.

(** Without a manager the processing of [beta] makes no request and
    runs no [git remote] command. *)
Lemma no_manager_no_hosting_witness :
  Forall (fun e => is_hosting e = false)
    (new_events s0 (process_project E0 self_local beta s0).2).
Proof. apply (no_manager_no_hosting E0 self_local beta s0). reflexivity. Defined.

(** With the token embedded, the record after the remote link of
    [beta] shows the URL with the token. *)
Lemma remote_url_is_logged_witness :
  new_events s0 (process_project E0 self_embed beta s0).2 !! 11%nat =
    Some (ELog INFO ("Remote origin set to: " +:+ "https://tok@github.com/octo/beta.git")).
Proof.
  apply (remote_url_is_logged E0 self_embed beta s0 10 _ beta true false []).
  vm_compute. reflexivity.
Defined.

(** The deletion of the remote branch [old] comes right after the
    local rename. *)
Lemma branch_pushes_are_gated_witness :
  exists j e', 1%nat = S j /\
    new_events s0 (_do_branch_operations E0 self_rename beta s0).2 !! j = Some e' /\
    gated_by (ERun ["git"; "push"; "origin"; ":old"] beta true false [] (Exited 0)) e' = true.
Proof.
  apply (branch_pushes_are_gated E0 self_rename beta s0 1); [vm_compute|]; reflexivity.
Defined.

(** [beta] has a commit: nothing is staged or committed there. *)
Lemma existing_history_is_not_committed_to_witness :
  Forall (fun e => stages e = false) (new_events s0 (process_project E0 self0 beta s0).2).
Proof.
  apply (existing_history_is_not_committed_to E0 self0 beta s0 beta true true []).
  apply list_elem_of_In. vm_compute. tauto.
Defined.

(** [git init] leaves [.git] in [alpha]: nothing is written there. *)
Lemma process_project_never_writes_witness :
  Forall (fun e => is_write e = false) (new_events s0 (process_project E0 self0 alpha s0).2).
Proof. apply (process_project_never_writes E0 self0 alpha s0). reflexivity. Defined.

(** The answer "n" at the prompt. *)
Lemma declined_run_touches_nothing_witness :
  let r := main E0 args_declined s0 in
  r.1 = inl (SystemExit 0) /\
  Forall (fun e => touches_project e = false) (new_events s0 r.2) /\
  last (new_events s0 r.2) = Some (ELog INFO "Aborted by user") /\
  length (List.filter is_get_user (new_events s0 r.2)) = 1%nat /\
  st_fs r.2 = st_fs s0 /\ st_account r.2 = st_account s0.
Proof.
  apply (declined_run_touches_nothing E0 args_declined s0); [by apply starts_up | reflexivity].
Defined.

(** Two projects, one success and one failure. *)
Lemma report_accounts_for_every_project_witness :
  exists pre ok fail,
    new_events s0 (process_all E0 self0 s0).2 =
      pre ++ [ELog INFO (nl +:+ "=== Summary ===");
              ELog INFO ("Succeeded: " +:+ pretty (length ok))]
          ++ map summary_line ok
          ++ [ELog INFO ("Failed: " +:+ pretty (length fail))]
          ++ map summary_line fail /\
    Forall (fun e => is_summary_line e = false) pre /\
    (length ok + length fail = length [alpha; beta])%nat /\
    Forall (fun o : Outcome => o.1.2 = true) ok /\
    Forall (fun o : Outcome => o.1.2 = false) fail /\
    ok ++ fail ≡ₚ st_summary (process_all E0 self0 s0).2.
Proof.
  apply (report_accounts_for_every_project E0 self0 s0 alpha [beta]);
    [vm_compute|]; reflexivity.
Defined.

(** [beta] is a repository with a commit: both probes exit with zero
    and the answer is [True]. *)
Lemma has_commits_contract_witness :
  (_has_commits E0 beta s0).1 = inr true /\
  new_events s0 (_has_commits E0 beta s0).2 =
    [ERun ["git"; "rev-parse"; "--is-inside-work-tree"] beta true true [] (Exited 0);
     ERun ["git"; "rev-parse"; "HEAD"] beta true true []
       (git E0 (after_run E0 s0 ["git"; "rev-parse"; "--is-inside-work-tree"] beta true true []
                  (Exited 0))
          ["git"; "rev-parse"; "HEAD"] beta [])].
Proof.
  destruct (has_commits_contract E0 beta s0) as (Htrue & _ & _ & Hev & _).
  split; [apply Htrue; split; reflexivity | apply Hev; reflexivity].
Defined.

(** The token is accepted: the login becomes the manager's name. *)
Lemma GitHubManager_init_contract_witness :
  (GitHubManager_init E0 "tok" s0).2 = add_event s0 (EApi GetUser) /\
  (GitHubManager_init E0 "tok" s0).1 = inr (mkManager "octo").
Proof.
  destruct (GitHubManager_init_contract E0 "tok" s0) as (_ & H & _). apply H. reflexivity.
Defined.

(** [beta] is pushed over HTTPS without an embedded token: prompts are
    disabled for that push. *)
Lemma prompts_disabled_on_https_push_only_witness :
  exists pre post,
    new_events s0 (process_project E0 self0 beta s0).2 =
      pre ++ ERun ["git"; "push"; "-u"; "origin"; "main"] beta true false
                [("GIT_TERMINAL_PROMPT", "0")] (Exited 0) :: post.
Proof.
  destruct (prompts_disabled_on_https_push_only E0 self0 beta s0) as [_ H].
  apply H. vm_compute. reflexivity.
Defined.

(** [alpha] has no [.git] and is initialised first; [beta] has one and
    is not initialised again. *)
Lemma git_init_only_when_missing_witness :
  (exists out l,
     new_events s0 (process_project E0 self0 alpha s0).2 =
       ELog INFO (start_line alpha)
       :: ELog INFO ".git not found -> initializing git repository"
       :: ERun ["git"; "init"] alpha true false [] out :: l /\
     Forall (fun e => is_git_init e = false) l) /\
  Forall (fun e => is_git_init e = false)
    (new_events s0 (process_project E0 self0 beta s0).2).
Proof.
  split.
  - destruct (git_init_only_when_missing E0 self0 alpha s0) as [_ H]. apply H. reflexivity.
  - destruct (git_init_only_when_missing E0 self0 beta s0) as [H _]. apply H. reflexivity.
Defined.

(** [beta] succeeds and is closed in the log. *)
Lemma finished_record_iff_success_witness :
  last (new_events s0 (process_project E0 self0 beta s0).2) =
    Some (ELog INFO ("=== Finished: " +:+ path_name beta +:+ " ===" +:+ nl)).
Proof.
  destruct (finished_record_iff_success E0 self0 beta s0) as [_ H].
  apply H. vm_compute. reflexivity.
Defined.

End MoreExamples.
